(** * GFlowNet trajectory bookkeeping: environment contract, Batch and Buffer

    A shallow embedding of [gflownet/envs/base.py] (classes [GFlowNetEnv] and
    [Buffer]) and of [gflownet/utils/batch.py] (class [Batch]), followed by
    the properties of the specification stated over that embedding.

    Conventions of the embedding:
    - Python exceptions are values of [Py.exn]; a method that mutates [self]
      returns either [Py.Ok s a] (the object after the call and the returned
      value) or [Py.Raise s e] (the object as the raise left it, and the
      exception): Python does not roll mutations back.
    - floating-point numbers are idealised as real numbers ([R]); where only
      their order matters (the replay reservoir) integers are used.
    - ordered dictionaries are association lists in insertion order.
    - type annotations and docstrings carry no behaviour and are left out;
      device and float-precision settings are left out as well. *)

From Stdlib Require Import ZArith List String Reals Lra Lia Bool.
From stdpp Require Import base gmap sets list.

Open Scope Z_scope.

(* ===================================================================== *)
(** * Part I: definitions *)
(* ===================================================================== *)

(** ** Python outcomes *)

Module Py.

Inductive exn : Type :=
| NameError (name : string)
| UnboundLocalError (name : string)
| IndexError
| KeyError
| TypeError
| ValueError
| AttributeError (attr : string)
| AssertionError
| RuntimeError
| Exception (msg : string).

(** Outcome of a call on a mutable object of type [S] returning an [A]. *)
Inductive outcome (S A : Type) : Type :=
| Ok (s : S) (a : A)
| Raise (s : S) (e : exn).

Arguments Ok {S A} s a.
Arguments Raise {S A} s e.

(** The state-and-exception monad of method bodies. *)
Definition M (S A : Type) : Type := S -> outcome S A.

Definition ret {S A} (a : A) : M S A := fun s => Ok s a.

Definition bind {S A B} (m : M S A) (k : A -> M S B) : M S B :=
  fun s => match m s with
           | Ok s' a => k a s'
           | Raise s' e => Raise s' e
           end.

Definition raise {S A} (e : exn) : M S A := fun s => Raise s e.

Definition get {S} : M S S := fun s => Ok s s.

Definition put {S} (s : S) : M S unit := fun _ => Ok s tt.

Definition modify {S} (f : S -> S) : M S unit := fun s => Ok (f s) tt.

(** The object a call leaves behind, whether it returned or raised. *)
Definition final_state {S A} (o : outcome S A) : S :=
  match o with Ok s _ => s | Raise s _ => s end.

Definition returned {S A} (o : outcome S A) : bool :=
  match o with Ok _ _ => true | Raise _ _ => false end.

(** Name resolution inside a function body: the local scope (parameters and
    assigned locals) is searched first; none of the names looked up in this
    development is bound at module level or is a builtin, so a miss is a
    [NameError]. *)
Fixpoint lookup_name {V : Type} (name : string) (scope : list (string * V))
  : option V :=
  match scope with
  | [] => None
  | (n, v) :: rest => if String.eqb n name then Some v else lookup_name name rest
  end.

(** [l[i]] for a Python list and a non-negative index. *)
Definition getitem {S A} (l : list A) (i : nat) : M S A :=
  match l !! i with
  | Some a => ret a
  | None => raise IndexError
  end.

(** [[f(x) for x in l]] *)
Fixpoint for_each {S A B} (f : A -> M S B) (l : list A) : M S (list B) :=
  match l with
  | [] => ret []
  | x :: l' => bind (f x) (fun y => bind (for_each f l') (fun ys => ret (y :: ys)))
  end.

(** [for x in l: body(x)] *)
Fixpoint for_ {S A} (body : A -> M S unit) (l : list A) : M S unit :=
  match l with
  | [] => ret tt
  | x :: l' => bind (body x) (fun _ => for_ body l')
  end.

(** A loop that carries local variables [acc] from one round to the next. *)
Fixpoint for_acc {S A B} (body : A -> B -> M S B) (l : list A) (acc : B)
  : M S B :=
  match l with
  | [] => ret acc
  | x :: l' => bind (body x acc) (fun acc' => for_acc body l' acc')
  end.

(** A method call on another object [o]: its exception propagates; the
    object it leaves is handed back when it returns. *)
Definition call_on {S O A} (o : O) (m : M O A) : M S (O * A) :=
  match m o with
  | Ok o' a => ret (o', a)
  | Raise _ e => raise e
  end.

End Py.

#[global] Instance M_ret {S} : MRet (Py.M S) := fun A => @Py.ret S A.
#[global] Instance M_bind {S} : MBind (Py.M S) :=
  fun A B (k : A -> Py.M S B) (m : Py.M S A) => Py.bind m k.

(** ** Reward shaping ([GFlowNetEnv.proxy2reward], [reward2proxy], [reward]) *)

Module Reward.

Local Open Scope R_scope.

(** The value of a numeric method: a float, or what stopped the call.
    The arguments are numpy values, as the scorers return them, so that
    the arithmetic is numpy's: beyond the range of double precision it
    gives an infinity or nan, with a warning and no exception. A float is
    modelled by the real number it stands for; rounding to 53 bits and the
    sign of zero are not modelled. *)
Inductive outcome : Type :=
| Value (r : R)
| PosInf
| NegInf
| NaN
| Raises (e : Py.exn).

(** The largest double-precision float and the smallest positive normal
    one. *)
Definition max_float : R := (2 - / 2 ^ 52) * 2 ^ 1023.
Definition min_normal : R := / 2 ^ 1022.

(** Where rounding to nearest leaves the finite floats: half a unit in
    the last place above [max_float] a real rounds to an infinity, and up
    to half the smallest positive float, [2 ^ -1074], it rounds to zero. *)
Definition overflow_at : R := (2 - / 2 ^ 53) * 2 ^ 1023.
Definition underflow_at : R := / 2 ^ 1075.

(** Zero, or a real in the range of the normal floats, where a result is
    the real one up to a relative error of [2 ^ -53]. *)
Definition in_range (r : R) : Prop :=
  r = 0 \/ min_normal <= Rabs r <= max_float.

(** The float a real result becomes. *)
Definition fl (r : R) : outcome :=
  if Rle_dec overflow_at r then PosInf
  else if Rle_dec r (- overflow_at) then NegInf
  else if Rle_dec (Rabs r) underflow_at then Value 0
  else Value r.

(** The order of the floats, infinities included; nan is not ordered. *)
Definition ole (x y : outcome) : Prop :=
  match x, y with
  | NegInf, NegInf | NegInf, Value _ | NegInf, PosInf => True
  | Value a, Value b => a <= b
  | Value _, PosInf => True
  | PosInf, PosInf => True
  | _, _ => False
  end.

(** The attributes of [GFlowNetEnv] read by the reward methods.
    [energies_stats] is [None] by default. *)
Record env : Type := {
  min_reward : R;
  reward_beta : R;
  reward_norm : R;
  reward_func : string;
  energies_stats : option (list R);
  denorm_proxy : bool
}.

(** [c * x] and [x * c] for a float attribute [c] *)
Definition np_scale (c : R) (x : outcome) : outcome :=
  match x with
  | Value r => fl (c * r)
  | PosInf =>
      if Rlt_dec 0 c then PosInf else if Rlt_dec c 0 then NegInf else NaN
  | NegInf =>
      if Rlt_dec 0 c then NegInf else if Rlt_dec c 0 then PosInf else NaN
  | o => o
  end.

(** [x / c] for a float attribute [c]; numpy divides by zero without an
    exception. *)
Definition np_div (x : outcome) (c : R) : outcome :=
  match x with
  | Value r =>
      if Req_dec_T c 0 then
        (if Rlt_dec 0 r then PosInf else if Rlt_dec r 0 then NegInf else NaN)
      else fl (r / c)
  | PosInf => if Rlt_dec c 0 then NegInf else PosInf
  | NegInf => if Rlt_dec c 0 then PosInf else NegInf
  | o => o
  end.

(** [x + y] *)
Definition np_add (x y : outcome) : outcome :=
  match x, y with
  | Raises e, _ => Raises e
  | _, Raises e => Raises e
  | NaN, _ => NaN
  | _, NaN => NaN
  | Value a, Value b => fl (a + b)
  | PosInf, NegInf => NaN
  | NegInf, PosInf => NaN
  | PosInf, _ => PosInf
  | _, PosInf => PosInf
  | NegInf, _ => NegInf
  | _, NegInf => NegInf
  end.

(** [-x] *)
Definition np_neg (x : outcome) : outcome :=
  match x with
  | Value r => Value (- r)
  | PosInf => NegInf
  | NegInf => PosInf
  | o => o
  end.

(** [np.exp] *)
Definition np_exp (x : outcome) : outcome :=
  match x with
  | Value r => fl (exp r)
  | PosInf => PosInf
  | NegInf => Value 0
  | o => o
  end.

(** [np.log] *)
Definition np_log (x : outcome) : outcome :=
  match x with
  | Value r =>
      if Rlt_dec 0 r then Value (ln r)
      else if Req_dec_T r 0 then NegInf else NaN
  | PosInf => PosInf
  | NegInf => NaN
  | o => o
  end.

(** [x ** y] for a float attribute [y]: the real power for a positive
    base, the integer power for a negative base and an integer-valued
    exponent, nan for a negative base otherwise. *)
Definition np_power (x : outcome) (y : R) : outcome :=
  match x with
  | Value r =>
      if Rlt_dec 0 r then fl (Rpower r y)
      else if Req_dec_T r 0 then
        (if Rlt_dec 0 y then Value 0
         else if Req_dec_T y 0 then Value 1 else PosInf)
      else if Req_dec_T (IZR (Int_part y)) y
           then fl (powerRZ r (Int_part y))
           else NaN
  | PosInf =>
      if Rlt_dec 0 y then PosInf
      else if Req_dec_T y 0 then Value 1 else Value 0
  | NegInf =>
      if Rlt_dec 0 y then
        (if Req_dec_T (IZR (Int_part y)) y
         then (if Z.odd (Int_part y) then NegInf else PosInf)
         else PosInf)
      else if Req_dec_T y 0 then Value 1 else Value 0
  | NaN => if Req_dec_T y 0 then Value 1 else NaN
  | o => o
  end.

(** [np.clip(x, lo, None)] *)
Definition np_clip_min (x : outcome) (lo : R) : outcome :=
  match x with
  | Value r => Value (Rmax r lo)
  | NegInf => Value lo
  | o => o
  end.

(** [self.energies_stats[i]] *)
Definition stats_item (e : env) (i : nat) : outcome :=
  match energies_stats e with
  | None => Raises Py.TypeError
  | Some l => match l !! i with
              | Some r => Value r
              | None => Raises Py.IndexError
              end
  end.

Definition obind (o : outcome) (k : R -> outcome) : outcome :=
  match o with
  | Value r => k r
  | o' => o'
  end.

(** The de-normalisation step that opens [proxy2reward]. *)
Definition denorm (e : env) (proxy_vals : outcome) : outcome :=
  if denorm_proxy e then
    obind (stats_item e 3) (fun sd =>
    obind (stats_item e 2) (fun mu =>
    np_add (np_scale sd proxy_vals) (Value mu)))
  else proxy_vals.

(** The value handed to [np.clip] by [proxy2reward], for an argument that
    may be any float. *)
Definition shaped_of (e : env) (proxy_vals : outcome) : outcome :=
  match denorm e proxy_vals with
  | Raises ex => Raises ex
  | pv =>
    if String.eqb (reward_func e) "power" then
      np_power (np_div (np_scale (-1) pv) (reward_norm e)) (reward_beta e)
    else if String.eqb (reward_func e) "boltzmann" then
      np_exp (np_scale (-1 * reward_beta e) pv)
    else Raises Py.TypeError
  end.

Definition proxy2reward_of (e : env) (proxy_vals : outcome) : outcome :=
  np_clip_min (shaped_of e proxy_vals) (min_reward e).

Definition reward2proxy_of (e : env) (reward : outcome) : outcome :=
  if String.eqb (reward_func e) "power" then
    np_neg
      (np_exp
         (np_div
            (np_add (np_log reward)
               (np_scale (reward_beta e) (np_log (Value (reward_norm e)))))
            (reward_beta e)))
  else if String.eqb (reward_func e) "boltzmann" then
    np_div (np_scale (-1) (np_log reward)) (reward_beta e)
  else Raises Py.TypeError.

(** The methods on a finite argument. *)
Definition shaped (e : env) (proxy_vals : R) : outcome :=
  shaped_of e (Value proxy_vals).

Definition proxy2reward (e : env) (proxy_vals : R) : outcome :=
  proxy2reward_of e (Value proxy_vals).

Definition reward2proxy (e : env) (reward : R) : outcome :=
  reward2proxy_of e (Value reward).

(** [reward2proxy(proxy2reward(v))] *)
Definition roundtrip (e : env) (v : R) : outcome :=
  reward2proxy_of e (proxy2reward e v).

(** The environment built by [GFlowNetEnv()] with its default arguments. *)
Definition default_env : env :=
  {| min_reward := 1 / 100000000;
     reward_beta := 1;
     reward_norm := 1;
     reward_func := "power";
     energies_stats := None;
     denorm_proxy := false |}.

Section Scorer.

(** A state, the scorer-input format, the batch conversion
    [statebatch2proxy] and the scorer [self.proxy] (applied to a one-row
    batch, its output is the single score). *)
Context {State ProxyIn : Type}.
Variable statebatch2proxy : list State -> ProxyIn.
Variable proxy : ProxyIn -> R.

(** [state2proxy(state)]; [self_state] is [self.state]. *)
Definition state2proxy (self_state : State) (state : option State) : ProxyIn :=
  let state := match state with None => self_state | Some s => s end in
  statebatch2proxy [state].

(** [reward(state, done)]; [self_done] is [self.done]. *)
Definition reward (e : env) (self_state : State) (self_done : bool)
    (state : option State) (done : option bool) : outcome :=
  let done := match done with None => self_done | Some d => d end in
  if done then Value 0
  else
    let state := match state with None => self_state | Some s => s end in
    proxy2reward e (proxy (state2proxy self_state (Some state))).

End Scorer.

End Reward.
(** ** The state machine of [GFlowNetEnv]: [step], [get_parents], masks *)

Module Env.

Section Env.

Context {State : Type}.

(** The attributes of [GFlowNetEnv] read or written by [step],
    [get_parents] and the masks. [action_space_len] is
    [len(self.action_space)]; the constructor sets [eos] to it. *)
Record t : Type := {
  state : State;
  done : bool;
  n_actions : Z;
  action_space_len : nat;
  eos : Z
}.

Definition set_done (d : bool) (e : t) : t :=
  {| state := state e; done := d; n_actions := n_actions e;
     action_space_len := action_space_len e; eos := eos e |}.

Definition incr_n_actions (e : t) : t :=
  {| state := state e; done := done e; n_actions := n_actions e + 1;
     action_space_len := action_space_len e; eos := eos e |}.

(** [GFlowNetEnv()] : the base constructor, at a given initial state. *)
Definition init (s0 : State) : t :=
  {| state := s0; done := false; n_actions := 0;
     action_space_len := 0; eos := 0 |}.

(** The body of [step] once [action] is bound to [a]. *)
Definition step_body (a : Z) : Py.M t (State * Z * bool) :=
  self ← Py.get;
  valid ← (if a <? eos self then
             Py.modify (set_done false);; mret true
           else
             Py.modify (set_done true);;
             Py.modify incr_n_actions;; mret true);
  self ← Py.get;
  mret (state self, a, valid).

(** [step(self, action_idx)]. The parameter is [action_idx]; the body reads
    the name [action], which the function never binds. *)
Definition step (action_idx : Z) : Py.M t (State * Z * bool) :=
  let locals := [("action_idx"%string, action_idx)] in
  match Py.lookup_name "action" locals with
  | Some a => step_body a
  | None => Py.raise (Py.NameError "action")
  end.

(** [get_mask_invalid_actions_forward(state, done)] of the base class. *)
Definition get_mask_invalid_actions_forward (self : t)
    (state : option State) (done : option bool) : list bool :=
  replicate (action_space_len self) false.

(** [get_parents(state, done, action)] of the base class; the third
    argument is not read. *)
Definition get_parents (self : t) (st : option State) (dn : option bool)
  : list State * list Z :=
  let st := match st with None => state self | Some s => s end in
  let dn := match dn with None => done self | Some d => d end in
  if dn then ([st], [eos self]) else ([], []).

End Env.

Arguments t : clear implicits.

End Env.

(** ** The replay reservoir of [Buffer] *)

Module Buffer.

(** [np.max] / [np.min] of a one-dimensional array; [None] is the
    [ValueError] numpy raises on an empty array. *)
Definition np_max (l : list Z) : option Z :=
  match l with
  | [] => None
  | x :: t => Some (foldr Z.max x t)
  end.

Definition np_min (l : list Z) : option Z :=
  match l with
  | [] => None
  | x :: t => Some (foldr Z.min x t)
  end.

(** Position of the first occurrence of [m]. *)
Fixpoint index_of (m : Z) (l : list Z) : nat :=
  match l with
  | [] => 0
  | x :: t => if x =? m then 0%nat else S (index_of m t)
  end.

(** [np.argmax] / [argmin]: the first position holding the extremum. *)
Definition np_argmax (l : list Z) : nat :=
  match np_max l with Some m => index_of m l | None => 0%nat end.

Definition np_argmin (l : list Z) : nat :=
  match np_min l with Some m => index_of m l | None => 0%nat end.

(** Number of entries above a threshold. *)
Definition count_above (mn : Z) (l : list Z) : nat :=
  length (filter (fun r => mn < r) l).

Section Buffer.

Context {State Path Energy : Type}.

(** [self.env.state2readable] and [self.env.path2readable]. *)
Variable state2readable : State -> string.
Variable path2readable : Path -> string.

(** A row of the [replay] data frame. The rows [__init__] creates are empty
    ([None]) but for their reward, set to -1. Rewards are kept as integers:
    the reservoir only compares them. *)
Record row : Type := {
  r_state : option string;
  r_path : option string;
  r_reward : Z;
  r_energy : option Energy;
  r_iter : option Z
}.

(** [self.replay] as built by [Buffer.__init__]. *)
Definition init_replay (replay_capacity : nat) : list row :=
  replicate replay_capacity
    {| r_state := None; r_path := None; r_reward := -1;
       r_energy := None; r_iter := None |}.

(** [self.replay["reward"].values] *)
Definition reward_column (replay : list row) : list Z := map r_reward replay.

(** The [while] loop of [_add_greater], run for at most [fuel] tests of its
    condition. [rewards_new] is the working copy, [replay] is [self.replay],
    [n] counts the iterations done so far and is returned next to the
    outcome, for the analysis (the method itself returns [self.replay]).
    [None]: the fuel ran out. *)
Fixpoint add_greater_loop (fuel : nat) (states : list State)
    (paths : list Path) (rewards : list Z) (energies : list Energy) (it : Z)
    (rewards_new : list Z) (n : nat) (replay : list row)
  : option (nat * Py.outcome (list row) unit) :=
  match fuel with
  | O => None
  | S fuel' =>
    match np_max rewards_new with
    | None => Some (n, Py.Raise replay Py.ValueError)
    | Some mx =>
      match np_min (reward_column replay) with
      | None => Some (n, Py.Raise replay Py.ValueError)
      | Some mn =>
        if mx >? mn then
          let idx_new_max := np_argmax rewards_new in
          match states !! idx_new_max, paths !! idx_new_max,
                rewards !! idx_new_max, energies !! idx_new_max with
          | Some s, Some p, Some r, Some en =>
            let new_row :=
              {| r_state := Some (state2readable s);
                 r_path := Some (path2readable p);
                 r_reward := r;
                 r_energy := Some en;
                 r_iter := Some it |} in
            let replay' :=
              <[np_argmin (reward_column replay) := new_row]> replay in
            add_greater_loop fuel' states paths rewards energies it
              (<[idx_new_max := -1]> rewards_new) (S n) replay'
          | _, _, _, _ => Some (n, Py.Raise replay Py.IndexError)
          end
        else Some (n, Py.Ok replay tt)
      end
    end
  end.

(** [_add_greater(states, paths, rewards, energies, it)] *)
Definition _add_greater (fuel : nat) (states : list State) (paths : list Path)
    (rewards : list Z) (energies : list Energy) (it : Z) (replay : list row)
  : option (nat * Py.outcome (list row) unit) :=
  let rewards_new := rewards in
  add_greater_loop fuel states paths rewards energies it rewards_new 0 replay.

(** Every reward of the reservoir is at least [mn]. *)
Definition floor_ok (mn : Z) (replay : list row) : Prop :=
  Forall (fun r => mn <= r_reward r) replay.

(** Each entry of the working copy is the candidate's reward or the
    sentinel. *)
Definition working_copy (rewards_new rewards : list Z) : Prop :=
  Forall2 (fun rn r => rn = r \/ rn = -1) rewards_new rewards.

(** The number of candidates whose reward exceeds the reservoir minimum. *)
Definition candidates_above_min (replay : list row) (rewards : list Z) : nat :=
  match np_min (reward_column replay) with
  | Some mn => count_above mn rewards
  | None => 0%nat
  end.

(** The reservoirs a [Buffer] can hold: the one [__init__] builds, and what
    a finished call of [_add_greater] leaves. *)
Inductive reachable : list row -> Prop :=
| reachable_init (replay_capacity : nat) :
    reachable (init_replay replay_capacity)
| reachable_add (replay : list row) fuel states paths rewards energies it n o :
    reachable replay ->
    _add_greater fuel states paths rewards energies it replay = Some (n, o) ->
    reachable (Py.final_state o).

End Buffer.

Arguments row : clear implicits.

(** A sample call: five candidates for a reservoir of capacity 3. States,
    paths and energies are integers here. *)
Definition ex_readable (x : Z) : string := "x".
Definition ex_states : list Z := [50; 30; 90; 10; 70].
Definition ex_paths : list Z := [0; 0; 0; 0; 0].
Definition ex_rewards : list Z := [5; 3; 9; 1; 7].
Definition ex_energies : list Z := [-5; -3; -9; -1; -7].
Definition ex_replay : list (row Z) := init_replay 3.

(** A reservoir with a reward below the sentinel, and one candidate. *)
Definition low_replay : list (row Z) :=
  [{| r_state := None; r_path := None; r_reward := -3;
      r_energy := None; r_iter := None |}].

End Buffer.

(** ** Action sampling ([GFlowNetEnv.sample_actions], [get_logprobs]) *)

Module Sampling.

(** Tensors are objects passed by reference: a store holds their contents
    and a reference is a position in the store. A policy-output tensor has
    one row per state; a mask has the same shape. *)
Abbreviation tensor := (list (list R)).
Abbreviation mask := (list (list bool)).
Abbreviation ref := nat.
Abbreviation store := (list (list (list R))).

Definition same_shape (t : tensor) (m : mask) : bool :=
  bool_decide (map length t = map length m).

(** The contents of [t] after [t[m] = v]. *)
Definition masked_fill (t : tensor) (m : mask) (v : R) : tensor :=
  zip_with (zip_with (fun x (b : bool) => if b then v else x)) t m.

(** The contents of [t] after [t /= c]. *)
Definition div_all (t : tensor) (c : R) : tensor :=
  map (map (fun x => (x / c)%R)) t.

(** [torch.ones(t.shape)] *)
Definition ones_like (t : tensor) : tensor :=
  map (map (fun _ => 1%R)) t.

(** Entry [i, j] of a tensor or of a mask. *)
Definition entry {A} (t : list (list A)) (i j : nat) : option A :=
  t !! i ≫= fun row => row !! j.

Definition deref (r : ref) : Py.M store tensor :=
  h ← Py.get;
  match h !! r with
  | Some t => mret t
  | None => Py.raise Py.KeyError
  end.

(** A new tensor object. *)
Definition alloc (t : tensor) : Py.M store ref :=
  h ← Py.get; Py.put (h ++ [t]);; mret (length h).

Definition assign (r : ref) (t : tensor) : Py.M store unit :=
  Py.modify (fun h => <[r := t]> h).

(** [r[m] = v], in place; torch rejects a mask of another shape. *)
Definition setitem_mask (r : ref) (m : mask) (v : R) : Py.M store unit :=
  t ← deref r;
  if same_shape t m then assign r (masked_fill t m v)
  else Py.raise Py.IndexError.

(** [r /= c], in place. *)
Definition idiv (r : ref) (c : R) : Py.M store unit :=
  t ← deref r; assign r (div_all t c).

(** [rows[ns_range, idxs]]: entry [idxs[i]] of row [i]. *)
Fixpoint gather (rows : tensor) (idxs : list nat) : Py.M store (list R) :=
  match rows, idxs with
  | [], [] => mret []
  | row :: rows', i :: idxs' =>
      x ← Py.getitem row i; xs ← gather rows' idxs'; mret (x :: xs)
  | _, _ => Py.raise Py.IndexError
  end.

(** A computation that leaves the store as it found it, whether it returns
    or raises. *)
Definition pure {A} (m : Py.M store A) : Prop :=
  forall h, Py.final_state (m h) = h.

Section Sampling.

Context {Action : Type} `{EqDecision Action}.

(** The draw of [Categorical(logits=...).sample()] (one index per row) and
    [self.logsoftmax]. *)
Variable categorical_sample : tensor -> list nat.
Variable logsoftmax : tensor -> tensor.

(** [self.action_space.index(action)] *)
Definition index (action_space : list Action) (action : Action)
  : Py.M store nat :=
  match list_find (fun a => a = action) action_space with
  | Some (i, _) => mret i
  | None => Py.raise Py.ValueError
  end.

(** [sample_actions(policy_outputs, sampling_method, mask_invalid_actions,
    temperature_logits, loginf)]. The local [logits] is a reference; it is
    unbound ([None]) when the method is neither "uniform" nor "policy". *)
Definition sample_actions (action_space : list Action) (policy_outputs : ref)
    (sampling_method : string) (mask_invalid_actions : option mask)
    (temperature_logits loginf : R) : Py.M store (list Action * list R) :=
  po ← deref policy_outputs;
  logits ← (if String.eqb sampling_method "uniform" then
              r ← alloc (ones_like po); mret (Some r)
            else if String.eqb sampling_method "policy" then
              let logits := policy_outputs in
              idiv logits temperature_logits;; mret (Some logits)
            else mret None);
  match logits with
  | None => Py.raise (Py.UnboundLocalError "logits")
  | Some logits =>
    (match mask_invalid_actions with
     | Some m => setitem_mask logits m (- loginf)%R
     | None => mret tt
     end);;
    lg ← deref logits;
    let action_indices := categorical_sample lg in
    logprobs ← gather (logsoftmax lg) action_indices;
    actions ← Py.for_each (Py.getitem action_space) action_indices;
    mret (actions, logprobs)
  end.

(** [get_logprobs(policy_outputs, actions, mask_invalid_actions, loginf)] *)
Definition get_logprobs (action_space : list Action) (policy_outputs : ref)
    (actions : list Action) (mask_invalid_actions : option mask)
    (loginf : R) : Py.M store (list R) :=
  _ ← deref policy_outputs;
  let logits := policy_outputs in
  (match mask_invalid_actions with
   | Some m => setitem_mask logits m (- loginf)%R
   | None => mret tt
   end);;
  action_indices ← Py.for_each (index action_space) actions;
  lg ← deref logits;
  logprobs ← gather (logsoftmax lg) action_indices;
  mret logprobs.

End Sampling.

(** A sample call: one state, two actions, the first one masked. The draw
    picks index 1; the log-softmax is left as the identity. *)
Definition ex_sample (t : tensor) : list nat := map (fun _ => 1%nat) t.
Definition ex_logsoftmax (t : tensor) : tensor := t.
Definition ex_action_space : list nat := [10%nat; 11%nat].
Definition ex_outputs : tensor := [[1%R; 2%R]].
Definition ex_mask : mask := [[true; false]].
Definition ex_store : store := [ex_outputs].

End Sampling.

(** ** The batch of trajectories ([gflownet/utils/batch.py]) *)

Module Batch.

(** *** Ordered dictionaries with integer keys *)

Section Dict.

Context {V : Type}.

(** [k in d] *)
Definition dict_mem (k : Z) (d : list (Z * V)) : bool :=
  bool_decide (k ∈ d.*1).

(** [d[k]], [None] standing for [KeyError] *)
Fixpoint dict_get (k : Z) (d : list (Z * V)) : option V :=
  match d with
  | [] => None
  | (k', v) :: rest => if k' =? k then Some v else dict_get k rest
  end.

(** [d[k] = v] / [d.update({k: v})]: a present key keeps its place, a new
    one goes last. *)
Fixpoint dict_set (k : Z) (v : V) (d : list (Z * V)) : list (Z * V) :=
  match d with
  | [] => [(k, v)]
  | (k', v') :: rest =>
      if k' =? k then (k, v) :: rest else (k', v') :: dict_set k v rest
  end.

(** [d.update(other)] *)
Definition dict_update (d other : list (Z * V)) : list (Z * V) :=
  foldl (fun acc kv => dict_set kv.1 kv.2 acc) d other.

(** A dictionary built from items in order, as a comprehension does. *)
Definition dict_of_items (items : list (Z * V)) : list (Z * V) :=
  dict_update [] items.

Definition keys (d : list (Z * V)) : list Z := d.*1.
Definition values (d : list (Z * V)) : list V := d.*2.

End Dict.

(** [set(l)] for a list of integers *)
Definition set_of (l : list Z) : gset Z := list_to_set l.

(** [np.max] of a list of keys; [None] is numpy's [ValueError] on []. *)
Definition np_max (l : list Z) : option Z :=
  match l with
  | [] => None
  | x :: t => Some (foldr Z.max x t)
  end.

Section Batch.

(** States and actions are opaque to the batch, as are the values of masks
    and the tensors in policy format, in proxy format and of rewards. *)
Context {State Action MaskT PolicyT ProxyT RewardT : Type}.

(** The attributes of an environment the batch reads. *)
Record Env : Type := {
  env_id : Z;
  env_state : State;
  env_done : bool;
  env_n_actions : Z;
  env_continuous : bool
}.

(** Modelled from the spec: [GFlowNetEnv.set_id], which
    [_shift_traj_indices] calls and [src/] does not define; it re-numbers
    the environment and returns it. *)
Definition set_id (e : Env) (i : Z) : Env :=
  {| env_id := i; env_state := env_state e; env_done := env_done e;
     env_n_actions := env_n_actions e; env_continuous := env_continuous e |}.

(** The attributes of a [Batch]. [parents], [parents_all] and the tensors
    are [None] when Python holds [None] there (or nothing yet). [merge] also
    assigns [None] to two attributes, [masks_forward] and [masks_backward],
    that no method reads: they have no field here. *)
Record t : Type := {
  env : option Env;
  conditional : option bool;
  continuous : option bool;
  size : nat;
  envs : list (Z * Env);
  trajectories : list (Z * list nat);
  traj_indices : list Z;
  state_indices : list Z;
  states : list State;
  actions : list Action;
  done : list bool;
  masks_invalid_actions_forward : list (option MaskT);
  masks_invalid_actions_backward : list (option MaskT);
  parents : option (list State);
  parents_all : option (list State);
  states_policy : option PolicyT;
  parents_policy : option PolicyT;
  rewards : option RewardT;
  parents_available : bool;
  parents_all_available : bool;
  masks_forward_available : bool;
  masks_backward_available : bool;
  rewards_available : bool
}.

(** Attribute assignment, one function per attribute that is written. *)
Definition set_continuous (v : option bool) (b : t) : t :=
  {| env := env b; conditional := conditional b; continuous := v;
     size := size b; envs := envs b; trajectories := trajectories b;
     traj_indices := traj_indices b; state_indices := state_indices b;
     states := states b; actions := actions b; done := done b;
     masks_invalid_actions_forward := masks_invalid_actions_forward b;
     masks_invalid_actions_backward := masks_invalid_actions_backward b;
     parents := parents b; parents_all := parents_all b;
     states_policy := states_policy b; parents_policy := parents_policy b;
     rewards := rewards b; parents_available := parents_available b;
     parents_all_available := parents_all_available b;
     masks_forward_available := masks_forward_available b;
     masks_backward_available := masks_backward_available b;
     rewards_available := rewards_available b |}.

Definition set_size (v : nat) (b : t) : t :=
  {| env := env b; conditional := conditional b; continuous := continuous b;
     size := v; envs := envs b; trajectories := trajectories b;
     traj_indices := traj_indices b; state_indices := state_indices b;
     states := states b; actions := actions b; done := done b;
     masks_invalid_actions_forward := masks_invalid_actions_forward b;
     masks_invalid_actions_backward := masks_invalid_actions_backward b;
     parents := parents b; parents_all := parents_all b;
     states_policy := states_policy b; parents_policy := parents_policy b;
     rewards := rewards b; parents_available := parents_available b;
     parents_all_available := parents_all_available b;
     masks_forward_available := masks_forward_available b;
     masks_backward_available := masks_backward_available b;
     rewards_available := rewards_available b |}.

Definition set_envs (v : list (Z * Env)) (b : t) : t :=
  {| env := env b; conditional := conditional b; continuous := continuous b;
     size := size b; envs := v; trajectories := trajectories b;
     traj_indices := traj_indices b; state_indices := state_indices b;
     states := states b; actions := actions b; done := done b;
     masks_invalid_actions_forward := masks_invalid_actions_forward b;
     masks_invalid_actions_backward := masks_invalid_actions_backward b;
     parents := parents b; parents_all := parents_all b;
     states_policy := states_policy b; parents_policy := parents_policy b;
     rewards := rewards b; parents_available := parents_available b;
     parents_all_available := parents_all_available b;
     masks_forward_available := masks_forward_available b;
     masks_backward_available := masks_backward_available b;
     rewards_available := rewards_available b |}.

Definition set_trajectories (v : list (Z * list nat)) (b : t) : t :=
  {| env := env b; conditional := conditional b; continuous := continuous b;
     size := size b; envs := envs b; trajectories := v;
     traj_indices := traj_indices b; state_indices := state_indices b;
     states := states b; actions := actions b; done := done b;
     masks_invalid_actions_forward := masks_invalid_actions_forward b;
     masks_invalid_actions_backward := masks_invalid_actions_backward b;
     parents := parents b; parents_all := parents_all b;
     states_policy := states_policy b; parents_policy := parents_policy b;
     rewards := rewards b; parents_available := parents_available b;
     parents_all_available := parents_all_available b;
     masks_forward_available := masks_forward_available b;
     masks_backward_available := masks_backward_available b;
     rewards_available := rewards_available b |}.

Definition set_traj_indices (v : list Z) (b : t) : t :=
  {| env := env b; conditional := conditional b; continuous := continuous b;
     size := size b; envs := envs b; trajectories := trajectories b;
     traj_indices := v; state_indices := state_indices b;
     states := states b; actions := actions b; done := done b;
     masks_invalid_actions_forward := masks_invalid_actions_forward b;
     masks_invalid_actions_backward := masks_invalid_actions_backward b;
     parents := parents b; parents_all := parents_all b;
     states_policy := states_policy b; parents_policy := parents_policy b;
     rewards := rewards b; parents_available := parents_available b;
     parents_all_available := parents_all_available b;
     masks_forward_available := masks_forward_available b;
     masks_backward_available := masks_backward_available b;
     rewards_available := rewards_available b |}.

Definition set_state_indices (v : list Z) (b : t) : t :=
  {| env := env b; conditional := conditional b; continuous := continuous b;
     size := size b; envs := envs b; trajectories := trajectories b;
     traj_indices := traj_indices b; state_indices := v; states := states b;
     actions := actions b; done := done b;
     masks_invalid_actions_forward := masks_invalid_actions_forward b;
     masks_invalid_actions_backward := masks_invalid_actions_backward b;
     parents := parents b; parents_all := parents_all b;
     states_policy := states_policy b; parents_policy := parents_policy b;
     rewards := rewards b; parents_available := parents_available b;
     parents_all_available := parents_all_available b;
     masks_forward_available := masks_forward_available b;
     masks_backward_available := masks_backward_available b;
     rewards_available := rewards_available b |}.

Definition set_states (v : list State) (b : t) : t :=
  {| env := env b; conditional := conditional b; continuous := continuous b;
     size := size b; envs := envs b; trajectories := trajectories b;
     traj_indices := traj_indices b; state_indices := state_indices b;
     states := v; actions := actions b; done := done b;
     masks_invalid_actions_forward := masks_invalid_actions_forward b;
     masks_invalid_actions_backward := masks_invalid_actions_backward b;
     parents := parents b; parents_all := parents_all b;
     states_policy := states_policy b; parents_policy := parents_policy b;
     rewards := rewards b; parents_available := parents_available b;
     parents_all_available := parents_all_available b;
     masks_forward_available := masks_forward_available b;
     masks_backward_available := masks_backward_available b;
     rewards_available := rewards_available b |}.

Definition set_actions (v : list Action) (b : t) : t :=
  {| env := env b; conditional := conditional b; continuous := continuous b;
     size := size b; envs := envs b; trajectories := trajectories b;
     traj_indices := traj_indices b; state_indices := state_indices b;
     states := states b; actions := v; done := done b;
     masks_invalid_actions_forward := masks_invalid_actions_forward b;
     masks_invalid_actions_backward := masks_invalid_actions_backward b;
     parents := parents b; parents_all := parents_all b;
     states_policy := states_policy b; parents_policy := parents_policy b;
     rewards := rewards b; parents_available := parents_available b;
     parents_all_available := parents_all_available b;
     masks_forward_available := masks_forward_available b;
     masks_backward_available := masks_backward_available b;
     rewards_available := rewards_available b |}.

Definition set_done (v : list bool) (b : t) : t :=
  {| env := env b; conditional := conditional b; continuous := continuous b;
     size := size b; envs := envs b; trajectories := trajectories b;
     traj_indices := traj_indices b; state_indices := state_indices b;
     states := states b; actions := actions b; done := v;
     masks_invalid_actions_forward := masks_invalid_actions_forward b;
     masks_invalid_actions_backward := masks_invalid_actions_backward b;
     parents := parents b; parents_all := parents_all b;
     states_policy := states_policy b; parents_policy := parents_policy b;
     rewards := rewards b; parents_available := parents_available b;
     parents_all_available := parents_all_available b;
     masks_forward_available := masks_forward_available b;
     masks_backward_available := masks_backward_available b;
     rewards_available := rewards_available b |}.

Definition set_masks_invalid_actions_forward (v : list (option MaskT)) (b : t) : t :=
  {| env := env b; conditional := conditional b; continuous := continuous b;
     size := size b; envs := envs b; trajectories := trajectories b;
     traj_indices := traj_indices b; state_indices := state_indices b;
     states := states b; actions := actions b; done := done b;
     masks_invalid_actions_forward := v;
     masks_invalid_actions_backward := masks_invalid_actions_backward b;
     parents := parents b; parents_all := parents_all b;
     states_policy := states_policy b; parents_policy := parents_policy b;
     rewards := rewards b; parents_available := parents_available b;
     parents_all_available := parents_all_available b;
     masks_forward_available := masks_forward_available b;
     masks_backward_available := masks_backward_available b;
     rewards_available := rewards_available b |}.

Definition set_masks_invalid_actions_backward (v : list (option MaskT)) (b : t) : t :=
  {| env := env b; conditional := conditional b; continuous := continuous b;
     size := size b; envs := envs b; trajectories := trajectories b;
     traj_indices := traj_indices b; state_indices := state_indices b;
     states := states b; actions := actions b; done := done b;
     masks_invalid_actions_forward := masks_invalid_actions_forward b;
     masks_invalid_actions_backward := v; parents := parents b;
     parents_all := parents_all b; states_policy := states_policy b;
     parents_policy := parents_policy b; rewards := rewards b;
     parents_available := parents_available b;
     parents_all_available := parents_all_available b;
     masks_forward_available := masks_forward_available b;
     masks_backward_available := masks_backward_available b;
     rewards_available := rewards_available b |}.

Definition set_parents (v : option (list State)) (b : t) : t :=
  {| env := env b; conditional := conditional b; continuous := continuous b;
     size := size b; envs := envs b; trajectories := trajectories b;
     traj_indices := traj_indices b; state_indices := state_indices b;
     states := states b; actions := actions b; done := done b;
     masks_invalid_actions_forward := masks_invalid_actions_forward b;
     masks_invalid_actions_backward := masks_invalid_actions_backward b;
     parents := v; parents_all := parents_all b;
     states_policy := states_policy b; parents_policy := parents_policy b;
     rewards := rewards b; parents_available := parents_available b;
     parents_all_available := parents_all_available b;
     masks_forward_available := masks_forward_available b;
     masks_backward_available := masks_backward_available b;
     rewards_available := rewards_available b |}.

Definition set_parents_all (v : option (list State)) (b : t) : t :=
  {| env := env b; conditional := conditional b; continuous := continuous b;
     size := size b; envs := envs b; trajectories := trajectories b;
     traj_indices := traj_indices b; state_indices := state_indices b;
     states := states b; actions := actions b; done := done b;
     masks_invalid_actions_forward := masks_invalid_actions_forward b;
     masks_invalid_actions_backward := masks_invalid_actions_backward b;
     parents := parents b; parents_all := v;
     states_policy := states_policy b; parents_policy := parents_policy b;
     rewards := rewards b; parents_available := parents_available b;
     parents_all_available := parents_all_available b;
     masks_forward_available := masks_forward_available b;
     masks_backward_available := masks_backward_available b;
     rewards_available := rewards_available b |}.

Definition set_states_policy (v : option PolicyT) (b : t) : t :=
  {| env := env b; conditional := conditional b; continuous := continuous b;
     size := size b; envs := envs b; trajectories := trajectories b;
     traj_indices := traj_indices b; state_indices := state_indices b;
     states := states b; actions := actions b; done := done b;
     masks_invalid_actions_forward := masks_invalid_actions_forward b;
     masks_invalid_actions_backward := masks_invalid_actions_backward b;
     parents := parents b; parents_all := parents_all b; states_policy := v;
     parents_policy := parents_policy b; rewards := rewards b;
     parents_available := parents_available b;
     parents_all_available := parents_all_available b;
     masks_forward_available := masks_forward_available b;
     masks_backward_available := masks_backward_available b;
     rewards_available := rewards_available b |}.

Definition set_parents_policy (v : option PolicyT) (b : t) : t :=
  {| env := env b; conditional := conditional b; continuous := continuous b;
     size := size b; envs := envs b; trajectories := trajectories b;
     traj_indices := traj_indices b; state_indices := state_indices b;
     states := states b; actions := actions b; done := done b;
     masks_invalid_actions_forward := masks_invalid_actions_forward b;
     masks_invalid_actions_backward := masks_invalid_actions_backward b;
     parents := parents b; parents_all := parents_all b;
     states_policy := states_policy b; parents_policy := v;
     rewards := rewards b; parents_available := parents_available b;
     parents_all_available := parents_all_available b;
     masks_forward_available := masks_forward_available b;
     masks_backward_available := masks_backward_available b;
     rewards_available := rewards_available b |}.

Definition set_rewards (v : option RewardT) (b : t) : t :=
  {| env := env b; conditional := conditional b; continuous := continuous b;
     size := size b; envs := envs b; trajectories := trajectories b;
     traj_indices := traj_indices b; state_indices := state_indices b;
     states := states b; actions := actions b; done := done b;
     masks_invalid_actions_forward := masks_invalid_actions_forward b;
     masks_invalid_actions_backward := masks_invalid_actions_backward b;
     parents := parents b; parents_all := parents_all b;
     states_policy := states_policy b; parents_policy := parents_policy b;
     rewards := v; parents_available := parents_available b;
     parents_all_available := parents_all_available b;
     masks_forward_available := masks_forward_available b;
     masks_backward_available := masks_backward_available b;
     rewards_available := rewards_available b |}.

Definition set_masks_forward_available (v : bool) (b : t) : t :=
  {| env := env b; conditional := conditional b; continuous := continuous b;
     size := size b; envs := envs b; trajectories := trajectories b;
     traj_indices := traj_indices b; state_indices := state_indices b;
     states := states b; actions := actions b; done := done b;
     masks_invalid_actions_forward := masks_invalid_actions_forward b;
     masks_invalid_actions_backward := masks_invalid_actions_backward b;
     parents := parents b; parents_all := parents_all b;
     states_policy := states_policy b; parents_policy := parents_policy b;
     rewards := rewards b; parents_available := parents_available b;
     parents_all_available := parents_all_available b;
     masks_forward_available := v;
     masks_backward_available := masks_backward_available b;
     rewards_available := rewards_available b |}.

Definition set_rewards_available (v : bool) (b : t) : t :=
  {| env := env b; conditional := conditional b; continuous := continuous b;
     size := size b; envs := envs b; trajectories := trajectories b;
     traj_indices := traj_indices b; state_indices := state_indices b;
     states := states b; actions := actions b; done := done b;
     masks_invalid_actions_forward := masks_invalid_actions_forward b;
     masks_invalid_actions_backward := masks_invalid_actions_backward b;
     parents := parents b; parents_all := parents_all b;
     states_policy := states_policy b; parents_policy := parents_policy b;
     rewards := rewards b; parents_available := parents_available b;
     parents_all_available := parents_all_available b;
     masks_forward_available := masks_forward_available b;
     masks_backward_available := masks_backward_available b;
     rewards_available := v |}.

(** [Batch()] : the empty batch, without a generic environment. *)
Definition empty : t :=
  {| env := None; conditional := None; continuous := None; size := 0;
     envs := []; trajectories := []; traj_indices := []; state_indices := [];
     states := []; actions := []; done := [];
     masks_invalid_actions_forward := []; masks_invalid_actions_backward := [];
     parents := Some []; parents_all := Some [];
     states_policy := None; parents_policy := None; rewards := None;
     parents_available := false; parents_all_available := false;
     masks_forward_available := false; masks_backward_available := false;
     rewards_available := false |}.

(** *** The environment methods and helpers the batch calls *)

(** [env.get_mask_invalid_actions_forward()] and [..._backward()], called
    without arguments on an environment; the base class returns [None] for
    the backward one. *)
Variable get_mask_invalid_actions_forward : Env -> option MaskT.
Variable get_mask_invalid_actions_backward : Env -> option MaskT.

(** [env.get_mask_invalid_actions_forward(state, done)] *)
Variable mask_forward_of : Env -> State -> bool -> MaskT.

(** [env.statebatch2proxy(states)] *)
Variable statebatch2proxy : Env -> list State -> ProxyT.

(** Helpers of [gflownet.utils.common], which is not under [src/]: [extend]
    on tensors, and [concat_items]. On lists [extend] is taken to be
    concatenation. *)
Variable extend_policy : PolicyT -> PolicyT -> PolicyT.
Variable extend_rewards : RewardT -> RewardT -> RewardT.
Variable concat_items : list ProxyT -> list nat -> ProxyT.

(** The tensor [_compute_rewards] builds for a batch. *)
Variable compute_rewards : t -> RewardT.

(** [d[k]] inside a method *)
Definition getkey {S V} (k : Z) (d : list (Z * V)) : Py.M S V :=
  match dict_get k d with
  | Some v => mret v
  | None => Py.raise Py.KeyError
  end.

(** *** [add_to_batch] *)

(** The blocks of the loop body of [add_to_batch], named after the
    comments that open them in the source. *)

(** "Add env to dictionary" *)
Definition add_env (e : Env) : Py.M t unit :=
  self ← Py.get;
  if dict_mem (env_id e) (envs self) then mret tt
  else Py.modify (fun b => set_envs (dict_set (env_id e) e (envs b)) b).

(** "Add batch index to trajectory" *)
Definition add_batch_index (backward : bool) (e : Env) : Py.M t unit :=
  self ← Py.get;
  if negb (dict_mem (env_id e) (trajectories self)) then
    Py.modify (fun b =>
      set_trajectories (dict_set (env_id e) [size b] (trajectories b)) b)
  else
    l ← getkey (env_id e) (trajectories self);
    if backward then
      Py.modify (fun b =>
        set_trajectories
          (dict_set (env_id e) (size b :: l) (trajectories b)) b)
    else
      Py.modify (fun b =>
        set_trajectories
          (dict_set (env_id e) (l ++ [size b]) (trajectories b)) b).

(** "Add trajectory index and state index" *)
Definition add_indices (e : Env) : Py.M t unit :=
  Py.modify (fun b => set_traj_indices (traj_indices b ++ [env_id e]) b);;
  Py.modify (fun b =>
    set_state_indices (state_indices b ++ [env_n_actions e]) b).

(** "Add states, actions, done and masks", up to the [if]/[else] on
    [backward]. In backward mode [self.parents] gets the state of the
    environment, and a row that is not the first of its trajectory stores
    [self.parents[self.trajectories[env.id][1]]]. *)
Definition add_state (backward : bool) (e : Env) (mask : option MaskT)
  : Py.M t unit :=
  if backward then
    self ← Py.get;
    ps ← (match parents self with
          | Some ps => mret ps
          | None => Py.raise (Py.AttributeError "append")
          end);
    Py.modify (set_parents (Some (ps ++ [env_state e])));;
    self ← Py.get;
    traj ← getkey (env_id e) (trajectories self);
    if (length traj =? 1)%nat then
      Py.modify (fun b => set_states (states b ++ [env_state e]) b);;
      Py.modify (fun b => set_done (done b ++ [true]) b);;
      Py.modify (fun b =>
        set_masks_invalid_actions_backward
          (masks_invalid_actions_backward b ++ [mask]) b)
    else
      i ← Py.getitem traj 1;
      p ← Py.getitem (ps ++ [env_state e]) i;
      Py.modify (fun b => set_states (states b ++ [p]) b);;
      Py.modify (fun b => set_done (done b ++ [env_done e]) b)
  else
    Py.modify (fun b => set_states (states b ++ [env_state e]) b);;
    Py.modify (fun b => set_done (done b ++ [env_done e]) b);;
    Py.modify (fun b =>
      set_masks_invalid_actions_forward
        (masks_invalid_actions_forward b ++ [mask]) b).

(** One round of the loop of [add_to_batch]. *)
Definition add_sample (backward train : bool)
    (sample_data : Env * Action * bool * option MaskT) : Py.M t unit :=
  let '(e, action, valid, mask) := sample_data in
  if negb train && negb (env_done e) then mret tt
  else if negb valid then mret tt
  else
    add_env e;;
    add_batch_index backward e;;
    add_indices e;;
    add_state backward e mask;;
    Py.modify (fun b => set_actions (actions b ++ [action]) b);;
    Py.modify (fun b => set_size (S (size b)) b).

(** [add_to_batch(envs, actions, valids, masks_invalid_actions, backward,
    train)] *)
Definition add_to_batch (envs_ : list Env) (actions_ : list Action)
    (valids : list bool) (masks_invalid_actions : option (list (option MaskT)))
    (backward train : bool) : Py.M t unit :=
  self ← Py.get;
  (match continuous self with
   | None =>
       e0 ← Py.getitem envs_ 0;
       Py.modify (set_continuous (Some (env_continuous e0)))
   | Some _ => mret tt
   end);;
  let masks_invalid_actions :=
    match masks_invalid_actions with
    | Some masks => masks
    | None =>
        if train then
          if backward then map get_mask_invalid_actions_backward envs_
          else map get_mask_invalid_actions_forward envs_
        else replicate (length envs_) None
    end in
  Py.for_ (add_sample backward train)
    (zip (zip (zip envs_ actions_) valids) masks_invalid_actions).

(** The batches a sampler can build: the empty one, and what a call of
    [add_to_batch] that returned has made of a batch it could build. *)
Inductive built : t -> Prop :=
| built_empty : built empty
| built_add (b b' : t) envs_ actions_ valids masks backward train :
    built b ->
    add_to_batch envs_ actions_ valids masks backward train b = Py.Ok b' tt ->
    built b'.

(** *** Batches built backward *)

(** A tuple is stored as a row when its action was valid and, outside
    training, its environment is done. *)
Definition stored (train : bool) (e : Env) (valid : bool) : bool :=
  negb (negb train && negb (env_done e)) && valid.

(** In a batch whose rows come, in order, from the environments [log], the
    rows of trajectory [i], counted from [n]. *)
Fixpoint rows_from (n : nat) (i : Z) (log : list Env) : list nat :=
  match log with
  | [] => []
  | e :: log' =>
      if env_id e =? i then n :: rows_from (S n) i log'
      else rows_from (S n) i log'
  end.

(** The same rows, last row first. *)
Definition rows_rev (i : Z) (log : list Env) : list nat :=
  reverse (rows_from 0 i log).

(** The environment, as it was handed over, of the latest row of
    trajectory [i]: its state is the previous state in the trajectory. *)
Definition previous_env (i : Z) (log : list Env) : option Env :=
  last (filter (fun e => env_id e = i) log).

(** [b] holds one row per environment of [log], in order, all of them added
    in backward mode: [parents] holds the state each environment had, and
    each trajectory lists its rows last row first. *)
Record backward_built (log : list Env) (b : t) : Prop := {
  bb_size : size b = length log;
  bb_states : length (states b) = length log;
  bb_done : length (done b) = length log;
  bb_parents : parents b = Some (map env_state log);
  bb_trajectories : forall i,
    dict_get i (trajectories b)
    = match rows_rev i log with [] => None | l => Some l end
}.

(** *** [is_valid] *)

Definition is_valid (b : t) : bool :=
  if negb (length (states b) =? size b)%nat then false
  else if negb (length (actions b) =? size b)%nat then false
  else if negb (length (done b) =? size b)%nat then false
  else if negb (length (traj_indices b) =? size b)%nat then false
  else if negb (length (state_indices b) =? size b)%nat then false
  else if negb (bool_decide (set_of (traj_indices b) = set_of (keys (envs b))))
    then false
  else if negb (bool_decide (set_of (keys (trajectories b))
                             = set_of (keys (envs b))))
    then false
  else
    let batch_indices := concat (values (trajectories b)) in
    if negb (length batch_indices =? size b)%nat then false
    else if negb (length (remove_dups batch_indices)
                  =? length batch_indices)%nat then false
    else true.

(** What [add_to_batch] keeps true of a batch, row indices included: the
    row-index lists of the trajectories together hold each of
    [0 .. size-1] once. *)
Record wf (b : t) : Prop := {
  wf_states : length (states b) = size b;
  wf_actions : length (actions b) = size b;
  wf_done : length (done b) = size b;
  wf_traj_indices : length (traj_indices b) = size b;
  wf_state_indices : length (state_indices b) = size b;
  wf_envs_keys : NoDup (keys (envs b));
  wf_traj_keys : NoDup (keys (trajectories b));
  wf_ids : set_of (traj_indices b) = set_of (keys (envs b));
  wf_traj_ids : set_of (keys (trajectories b)) = set_of (keys (envs b));
  wf_rows : concat (values (trajectories b)) ≡ₚ seq 0 (size b)
}.

(** *** [_shift_traj_indices] and [merge] *)

(** The three assignments of [_shift_traj_indices]. *)
Definition shift_fields (by_ : Z) (b : t) : t :=
  let b1 := set_traj_indices (map (fun idx => idx + by_) (traj_indices b)) b in
  let b2 :=
    set_trajectories
      (dict_of_items (map (fun kv => (kv.1 + by_, kv.2)) (trajectories b1)))
      b1 in
  set_envs
    (dict_of_items
       (map (fun kv => (kv.1 + by_, set_id kv.2 (kv.1 + by_))) (envs b2))) b2.

Definition _shift_traj_indices (by_ : Z) : Py.M t unit :=
  self ← Py.get;
  (if negb (is_valid self) then
     Py.raise (Py.Exception "Batch is not valid before attempting indices shift")
   else mret tt);;
  Py.modify (shift_fields by_);;
  self ← Py.get;
  if negb (is_valid self) then
    Py.raise (Py.Exception "Batch is not valid after performing indices shift")
  else mret tt.

(** [extend(a, b)] on two optional lists whose flags say they are
    available; [None] on either side is not a list. *)
Definition extend_lists {A} (a c : option (list A)) : Py.M t (list A) :=
  match a, c with
  | Some la, Some lc => mret (la ++ lc)
  | _, _ => Py.raise Py.TypeError
  end.

Definition extend_tensors {A} (ext : A -> A -> A) (a c : option A)
  : Py.M t A :=
  match a, c with
  | Some ta, Some tc => mret (ext ta tc)
  | _, _ => Py.raise Py.TypeError
  end.

(** The shift [merge] applies to the trajectory ids of the incoming
    batch. *)
Definition traj_idx_shift_of : Py.M t Z :=
  self ← Py.get;
  if (size self =? 0)%nat then mret 0
  else match np_max (keys (trajectories self)) with
       | Some m => mret (m + 1)
       | None => Py.raise Py.ValueError
       end.

(** The block "Merge main data" of [merge]. *)
Definition merge_main_data (batch : t) : Py.M t unit :=
  Py.modify (fun b => set_size (size b + size batch) b);;
  Py.modify (fun b => set_envs (dict_update (envs b) (envs batch)) b);;
  Py.modify (fun b =>
    set_trajectories (dict_update (trajectories b) (trajectories batch)) b);;
  Py.modify (fun b => set_traj_indices (traj_indices b ++ traj_indices batch) b);;
  Py.modify (fun b =>
    set_state_indices (state_indices b ++ state_indices batch) b);;
  Py.modify (fun b => set_states (states b ++ states batch) b);;
  Py.modify (fun b => set_actions (actions b ++ actions batch) b);;
  Py.modify (fun b => set_done (done b ++ done batch) b).

(** The block "Merge optional data" of [merge]. Where a cache is not
    available on both sides, the masks branches assign [None] to the
    attributes [masks_forward] and [masks_backward] (no effect here), the
    other branches assign [None] to the cache; no branch writes a flag. *)
Definition merge_optional_data (batch : t) : Py.M t unit :=
  Py.modify (fun b =>
    set_states_policy
      (match states_policy b, states_policy batch with
       | Some sp, Some bp => Some (extend_policy sp bp)
       | _, _ => None
       end) b);;
  Py.modify (fun b =>
    set_parents_policy
      (match parents_policy b, parents_policy batch with
       | Some sp, Some bp => Some (extend_policy sp bp)
       | _, _ => None
       end) b);;
  self ← Py.get;
  (if masks_forward_available self && masks_forward_available batch then
     Py.modify (set_masks_invalid_actions_forward
                  (masks_invalid_actions_forward self
                   ++ masks_invalid_actions_forward batch))
   else mret tt);;
  (if masks_backward_available self && masks_backward_available batch then
     Py.modify (set_masks_invalid_actions_backward
                  (masks_invalid_actions_backward self
                   ++ masks_invalid_actions_backward batch))
   else mret tt);;
  (if parents_available self && parents_available batch then
     l ← extend_lists (parents self) (parents batch);
     Py.modify (set_parents (Some l))
   else Py.modify (set_parents None));;
  (if parents_all_available self && parents_all_available batch then
     l ← extend_lists (parents_all self) (parents_all batch);
     Py.modify (set_parents_all (Some l))
   else Py.modify (set_parents_all None));;
  (if rewards_available self && rewards_available batch then
     r ← extend_tensors extend_rewards (rewards self) (rewards batch);
     Py.modify (set_rewards (Some r))
   else Py.modify (set_rewards None)).

(** One round of the loop of [merge]. *)
Definition merge_one (batch : t) : Py.M t unit :=
  traj_idx_shift ← traj_idx_shift_of;
  shifted ← Py.call_on batch (_shift_traj_indices traj_idx_shift);
  let batch := shifted.1 in
  merge_main_data batch;;
  merge_optional_data batch.

(** [merge(batches)]; it returns [self]. *)
Definition merge (batches : list t) : Py.M t unit :=
  Py.for_ merge_one batches;;
  self ← Py.get;
  if is_valid self then mret tt else Py.raise Py.AssertionError.

(** *** Reads of the caches *)

Definition _compute_rewards : Py.M t unit :=
  Py.modify (fun b => set_rewards (Some (compute_rewards b)) b);;
  Py.modify (set_rewards_available true).

(** [get_rewards(force_recompute)] *)
Definition get_rewards (force_recompute : bool) : Py.M t (option RewardT) :=
  self ← Py.get;
  (if negb (rewards_available self) || force_recompute then _compute_rewards
   else mret tt);;
  self ← Py.get;
  mret (rewards self).

Definition _compute_masks_forward : Py.M t unit :=
  Py.modify (set_masks_invalid_actions_forward []);;
  self ← Py.get;
  Py.for_ (fun it : nat * Z =>
      let '(idx, traj_idx) := it in
      self ← Py.get;
      state ← Py.getitem (states self) idx;
      done_ ← Py.getitem (done self) idx;
      _ ← Py.getitem (actions self) idx;
      e ← getkey traj_idx (envs self);
      Py.modify (fun b =>
        set_masks_invalid_actions_forward
          (masks_invalid_actions_forward b
           ++ [Some (mask_forward_of e state done_)]) b))
    (imap (fun idx traj_idx => (idx, traj_idx)) (traj_indices self));;
  Py.modify (set_masks_forward_available true).

(** [get_masks_forward(of_parents=False, force_recompute)] *)
Definition get_masks_forward (force_recompute : bool)
  : Py.M t (list (option MaskT)) :=
  self ← Py.get;
  (if negb (masks_forward_available self) || force_recompute
   then _compute_masks_forward else mret tt);;
  self ← Py.get;
  mret (masks_invalid_actions_forward self).

(** *** [states2proxy] *)

(** [get_states_of_trajectory(traj_idx, states, traj_indices)] on lists *)
Definition get_states_of_trajectory (traj_idx : Z)
    (states_ : option (list State)) (traj_indices_ : option (list Z))
  : Py.M t (list State) :=
  self ← Py.get;
  sel ← (match states_, traj_indices_ with
         | None, None => mret (states self, traj_indices self)
         | Some s, Some ti =>
             if (length s =? length ti)%nat then mret (s, ti)
             else Py.raise Py.AssertionError
         | _, _ => Py.raise Py.AssertionError
         end);
  mret (map fst (filter (fun p => p.2 = traj_idx) (zip sel.1 sel.2))).

(** [index[env_ids == env_id]]: the positions holding [env_id] *)
Definition positions_of (env_ids : list Z) (env_id_ : Z) : list nat :=
  map fst (filter (fun p => p.2 = env_id_)
             (imap (fun i x => (i, x)) env_ids)).

(** One round of the loop of [states2proxy] in the conditional case; the
    locals it carries are [states_proxy] and [perm_index]. The last
    statement of the round reads the names [env_ids] and [env_id], which
    the method never binds: its locals of these types are [traj_indices]
    and [traj_idx]. *)
Definition states2proxy_round (states_ : list State)
    (traj_indices_ : option (list Z)) (traj_idx : Z)
    (acc : list ProxyT * list (list nat))
  : Py.M t (list ProxyT * list (list nat)) :=
  ti ← (match traj_indices_ with
        | Some ti => mret ti
        | None => Py.raise Py.TypeError
        end);
  if negb (bool_decide (traj_idx ∈ ti)) then mret acc
  else
    self ← Py.get;
    e ← getkey traj_idx (envs self);
    sts ← get_states_of_trajectory traj_idx (Some states_) traj_indices_;
    let states_proxy := acc.1 ++ [statebatch2proxy e sts] in
    match Py.lookup_name "env_ids" [("traj_indices"%string, ti)] with
    | None => Py.raise (Py.NameError "env_ids")
    | Some env_ids =>
      match Py.lookup_name "env_id" [("traj_idx"%string, traj_idx)] with
      | None => Py.raise (Py.NameError "env_id")
      | Some env_id_ =>
          mret (states_proxy, acc.2 ++ [positions_of env_ids env_id_])
      end
    end.

(** [index[perm_index] = index.clone()] on [index = arange(n)] *)
Definition reverse_permutation (n : nat) (perm_index : list nat) : list nat :=
  foldl (fun index jp => <[jp.2 := jp.1]> index) (seq 0 n)
        (imap (fun j p => (j, p)) perm_index).

(** [states2proxy(states, traj_indices)] *)
Definition states2proxy (states_ : option (list State))
    (traj_indices_ : option (list Z)) : Py.M t ProxyT :=
  self ← Py.get;
  (match traj_indices_, conditional self with
   | Some ti, Some true =>
       match states_ with
       | Some s => if (length s =? length ti)%nat then mret tt
                   else Py.raise Py.AssertionError
       | None => Py.raise Py.AssertionError
       end
   | _, _ => mret tt
   end);;
  let args :=
    match states_ with
    | None => (states self, Some (traj_indices self))
    | Some s => (s, traj_indices_)
    end in
  match conditional self with
  | Some true =>
      acc ← Py.for_acc (states2proxy_round args.1 args.2)
              (keys (trajectories self)) ([], []);
      match acc.2 with
      | [] => Py.raise Py.RuntimeError (* torch.cat of an empty list *)
      | _ =>
          let index := reverse_permutation (length args.1) (concat acc.2) in
          mret (concat_items acc.1 index)
      end
  | _ =>
      match env self with
      | Some e => mret (statebatch2proxy e args.1)
      | None => Py.raise (Py.AttributeError "statebatch2proxy")
      end
  end.

End Batch.

End Batch.

(** ** Sample batches *)

Module BatchEx.

Import Batch.

(** States and actions are integers; masks carry no information; tensors
    in proxy format and of rewards are lists. *)
Abbreviation batch := (@Batch.t Z Z unit unit (list Z)).
Abbreviation benv := (@Batch.Env Z).

Definition mk_env (i s : Z) (d : bool) : benv :=
  {| env_id := i; env_state := s; env_done := d; env_n_actions := 1;
     env_continuous := false |}.

Definition no_mask (e : benv) : option unit := None.
Definition ext_unit (a c : unit) : unit := tt.
Definition ext_list (a c : list Z) : list Z := a ++ c.
Definition zero_rewards (b : batch) : list Z := map (fun _ => 0) (states b).
Definition proxy_rows (e : benv) (l : list Z) : list Z := l.
Definition concat_rows (l : list (list Z)) (index : list nat) : list Z :=
  concat l.

(** [add_to_batch(envs, actions, valids, backward=..)] with the masks left
    to the environments. *)
Definition add (envs_ : list benv) (actions_ : list Z) (valids : list bool)
    (backward : bool) : Py.M batch unit :=
  add_to_batch no_mask no_mask envs_ actions_ valids None backward true.

(** The object a call leaves on [b]. *)
Definition after {A} (m : Py.M batch A) (b : batch) : batch :=
  Py.final_state (m b).

(** Two batches of one forward row each, both for environment 0. *)
Definition one_row_A : batch := after (add [mk_env 0 7 true] [1] [true] false) empty.
Definition one_row_B : batch := after (add [mk_env 0 8 true] [1] [true] false) empty.

(** The first batch once its rewards and its forward masks have been
    read, then merged with the second. *)
Definition unit_mask (e : benv) (s : Z) (d : bool) : unit := tt.
Definition with_caches : batch :=
  after (get_masks_forward unit_mask false)
    (after (get_rewards zero_rewards false) one_row_A).
Definition merged_caches : batch :=
  after (Py.for_ (merge_one ext_unit ext_list) [one_row_B]) with_caches.

(** Backward sampling of trajectory 7: the environment holds state 71 at
    its first row and state 72 at its second. *)
Definition back_env1 : benv := mk_env 7 71 false.
Definition back_env2 : benv := mk_env 7 72 false.
Definition back_one : batch := after (add [back_env1] [9] [true] true) empty.

(** A batch that holds one forward row, of trajectory 5. *)
Definition forward_one : batch :=
  after (add [mk_env 5 50 false] [1] [true] false) empty.

(** The same first backward row, in a batch that already holds a forward
    row of trajectory 5. *)
Definition mixed_two : batch :=
  after (add [back_env1] [9] [true] true)
    (after (add [mk_env 5 50 false] [1] [true] false) empty).
Definition mixed_three : batch :=
  after (add [back_env2] [3] [true] true) mixed_two.

(** A batch as [set_env] marks it for conditional environments. *)
Definition as_conditional (b : batch) : batch :=
  {| env := env b; conditional := Some true; continuous := continuous b;
     size := size b; envs := envs b; trajectories := trajectories b;
     traj_indices := traj_indices b; state_indices := state_indices b;
     states := states b; actions := actions b; done := done b;
     masks_invalid_actions_forward := masks_invalid_actions_forward b;
     masks_invalid_actions_backward := masks_invalid_actions_backward b;
     parents := parents b; parents_all := parents_all b;
     states_policy := states_policy b; parents_policy := parents_policy b;
     rewards := rewards b; parents_available := parents_available b;
     parents_all_available := parents_all_available b;
     masks_forward_available := masks_forward_available b;
     masks_backward_available := masks_backward_available b;
     rewards_available := rewards_available b |}.
Definition conditional_one_row : batch := as_conditional one_row_A.

End BatchEx.


(** ** The [Buffer] object with float rewards: [__init__], [add] and
    [_add_greater] *)

Module FloatBuffer.

(** A reward as numpy holds it: a number, or nan. As in [Buffer], an
    integer stands for a number, since the rewards are only compared; the
    infinities compare like numbers and are not told apart from them. *)
Inductive reward : Type :=
| Num (z : Z)
| NaN.

Definition is_num (r : reward) : bool :=
  match r with Num _ => true | NaN => false end.

(** [a > b] and [a <= b]: false when either is nan. *)
Definition gt (a b : reward) : bool :=
  match a, b with
  | Num x, Num y => x >? y
  | _, _ => false
  end.

Definition le (a b : reward) : Prop :=
  match a, b with
  | Num x, Num y => x <= y
  | _, _ => False
  end.

(** The larger and the smaller of two rewards, as [np.max] and [np.min]
    combine them: nan if either is. *)
Definition maximum (a b : reward) : reward :=
  match a, b with
  | Num x, Num y => Num (Z.max x y)
  | _, _ => NaN
  end.

Definition minimum (a b : reward) : reward :=
  match a, b with
  | Num x, Num y => Num (Z.min x y)
  | _, _ => NaN
  end.

(** [np.max] / [np.min] of a one-dimensional array: nan as soon as one
    entry is; [None] is the [ValueError] numpy raises on an empty array. *)
Definition np_max (l : list reward) : option reward :=
  match l with
  | [] => None
  | x :: t => Some (foldr maximum x t)
  end.

Definition np_min (l : list reward) : option reward :=
  match l with
  | [] => None
  | x :: t => Some (foldr minimum x t)
  end.

Definition same (a b : reward) : bool :=
  match a, b with
  | Num x, Num y => x =? y
  | NaN, NaN => true
  | _, _ => false
  end.

(** Position of the first occurrence of [m]. *)
Fixpoint index_of (m : reward) (l : list reward) : nat :=
  match l with
  | [] => 0
  | x :: t => if same x m then 0%nat else S (index_of m t)
  end.

(** [np.argmax]: the first position holding the maximum, which is the
    first nan if there is one. *)
Definition np_argmax (l : list reward) : nat :=
  match np_max l with Some m => index_of m l | None => 0%nat end.

(** [self.replay.reward.argmin()], called only where the minimum of the
    column has compared below a number, hence on a column without nan:
    the first position holding the minimum. *)
Definition argmin (l : list reward) : nat :=
  match np_min l with Some m => index_of m l | None => 0%nat end.

(** The rewards of the calls whose candidates held no nan. *)
Definition counted (calls : list (list reward)) : list reward :=
  concat (filter (fun rewards => forallb is_num rewards = true) calls).

Section FloatBuffer.

Context {State Path Energy : Type}.

(** [self.env.state2readable] and [self.env.path2readable]. *)
Variable state2readable : State -> string.
Variable path2readable : Path -> string.

(** A row of the data frames [main] and [replay]. *)
Record row : Type := {
  r_state : option string;
  r_path : option string;
  r_reward : reward;
  r_energy : option Energy;
  r_iter : option Z
}.

(** [self.replay] as built by [Buffer.__init__]: empty rows, their reward
    set to -1. *)
Definition init_replay (replay_capacity : nat) : list row :=
  replicate replay_capacity
    {| r_state := None; r_path := None; r_reward := Num (-1);
       r_energy := None; r_iter := None |}.

(** [self.replay["reward"].values] *)
Definition reward_column (replay : list row) : list reward :=
  map r_reward replay.

(** The [while] loop of [_add_greater], run for at most [fuel] tests of its
    condition; [rewards_new] is the working copy, [replay] is
    [self.replay], [n] counts the iterations done so far. [None]: the
    fuel ran out. *)
Fixpoint add_greater_loop (fuel : nat) (states : list State)
    (paths : list Path) (rewards : list reward) (energies : list Energy)
    (it : Z) (rewards_new : list reward) (n : nat) (replay : list row)
  : option (nat * Py.outcome (list row) unit) :=
  match fuel with
  | O => None
  | S fuel' =>
    match np_max rewards_new with
    | None => Some (n, Py.Raise replay Py.ValueError)
    | Some mx =>
      match np_min (reward_column replay) with
      | None => Some (n, Py.Raise replay Py.ValueError)
      | Some mn =>
        if gt mx mn then
          let idx_new_max := np_argmax rewards_new in
          match states !! idx_new_max, paths !! idx_new_max,
                rewards !! idx_new_max, energies !! idx_new_max with
          | Some s, Some p, Some r, Some en =>
            let new_row :=
              {| r_state := Some (state2readable s);
                 r_path := Some (path2readable p);
                 r_reward := r;
                 r_energy := Some en;
                 r_iter := Some it |} in
            let replay' :=
              <[argmin (reward_column replay) := new_row]> replay in
            add_greater_loop fuel' states paths rewards energies it
              (<[idx_new_max := Num (-1)]> rewards_new) (S n) replay'
          | _, _, _, _ => Some (n, Py.Raise replay Py.IndexError)
          end
        else Some (n, Py.Ok replay tt)
      end
    end
  end.

(** [_add_greater(states, paths, rewards, energies, it)] *)
Definition _add_greater (fuel : nat) (states : list State) (paths : list Path)
    (rewards : list reward) (energies : list Energy) (it : Z)
    (replay : list row)
  : option (nat * Py.outcome (list row) unit) :=
  let rewards_new := rewards in
  add_greater_loop fuel states paths rewards energies it rewards_new 0 replay.

(** The attributes [add] reads and writes: the data frames [main] and
    [replay], as lists of rows, and [replay_capacity]. *)
Record t : Type := {
  replay_capacity : nat;
  main : list row;
  replay : list row
}.

Definition set_main (v : list row) (b : t) : t :=
  {| replay_capacity := replay_capacity b; main := v; replay := replay b |}.

Definition set_replay (v : list row) (b : t) : t :=
  {| replay_capacity := replay_capacity b; main := main b; replay := v |}.

(** [Buffer(env, replay_capacity=...)], with [train] and [test] left at
    their default [None]: [make_data_set(None)] is [None], no file is
    written and no statistics are computed. *)
Definition __init__ (capacity : nat) : t :=
  {| replay_capacity := capacity;
     main := [];
     replay := init_replay capacity |}.

(** The data frame [add] builds from its arguments for the main buffer: one
    row per position; [it] is a scalar, repeated on every row. *)
Fixpoint main_rows (states : list State) (paths : list Path)
    (rewards : list reward) (energies : list Energy) (it : Z) : list row :=
  match states, paths, rewards, energies with
  | s :: states', p :: paths', r :: rewards', en :: energies' =>
    {| r_state := Some (state2readable s);
       r_path := Some (path2readable p);
       r_reward := r;
       r_energy := Some en;
       r_iter := Some it |}
    :: main_rows states' paths' rewards' energies' it
  | _, _, _, _ => []
  end.

(** [add(states, paths, rewards, energies, it, buffer, criterion)].
    [pd.DataFrame] refuses columns of different lengths with a
    [ValueError]; [_add_greater] writes into [self.replay] in place, so
    what it did before an exception stays. [None]: the fuel of the loop of
    [_add_greater] ran out. *)
Definition add (fuel : nat) (states : list State) (paths : list Path)
    (rewards : list reward) (energies : list Energy) (it : Z)
    (buffer criterion : string) (b : t) : option (Py.outcome t unit) :=
  if String.eqb buffer "main" then
    if (length paths =? length states)%nat
       && (length rewards =? length states)%nat
       && (length energies =? length states)%nat
    then
      Some (Py.Ok
              (set_main (main b ++ main_rows states paths rewards energies it) b)
              tt)
    else Some (Py.Raise b Py.ValueError)
  else if String.eqb buffer "replay" && (0 <? replay_capacity b)%nat then
    if String.eqb criterion "greater" then
      match _add_greater fuel states paths rewards energies it (replay b) with
      | None => None
      | Some (_, Py.Ok replay' _) => Some (Py.Ok (set_replay replay' b) tt)
      | Some (_, Py.Raise replay' e) => Some (Py.Raise (set_replay replay' b) e)
      end
    else Some (Py.Ok b tt)
  else Some (Py.Ok b tt).

(** Every reward of the reservoir is a number, at least [mn]. *)
Definition floor_ok (mn : Z) (replay : list row) : Prop :=
  Forall (fun r => le (Num mn) (r_reward r)) replay.

(** The buffers reached from [__init__] by calls of [add] that return,
    with the candidate rewards of the calls made so far with
    [buffer="replay"] and [criterion="greater"], one list per call. *)
Inductive offered : list (list reward) -> t -> Prop :=
| offered_init (capacity : nat) : offered [] (__init__ capacity)
| offered_main (calls : list (list reward)) (b b' : t) fuel states paths
    rewards energies it criterion :
    offered calls b ->
    add fuel states paths rewards energies it "main" criterion b
      = Some (Py.Ok b' tt) ->
    offered calls b'
| offered_replay (calls : list (list reward)) (b b' : t) fuel states paths
    rewards energies it :
    offered calls b ->
    add fuel states paths rewards energies it "replay" "greater" b
      = Some (Py.Ok b' tt) ->
    offered (calls ++ [rewards]) b'.

(** The integer rows of [Buffer] among the float rows, and back. *)
Definition lift_row (r : Buffer.row Energy) : row :=
  {| r_state := Buffer.r_state r; r_path := Buffer.r_path r;
     r_reward := Num (Buffer.r_reward r);
     r_energy := Buffer.r_energy r; r_iter := Buffer.r_iter r |}.

Definition number_of (r : reward) : Z :=
  match r with Num z => z | NaN => 0 end.

Definition lower_row (r : row) : Buffer.row Energy :=
  {| Buffer.r_state := r_state r; Buffer.r_path := r_path r;
     Buffer.r_reward := number_of (r_reward r);
     Buffer.r_energy := r_energy r; Buffer.r_iter := r_iter r |}.

Definition lift_result (x : nat * Py.outcome (list (Buffer.row Energy)) unit)
  : nat * Py.outcome (list row) unit :=
  (x.1, match x.2 with
        | Py.Ok replay u => Py.Ok (map lift_row replay) u
        | Py.Raise replay e => Py.Raise (map lift_row replay) e
        end).

End FloatBuffer.

Arguments row : clear implicits.
Arguments t : clear implicits.

(** Three calls on a buffer of capacity 3: five candidates, then three of
    which one is nan, then three more. *)
Definition ex_readable (x : Z) : string := "x".
Definition ex_rewards : list reward := [Num 5; Num 3; Num 9; Num 1; Num 7].
Definition ex_rewards_nan : list reward := [Num 8; NaN; Num 6].
Definition ex_replay : list (row Z) := init_replay 3.

Definition ex_buffer1 : option (Py.outcome (t Z) unit) :=
  add ex_readable ex_readable 6 [50; 30; 90; 10; 70] [0; 0; 0; 0; 0]
    ex_rewards [-5; -3; -9; -1; -7] 1 "replay" "greater" (__init__ 3).

Definition ex_buffer2 : option (Py.outcome (t Z) unit) :=
  match ex_buffer1 with
  | Some o =>
    add ex_readable ex_readable 6 [80; 20; 60] [0; 0; 0]
      ex_rewards_nan [-8; -2; -6] 2 "replay" "greater" (Py.final_state o)
  | None => None
  end.

Definition ex_buffer3 : option (Py.outcome (t Z) unit) :=
  match ex_buffer2 with
  | Some o =>
    add ex_readable ex_readable 6 [80; 20; 60] [0; 0; 0]
      [Num 8; Num 2; Num 6] [-8; -2; -6] 3 "replay" "greater"
      (Py.final_state o)
  | None => None
  end.

End FloatBuffer.

(** ** Reads of the batch: indices, actions and states *)

Module BatchReads.

Import Batch.

Section BatchReads.

Context {State Action MaskT PolicyT ProxyT RewardT : Type}.

Abbreviation batch := (@Batch.t State Action MaskT PolicyT RewardT).

(** [env.statebatch2policy(states)], [env.statebatch2proxy(states)] and
    [concat_items]; [torch.zeros((n, env.policy_input_dim))]. *)
Variable statebatch2policy : @Env State -> list State -> PolicyT.
Variable statebatch2proxy : @Env State -> list State -> ProxyT.
Variable concat_items : list ProxyT -> list nat -> ProxyT.
Variable zeros : nat -> @Env State -> PolicyT.

(** [l.index(x)] *)
Definition list_index (x : nat) (l : list nat) : Py.M batch nat :=
  match list_find (fun y => y = x) l with
  | Some (p, _) => mret p
  | None => Py.raise Py.ValueError
  end.

(** [idx2state_idx(idx)], for a non-negative [idx] *)
Definition idx2state_idx (idx : nat) : Py.M batch nat :=
  self ← Py.get;
  traj_idx ← Py.getitem (traj_indices self) idx;
  batch_indices ← getkey traj_idx (trajectories self);
  list_index idx batch_indices.

(** [get_n_trajectories()] *)
Definition get_n_trajectories : Py.M batch nat :=
  self ← Py.get;
  mret (length (trajectories self)).

(** [get_actions_trajectories()] *)
Definition get_actions_trajectories : Py.M batch (list (list Action)) :=
  self ← Py.get;
  Py.for_each
    (fun batch_indices => Py.for_each (Py.getitem (actions self)) batch_indices)
    (values (trajectories self)).

(** [states2policy()], called without arguments: [states] and
    [traj_indices] are those of the batch. In the conditional case the
    loop calls [statebatchpolicy] on the environment of the first
    trajectory that has rows; no environment class has an attribute of
    that name. *)
Definition states2policy : Py.M batch PolicyT :=
  self ← Py.get;
  match conditional self with
  | Some true =>
      e ← (match env self with
           | Some e => mret e
           | None => Py.raise (Py.AttributeError "policy_input_dim")
           end);
      let states_policy := zeros (length (states self)) e in
      Py.for_ (fun traj_idx =>
          if negb (bool_decide (traj_idx ∈ traj_indices self)) then mret tt
          else
            _ ← getkey traj_idx (envs self);
            Py.raise (Py.AttributeError "statebatchpolicy"))
        (keys (trajectories self));;
      mret states_policy
  | _ =>
      match env self with
      | Some e => mret (statebatch2policy e (states self))
      | None => Py.raise (Py.AttributeError "statebatch2policy")
      end
  end.

(** What [get_states] returns: the list of states, or a tensor in policy
    or in proxy format. *)
Inductive states_view : Type :=
| in_gflownet (l : list State)
| in_policy (p : PolicyT)
| in_proxy (p : ProxyT).

(** [get_states(policy, proxy, force_recompute)] *)
Definition get_states (policy proxy force_recompute : bool)
  : Py.M batch states_view :=
  if policy && proxy then Py.raise Py.ValueError
  else if policy then
    self ← Py.get;
    match states_policy self, force_recompute with
    | Some sp, false => mret (in_policy sp)
    | _, _ =>
        sp ← states2policy;
        Py.modify (set_states_policy (Some sp));;
        mret (in_policy sp)
    end
  else if proxy then
    p ← states2proxy statebatch2proxy concat_items None None;
    mret (in_proxy p)
  else
    self ← Py.get;
    mret (in_gflownet (states self)).

(** What [add_to_batch] keeps true of the rows and their owners: row [idx]
    belongs to trajectory [k] exactly when the row-index list of [k] holds
    [idx], and every environment is filed under its own id. *)
Record owned (b : batch) : Prop := {
  owned_row : forall (idx : nat) (k : Z),
    traj_indices b !! idx = Some k ->
    exists l, dict_get k (trajectories b) = Some l /\ idx ∈ l;
  owned_by : forall (k : Z) (l : list nat) (idx : nat),
    dict_get k (trajectories b) = Some l -> idx ∈ l ->
    traj_indices b !! idx = Some k;
  owned_env : forall (k : Z) (e : @Env State),
    dict_get k (envs b) = Some e -> env_id e = k
}.

End BatchReads.

End BatchReads.

(** ** More sample batches *)

Module BatchExMore.

Import Batch BatchEx.

(** Two trajectories sampled forward, two rows each. *)
Definition two_by_two : batch :=
  after (add [mk_env 0 11 true; mk_env 1 21 true] [5; 6] [true; true] false)
    (after (add [mk_env 0 10 false; mk_env 1 20 false] [3; 4] [true; true]
              false) empty).

(** [Batch().merge([one_row_B])] *)
Definition merged_into_empty : batch :=
  after (merge ext_unit ext_list [one_row_B]) empty.

(** A batch with a generic environment, as the constructor leaves it when
    it is given one. *)
Definition with_env (e : benv) (c : bool) (b : batch) : batch :=
  {| env := Some e; conditional := Some c; continuous := continuous b;
     size := size b; envs := envs b; trajectories := trajectories b;
     traj_indices := traj_indices b; state_indices := state_indices b;
     states := states b; actions := actions b; done := done b;
     masks_invalid_actions_forward := masks_invalid_actions_forward b;
     masks_invalid_actions_backward := masks_invalid_actions_backward b;
     parents := parents b; parents_all := parents_all b;
     states_policy := states_policy b; parents_policy := parents_policy b;
     rewards := rewards b; parents_available := parents_available b;
     parents_all_available := parents_all_available b;
     masks_forward_available := masks_forward_available b;
     masks_backward_available := masks_backward_available b;
     rewards_available := rewards_available b |}.

Definition policy_rows (e : benv) (l : list Z) : unit := tt.
Definition zeros (n : nat) (e : benv) : unit := tt.

(** The first sample batch with its rewards and its policy-format states
    read once. *)
Definition read_once : batch :=
  after (BatchReads.get_states policy_rows proxy_rows concat_rows zeros true
           false false)
    (after (get_rewards zero_rewards false)
       (with_env (mk_env 0 0 false) false one_row_A)).

End BatchExMore.
(* ===================================================================== *)
(** * Part II: properties *)
(* ===================================================================== *)

(** Unfolding of the method monad. *)
Ltac py_unfold :=
  unfold mbind, mret, M_bind, M_ret, Py.bind, Py.ret, Py.get, Py.put,
    Py.modify, Py.raise, Py.getitem in *.

(** ** Method outcomes *)

Lemma final_state_bind {S A B} (m : Py.M S A) (k : A -> Py.M S B)
    (h h' : S) (a : A) :
  m h = Py.Ok h' a -> Py.final_state ((m ≫= k) h) = Py.final_state (k a h').
Proof. intros H. py_unfold. rewrite H. reflexivity. Qed.

Lemma final_state_bind_raise {S A B} (m : Py.M S A) (k : A -> Py.M S B)
    (h h' : S) (e : Py.exn) :
  m h = Py.Raise h' e -> (m ≫= k) h = Py.Raise h' e.
Proof. intros H. py_unfold. rewrite H. reflexivity. Qed.

Lemma bind_Ok_inv {S A B} (m : Py.M S A) (k : A -> Py.M S B) (s s' : S)
    (r : B) :
  (m ≫= k) s = Py.Ok s' r ->
  exists s1 a, m s = Py.Ok s1 a /\ k a s1 = Py.Ok s' r.
Proof.
  py_unfold. destruct (m s) as [s1 a | s1 ex]; [eauto | discriminate].
Qed.

Lemma call_on_Ok_inv {S O A} (o : O) (m : Py.M O A) (s s' : S) (r : O * A) :
  Py.call_on o m s = Py.Ok s' r -> s' = s /\ m o = Py.Ok r.1 r.2.
Proof.
  unfold Py.call_on. destruct (m o) as [o' a | o' ex]; [| discriminate].
  intros [= <- <-]. auto.
Qed.

(** Membership in a concatenation. *)
Lemma elem_of_concat {A} (x : A) (ls : list (list A)) :
  x ∈ concat ls <-> exists l, l ∈ ls /\ x ∈ l.
Proof.
  rewrite list_elem_of_In, in_concat.
  split; intros (l & Hl & Hx); exists l; split;
    try (apply list_elem_of_In; assumption);
    apply list_elem_of_In; assumption.
Qed.

(** A property kept by every round of a loop is kept by the loop. *)
Lemma for_invariant {S A} (P : S -> Prop) (body : A -> Py.M S unit)
    (l : list A) :
  (forall x s s', P s -> body x s = Py.Ok s' tt -> P s') ->
  forall s s', P s -> Py.for_ body l s = Py.Ok s' tt -> P s'.
Proof.
  intros Hbody. induction l as [| x l IH]; intros s s' Hs Hrun; simpl in Hrun.
  - injection Hrun as <-. exact Hs.
  - unfold Py.bind in Hrun. destruct (body x s) as [s1 [] | s1 ex] eqn:E;
      [| discriminate].
    eapply IH; [eapply Hbody; eassumption | exact Hrun].
Qed.

(** Case analysis on every test a method body makes on its way to a
    returned result. *)
Ltac case_steps :=
  repeat (simpl in *;
    match goal with
    | H : Py.Raise _ _ = Py.Ok _ _ |- _ => discriminate H
    | H : Py.Ok _ _ = Py.Ok _ _ |- _ => injection H as <-
    | H : context [if ?c then _ else _] |- _ => destruct c eqn:?
    | H : context [match ?c with Some _ => _ | None => _ end] |- _ =>
        destruct c eqn:?
    end).

(** ** Reward shaping *)

Section RewardFacts.

Import Reward.
Open Scope R_scope.

(** *** The range of floats *)

Lemma float_bounds :
  0 < underflow_at /\ underflow_at < min_normal /\ min_normal <= / 4096
  /\ 4096 <= max_float /\ max_float < overflow_at.
Proof.
  assert (Hpow : forall n, 0 < 2 ^ n) by (intros n; apply pow_lt; lra).
  assert (H10 : 2 ^ 12 = 4096) by (simpl; lra).
  unfold underflow_at, min_normal, max_float, overflow_at.
  repeat split.
  - apply Rinv_0_lt_compat, Hpow.
  - apply Rinv_lt_contravar; [apply Rmult_lt_0_compat; apply Hpow |].
    apply Rlt_pow; [lra | lia].
  - rewrite <- H10. apply Rinv_le_contravar; [apply Hpow |].
    apply Rle_pow; [lra | lia].
  - assert (H1 : 1 <= 2 - / 2 ^ 52).
    { assert (H : / 2 ^ 52 <= 1).
      { rewrite <- Rinv_1. apply Rinv_le_contravar; [lra |].
        apply pow_R1_Rle. lra. }
      lra. }
    assert (H2 : 4096 <= 2 ^ 1023).
    { rewrite <- H10. apply Rle_pow; [lra | lia]. }
    replace 4096 with (1 * 4096) by lra.
    apply Rmult_le_compat; lra.
  - apply Rmult_lt_compat_r; [apply Hpow |].
    assert (H : / 2 ^ 53 < / 2 ^ 52).
    { apply Rinv_lt_contravar; [apply Rmult_lt_0_compat; apply Hpow |].
      apply Rlt_pow; [lra | lia]. }
    lra.
Qed.

Lemma fl_in_range (r : R) : in_range r -> fl r = Value r.
Proof.
  pose proof float_bounds as (H0 & H1 & H2 & H3 & H4).
  intros [-> | [Hlo Hhi]]; unfold fl.
  - destruct (Rle_dec overflow_at 0); [lra |].
    destruct (Rle_dec 0 (- overflow_at)); [lra |].
    rewrite Rabs_R0. destruct (Rle_dec 0 underflow_at); [reflexivity | lra].
  - pose proof (Rle_abs r) as Ha. pose proof (Rle_abs (- r)) as Hb.
    rewrite Rabs_Ropp in Hb.
    destruct (Rle_dec overflow_at r); [lra |].
    destruct (Rle_dec r (- overflow_at)); [lra |].
    destruct (Rle_dec (Rabs r) underflow_at); [lra | reflexivity].
Qed.

Lemma fl_cases (r : R) :
  (fl r = Value r /\ underflow_at < Rabs r /\ - overflow_at < r < overflow_at)
  \/ (fl r = Value 0 /\ Rabs r <= underflow_at)
  \/ (fl r = PosInf /\ overflow_at <= r)
  \/ (fl r = NegInf /\ r <= - overflow_at).
Proof.
  unfold fl.
  destruct (Rle_dec overflow_at r); [right; right; left; auto |].
  destruct (Rle_dec r (- overflow_at)); [right; right; right; auto |].
  destruct (Rle_dec (Rabs r) underflow_at); [right; left; auto |].
  left. split; [reflexivity | lra].
Qed.


(** A positive result is rounded to a float that is not negative. *)
Lemma fl_pos (r : R) :
  0 < r -> fl r = Value r \/ fl r = Value 0 \/ fl r = PosInf.
Proof.
  intros Hr. pose proof float_bounds as (H0 & H1 & H2 & H3 & H4).
  destruct (fl_cases r) as [[E _] | [[E _] | [[E _] | [E H]]]]; auto.
  lra.
Qed.

Lemma in_range_0 : in_range 0.
Proof. left. reflexivity. Qed.

Lemma in_range_small (r : R) :
  r = 0 \/ / 4096 <= r <= 4096 \/ / 4096 <= - r <= 4096 -> in_range r.
Proof.
  pose proof float_bounds as (H0 & H1 & H2 & H3 & H4).
  intros [-> | [H | H]]; [left; reflexivity | |]; right.
  - rewrite Rabs_pos_eq by lra. lra.
  - rewrite Rabs_left by lra. lra.
Qed.


(** *** The operations on finite values *)

Lemma np_log_pos x : 0 < x -> np_log (Value x) = Value (ln x).
Proof. intros Hx. simpl. destruct (Rlt_dec 0 x); [reflexivity | lra]. Qed.

Lemma np_power_pos x y :
  0 < x -> np_power (Value x) y = fl (Rpower x y).
Proof. intros Hx. simpl. destruct (Rlt_dec 0 x); [reflexivity | lra]. Qed.

Lemma np_div_nonzero x c : c <> 0 -> np_div (Value x) c = fl (x / c).
Proof. intros Hc. simpl. destruct (Req_dec_T c 0); [contradiction | reflexivity]. Qed.

Lemma Rmax_above x lo : lo < x -> Rmax x lo = x.
Proof. intros H. apply Rmax_left. lra. Qed.

Lemma shaped_no_denorm (e : env) (v : R) :
  denorm_proxy e = false ->
  shaped e v =
    if String.eqb (reward_func e) "power" then
      np_power (np_div (np_scale (-1) (Value v)) (reward_norm e))
        (reward_beta e)
    else if String.eqb (reward_func e) "boltzmann" then
      np_exp (np_scale (-1 * reward_beta e) (Value v))
    else Raises Py.TypeError.
Proof. intros Hd. unfold shaped, shaped_of, denorm. rewrite Hd. reflexivity. Qed.

Lemma proxy2reward_unclipped (e : env) (v s : R) :
  shaped e v = Value s -> min_reward e < s -> proxy2reward e v = Value s.
Proof.
  intros Hs Hlt. unfold proxy2reward, proxy2reward_of.
  unfold shaped in Hs. rewrite Hs. simpl.
  rewrite Rmax_above by exact Hlt. reflexivity.
Qed.


Lemma ln_bounds (x : R) : 2 <= x -> / 2 <= ln x <= x.
Proof.
  intros Hx. split.
  - pose proof (exp_ineq1_le (- ln x)) as H.
    rewrite exp_Ropp, exp_ln in H by lra.
    assert (Hinv : / x <= / 2) by (apply Rinv_le_contravar; lra).
    lra.
  - left. rewrite <- (ln_exp x) at 2. apply ln_increasing; [lra |].
    pose proof (exp_ineq1_le x). lra.
Qed.

Lemma in_range_ln (x : R) : 2 <= x <= 1024 -> in_range (ln x).
Proof.
  intros Hx. apply in_range_small. pose proof (ln_bounds x). lra.
Qed.

(** Under the default environment an energy [- x] is shaped to [x]. *)
Lemma shaped_default (x : R) :
  1 <= x <= 1024 -> shaped default_env (- x) = Value x.
Proof.
  intros Hx.
  assert (Hr : in_range x) by (apply in_range_small; lra).
  rewrite shaped_no_denorm by reflexivity. simpl String.eqb. cbv iota.
  simpl reward_norm. simpl reward_beta.
  unfold np_scale. replace (-1 * - x) with x by lra.
  rewrite (fl_in_range x Hr).
  rewrite np_div_nonzero by lra. replace (x / 1) with x by lra.
  rewrite (fl_in_range x Hr).
  rewrite np_power_pos by lra. rewrite Rpower_1 by lra.
  apply fl_in_range, Hr.
Qed.




Lemma ln_9 : ln 9 = 2 * ln 3.
Proof.
  replace 9 with (3 * 3) by lra. rewrite ln_mult by lra. lra.
Qed.


(** With de-normalisation the round trip returns the de-normalised value,
    not the argument: statistics (mean 0, deviation 2) send -1 to -2. *)
Lemma roundtrip_denorm_example :
  roundtrip {| min_reward := 1 / 100000000; reward_beta := 1;
               reward_norm := 1; reward_func := "power";
               energies_stats := Some [0; 0; 0; 2]; denorm_proxy := true |}
            (-1) = Value (-2).
Proof.
  set (e := {| min_reward := 1 / 100000000; reward_beta := 1;
               reward_norm := 1; reward_func := "power";
               energies_stats := Some [0; 0; 0; 2]; denorm_proxy := true |}).
  assert (Hden : denorm e (Value (-1)) = Value (-2)).
  { unfold denorm, stats_item, obind. simpl.
    replace (2 * -1) with (-2) by lra.
    rewrite (fl_in_range (-2)) by (apply in_range_small; lra).
    simpl. replace (-2 + 0) with (-2) by lra.
    apply fl_in_range, in_range_small. lra. }
  assert (Hs : shaped_of e (Value (-1)) = Value 2).
  { unfold shaped_of. rewrite Hden. simpl String.eqb. cbv iota.
    simpl reward_norm. simpl reward_beta.
    unfold np_scale. replace (-1 * -2) with 2 by lra.
    rewrite (fl_in_range 2) by (apply in_range_small; lra).
    rewrite np_div_nonzero by lra. replace (2 / 1) with 2 by lra.
    rewrite (fl_in_range 2) by (apply in_range_small; lra).
    rewrite np_power_pos by lra. rewrite Rpower_1 by lra.
    apply fl_in_range, in_range_small. lra. }
  unfold roundtrip, proxy2reward, proxy2reward_of. rewrite Hs.
  unfold np_clip_min. rewrite Rmax_above by (simpl; lra).
  unfold reward2proxy_of. simpl String.eqb. cbv iota.
  simpl reward_norm. simpl reward_beta.
  rewrite np_log_pos by lra. rewrite np_log_pos by lra.
  rewrite ln_1. unfold np_scale. replace (1 * 0) with 0 by lra.
  rewrite (fl_in_range 0) by (apply in_range_small; lra).
  unfold np_add. replace (ln 2 + 0) with (ln 2) by lra.
  rewrite (fl_in_range (ln 2)) by (apply in_range_ln; lra).
  rewrite np_div_nonzero by lra. replace (ln 2 / 1) with (ln 2) by lra.
  rewrite (fl_in_range (ln 2)) by (apply in_range_ln; lra).
  unfold np_exp. rewrite exp_ln by lra.
  rewrite (fl_in_range 2) by (apply in_range_small; lra).
  reflexivity.
Qed.

(** The exponential outgrows the powers of two. *)
Lemma pow2_le_exp (n : nat) : 2 ^ n <= exp (INR n).
Proof.
  induction n as [| n IH].
  - simpl. rewrite exp_0. lra.
  - rewrite S_INR, exp_plus. simpl pow.
    pose proof (exp_ineq1_le 1) as H1.
    pose proof (exp_pos (INR n)) as Hp.
    assert (Hpow : 0 < 2 ^ n) by (apply pow_lt; lra).
    rewrite Rmult_comm. apply Rmult_le_compat; lra.
Qed.

Lemma exp_2000_overflows : overflow_at <= exp 2000.
Proof.
  assert (Hlt : overflow_at <= 2 ^ 1024).
  { unfold overflow_at. change (2 ^ 1024) with (2 * 2 ^ 1023).
    assert (Hpow : 0 < 2 ^ 1023) by (apply pow_lt; lra).
    assert (Hinv : 0 < / 2 ^ 53) by (apply Rinv_0_lt_compat, pow_lt; lra).
    apply Rmult_le_compat_r; lra. }
  assert (Hle : 2 ^ 1024 <= 2 ^ 2000) by (apply Rle_pow; [lra | lia]).
  pose proof (pow2_le_exp 2000) as Hexp.
  replace (INR 2000) with 2000 in Hexp
    by (rewrite INR_IZR_INZ; reflexivity).
  lra.
Qed.

(** Beyond the range the round trip is lost: in the Boltzmann form with
    [reward_beta = 1] the energy -2000 gets the reward [inf], which comes
    back as [-inf]. *)
Example roundtrip_overflow_example :
  proxy2reward {| min_reward := 1 / 100000000; reward_beta := 1;
                  reward_norm := 1; reward_func := "boltzmann";
                  energies_stats := None; denorm_proxy := false |}
               (-2000) = PosInf
  /\ roundtrip {| min_reward := 1 / 100000000; reward_beta := 1;
                  reward_norm := 1; reward_func := "boltzmann";
                  energies_stats := None; denorm_proxy := false |}
               (-2000) = NegInf.
Proof.
  set (e := {| min_reward := 1 / 100000000; reward_beta := 1;
               reward_norm := 1; reward_func := "boltzmann";
               energies_stats := None; denorm_proxy := false |}).
  assert (Hs : shaped e (-2000) = PosInf).
  { rewrite shaped_no_denorm by reflexivity. simpl String.eqb. cbv iota.
    simpl reward_beta. unfold np_scale.
    replace (-1 * 1 * -2000) with 2000 by lra.
    rewrite (fl_in_range 2000) by (apply in_range_small; lra).
    unfold np_exp, fl.
    destruct (Rle_dec overflow_at (exp 2000)) as [_ | Hn]; [reflexivity |].
    contradiction Hn. apply exp_2000_overflows. }
  assert (Hp : proxy2reward e (-2000) = PosInf).
  { unfold proxy2reward, proxy2reward_of.
    change (shaped_of e (Value (-2000))) with (shaped e (-2000)).
    rewrite Hs. reflexivity. }
  split; [exact Hp |].
  unfold roundtrip. rewrite Hp. unfold reward2proxy_of.
  simpl String.eqb. cbv iota. simpl reward_beta. simpl.
  destruct (Rlt_dec 0 (-1)); [lra |].
  destruct (Rlt_dec (-1) 0); [| lra].
  simpl. destruct (Rlt_dec 1 0); [lra | reflexivity].
Qed.

(** The reward 0 has logarithm [-inf], whose exponential is 0: in the
    power form [reward2proxy] returns zero (negated) for it. *)
Example reward2proxy_of_zero : reward2proxy default_env 0 = Value (- 0).
Proof.
  unfold reward2proxy, reward2proxy_of. simpl String.eqb. cbv iota.
  simpl reward_norm. simpl reward_beta.
  rewrite (np_log_pos 1) by lra. rewrite ln_1.
  unfold np_scale. replace (1 * 0) with 0 by lra.
  rewrite (fl_in_range 0 in_range_0).
  unfold np_log.
  destruct (Rlt_dec 0 0); [lra |].
  destruct (Req_dec_T 0 0); [| lra].
  simpl. destruct (Rlt_dec 1 0); [lra | reflexivity].
Qed.

End RewardFacts.

Section RewardDone.

Import Reward.
Context {State ProxyIn : Type}.
Variable statebatch2proxy : list State -> ProxyIn.
Variable proxy : ProxyIn -> R.

(** C2: what [reward(state, done)] computes. The two branches are the
    reverse of what is specified: a state that is done gets 0, a state that is not
    done gets [proxy2reward(proxy(state2proxy(state)))]. *)
Theorem reward_branches_swapped (e : env) (self_state : State) (self_done : bool)
    (s : State) :
  reward statebatch2proxy proxy e self_state self_done (Some s) (Some true)
    = Value 0
  /\ reward statebatch2proxy proxy e self_state self_done (Some s) (Some false)
    = proxy2reward e (proxy (state2proxy statebatch2proxy self_state (Some s))).
Proof. split; reflexivity. Qed.

End RewardDone.

(** A terminal state whose score is -2 has shaped reward 2 under the default
    environment, yet [reward] gives it 0. *)
Example reward_of_done_state :
  Reward.reward (fun l : list (list Z) => l) (fun _ => (-2)%R)
    Reward.default_env [] false (Some [1%Z]) (Some true) = Reward.Value 0
  /\ Reward.proxy2reward Reward.default_env (-2) = Reward.Value 2.
Proof.
  split; [reflexivity |].
  assert (Hs : Reward.shaped Reward.default_env (-2) = Reward.Value 2)
    by (apply (shaped_default 2); lra).
  apply (proxy2reward_unclipped _ _ _ Hs). simpl. lra.
Qed.


(** ** The environment state machine *)

Section EnvFacts.

Context {State : Type}.
Implicit Types (e : Env.t State) (a : Z).

(** C3: every call of [step] raises [NameError]: the body reads [action],
    the parameter is [action_idx]. The environment is left as it was, so
    the stop action neither sets [done] nor counts. *)
Theorem step_raises_NameError e a :
  Env.step a e = Py.Raise e (Py.NameError "action").
Proof. reflexivity. Qed.

(** With [action] bound to the argument, the stop branch does what the
    specification says. *)
Lemma step_body_stop e a :
  Env.eos e <= a ->
  Env.step_body a e
  = Py.Ok (Env.incr_n_actions (Env.set_done true e)) (Env.state e, a, true).
Proof.
  intros Ha. unfold Env.step_body. py_unfold.
  destruct (a <? Env.eos e) eqn:E; [apply Z.ltb_lt in E; lia |].
  reflexivity.
Qed.

(** With [action] bound to the argument, a non-stop action is accepted
    whatever the mask: [valid] is [True] and the mask is not consulted. *)
Lemma step_body_non_stop e a :
  a < Env.eos e ->
  Env.step_body a e = Py.Ok (Env.set_done false e) (Env.state e, a, true).
Proof.
  intros Ha. unfold Env.step_body. py_unfold.
  destruct (a <? Env.eos e) eqn:E; [| apply Z.ltb_ge in E; lia].
  reflexivity.
Qed.

(** The base mask declares no action invalid. *)
Lemma base_mask_all_valid e st dn (i : nat) :
  Env.get_mask_invalid_actions_forward e st dn !! i <> Some true.
Proof.
  unfold Env.get_mask_invalid_actions_forward. intros H.
  apply lookup_replicate in H. destruct H as [H _]. discriminate.
Qed.

(** Base [get_parents] of a done state: the state itself, by the stop
    action. *)
Lemma get_parents_done e (s : State) :
  Env.get_parents e (Some s) (Some true) = ([s], [Env.eos e]).
Proof. reflexivity. Qed.

End EnvFacts.

(** ** The replay reservoir *)

Section BufferFacts.

Import Buffer.

Lemma foldr_max_spec (x : Z) (t : list Z) :
  foldr Z.max x t ∈ x :: t /\ Forall (fun y => y <= foldr Z.max x t) (x :: t).
Proof.
  induction t as [| y t [IHin IHle]]; simpl.
  - split; [left | constructor; [lia | constructor]].
  - split.
    + destruct (Z.max_spec y (foldr Z.max x t)) as [[_ ->] | [_ ->]].
      * apply elem_of_cons in IHin as [-> | Hin];
          [left | right; right; exact Hin].
      * right; left.
    + inversion IHle as [| ? ? Hx Ht]; subst.
      constructor; [lia |]. constructor; [lia |].
      eapply Forall_impl; [exact Ht |]. intros z Hz. simpl in Hz. lia.
Qed.

Lemma foldr_min_spec (x : Z) (t : list Z) :
  foldr Z.min x t ∈ x :: t /\ Forall (fun y => foldr Z.min x t <= y) (x :: t).
Proof.
  induction t as [| y t [IHin IHle]]; simpl.
  - split; [left | constructor; [lia | constructor]].
  - split.
    + destruct (Z.min_spec y (foldr Z.min x t)) as [[_ ->] | [_ ->]].
      * right; left.
      * apply elem_of_cons in IHin as [-> | Hin];
          [left | right; right; exact Hin].
    + inversion IHle as [| ? ? Hx Ht]; subst.
      constructor; [lia |]. constructor; [lia |].
      eapply Forall_impl; [exact Ht |]. intros z Hz. simpl in Hz. lia.
Qed.

Lemma np_max_spec (l : list Z) (m : Z) :
  np_max l = Some m -> m ∈ l /\ Forall (fun y => y <= m) l.
Proof.
  destruct l as [| x t]; [discriminate |].
  intros [= <-]. apply foldr_max_spec.
Qed.

Lemma np_min_spec (l : list Z) (m : Z) :
  np_min l = Some m -> m ∈ l /\ Forall (fun y => m <= y) l.
Proof.
  destruct l as [| x t]; [discriminate |].
  intros [= <-]. apply foldr_min_spec.
Qed.

Lemma index_of_lookup (m : Z) (l : list Z) :
  m ∈ l -> l !! index_of m l = Some m.
Proof.
  induction l as [| x t IH]; intros Hin.
  - inversion Hin.
  - simpl. destruct (x =? m) eqn:E.
    + apply Z.eqb_eq in E. subst. reflexivity.
    + apply Z.eqb_neq in E. apply elem_of_cons in Hin as [-> | Hin];
        [congruence | simpl; auto].
Qed.

Lemma np_argmax_lookup (l : list Z) (m : Z) :
  np_max l = Some m -> l !! np_argmax l = Some m.
Proof.
  intros H. unfold np_argmax. rewrite H.
  apply index_of_lookup. apply (np_max_spec l m H).
Qed.

Lemma count_above_cons (mn x : Z) (l : list Z) :
  count_above mn (x :: l)
  = ((if decide (mn < x)%Z then 1 else 0) + count_above mn l)%nat.
Proof.
  unfold count_above. rewrite filter_cons.
  destruct (decide (mn < x)); reflexivity.
Qed.

(** Consuming an entry above the threshold lowers the count by one. *)
Lemma count_above_consume (mn x v : Z) (l : list Z) (i : nat) :
  l !! i = Some x -> mn < x -> v <= mn ->
  S (count_above mn (<[i := v]> l)) = count_above mn l.
Proof.
  revert i. induction l as [| y t IH]; intros i Hi Hx Hv; [discriminate |].
  destruct i as [| i]; simpl in *.
  - injection Hi as ->. rewrite !count_above_cons.
    destruct (decide (mn < x)); [| lia].
    destruct (decide (mn < v)); [lia | reflexivity].
  - rewrite !count_above_cons. rewrite <- (IH i Hi Hx Hv). lia.
Qed.

Context {State Path Energy : Type}.
Variable state2readable : State -> string.
Variable path2readable : Path -> string.

Abbreviation loop := (add_greater_loop state2readable path2readable).
Abbreviation add_greater := (_add_greater state2readable path2readable).

Lemma working_copy_refl (rewards : list Z) : working_copy rewards rewards.
Proof. induction rewards; constructor; auto. Qed.

Lemma working_copy_consume (rewards_new rewards : list Z) (i : nat) :
  working_copy rewards_new rewards ->
  working_copy (<[i := -1]> rewards_new) rewards.
Proof.
  intros H. revert i. induction H as [| rn r t t' Hh Ht IH]; intros i.
  - constructor.
  - destruct i; simpl.
    + constructor; [right; reflexivity | exact Ht].
    + constructor; [exact Hh | apply IH].
Qed.

Lemma working_copy_lookup (rewards_new rewards : list Z) (i : nat) (rn r : Z) :
  working_copy rewards_new rewards ->
  rewards_new !! i = Some rn -> rewards !! i = Some r ->
  rn = r \/ rn = -1.
Proof.
  intros H Hn Hr.
  destruct (Forall2_lookup_l _ _ _ _ _ H Hn) as (r' & Hr' & Hrel).
  congruence.
Qed.

(** The loop ends within [k] iterations when at most [k] entries of the
    working copy lie above a floor [mn0 >= -1] of the reservoir, and the
    floor is kept. *)
Lemma add_greater_loop_terminates (states : list State) (paths : list Path)
    (rewards : list Z) (energies : list Energy) (it : Z) (mn0 : Z) (k : nat) :
  -1 <= mn0 ->
  forall (rewards_new : list Z) (n : nat) (replay : list (row Energy)),
    floor_ok mn0 replay ->
    working_copy rewards_new rewards ->
    (count_above mn0 rewards_new <= k)%nat ->
    exists m o,
      (forall fuel, (k < fuel)%nat ->
         loop fuel states paths rewards energies it rewards_new n replay
         = Some (m, o))
      /\ (m <= n + k)%nat
      /\ floor_ok mn0 (Py.final_state o).
Proof.
  intros Hmn0. induction k as [| k IH]; intros rewards_new n replay Hfloor Hwc Hk.
  all: destruct (np_max rewards_new) as [mx |] eqn:Emax;
    [| exists n, (Py.Raise replay Py.ValueError); split; [| split; [lia | exact Hfloor]];
       intros [| fuel] Hf; [lia |]; simpl; rewrite Emax; reflexivity].
  all: destruct (np_min (reward_column replay)) as [mn |] eqn:Emin;
    [| exists n, (Py.Raise replay Py.ValueError); split; [| split; [lia | exact Hfloor]];
       intros [| fuel] Hf; [lia |]; simpl; rewrite Emax, Emin; reflexivity].
  all: destruct (mx >? mn) eqn:Egt;
    [| exists n, (Py.Ok replay tt); split; [| split; [lia | exact Hfloor]];
       intros [| fuel] Hf; [lia |]; simpl; rewrite Emax, Emin, Egt; reflexivity].
  all: pose proof Egt as Egt'; apply Z.gtb_lt in Egt.
  all: assert (Hmn : mn0 <= mn)
    by (destruct (np_min_spec _ _ Emin) as [Hin _];
        apply list_elem_of_fmap in Hin as (r & -> & Hr);
        exact (proj1 (Forall_forall _ _) Hfloor r Hr)).
  all: pose proof (np_argmax_lookup _ _ Emax) as Hidx.
  - exfalso.
    pose proof (count_above_consume mn0 mx (-1) rewards_new _ Hidx ltac:(lia) ltac:(lia)).
    lia.
  - destruct (states !! np_argmax rewards_new) as [s |] eqn:Es;
      [| exists n, (Py.Raise replay Py.IndexError); split; [| split; [lia | exact Hfloor]];
         intros [| fuel] Hf; [lia |]; simpl; rewrite Emax, Emin, Egt';
         rewrite Es; reflexivity].
    destruct (paths !! np_argmax rewards_new) as [p |] eqn:Ep;
      [| exists n, (Py.Raise replay Py.IndexError); split; [| split; [lia | exact Hfloor]];
         intros [| fuel] Hf; [lia |]; simpl; rewrite Emax, Emin, Egt';
         rewrite Es, Ep; reflexivity].
    destruct (rewards !! np_argmax rewards_new) as [r |] eqn:Er;
      [| exists n, (Py.Raise replay Py.IndexError); split; [| split; [lia | exact Hfloor]];
         intros [| fuel] Hf; [lia |]; simpl; rewrite Emax, Emin, Egt';
         rewrite Es, Ep, Er; reflexivity].
    destruct (energies !! np_argmax rewards_new) as [en |] eqn:Een;
      [| exists n, (Py.Raise replay Py.IndexError); split; [| split; [lia | exact Hfloor]];
         intros [| fuel] Hf; [lia |]; simpl; rewrite Emax, Emin, Egt';
         rewrite Es, Ep, Er, Een; reflexivity].
    assert (Hr : mn0 < r).
    { destruct (working_copy_lookup _ _ _ _ _ Hwc Hidx Er) as [-> | ->]; lia. }
    pose proof (count_above_consume mn0 mx (-1) rewards_new _ Hidx ltac:(lia) ltac:(lia))
      as Hcount.
    set (new_row := {| r_state := Some (state2readable s);
                       r_path := Some (path2readable p);
                       r_reward := r; r_energy := Some en;
                       r_iter := Some it |}).
    destruct (IH (<[np_argmax rewards_new := -1]> rewards_new) (S n)
                 (<[np_argmin (reward_column replay) := new_row]> replay))
      as (m & o & Hrun & Hm & Hfin).
    + apply Forall_insert; [exact Hfloor | simpl; lia].
    + apply working_copy_consume. exact Hwc.
    + lia.
    + exists m, o. split; [| split; [lia | exact Hfin]].
      intros [| fuel] Hf; [lia |]. simpl. rewrite Emax, Emin, Egt'.
      rewrite Es, Ep, Er, Een. apply Hrun. lia.
Qed.

Lemma add_greater_loop_more_fuel (states : list State) (paths : list Path)
    (rewards : list Z) (energies : list Energy) (it : Z) (fuel : nat) :
  forall (fuel' : nat) rewards_new n replay res,
    (fuel <= fuel')%nat ->
    loop fuel states paths rewards energies it rewards_new n replay = Some res ->
    loop fuel' states paths rewards energies it rewards_new n replay = Some res.
Proof.
  induction fuel as [| fuel IH]; intros fuel' rewards_new n replay res Hle Hrun.
  - discriminate.
  - destruct fuel' as [| fuel']; [lia |].
    simpl in *.
    destruct (np_max rewards_new); [| exact Hrun].
    destruct (np_min (reward_column replay)); [| exact Hrun].
    destruct (_ >? _); [| exact Hrun].
    destruct (states !! _); [| exact Hrun].
    destruct (paths !! _); [| exact Hrun].
    destruct (rewards !! _); [| exact Hrun].
    destruct (energies !! _); [| exact Hrun].
    apply IH; [lia | exact Hrun].
Qed.

Lemma init_replay_floor (replay_capacity : nat) :
  floor_ok (-1) (init_replay (Energy := Energy) replay_capacity).
Proof. apply Forall_replicate. simpl. lia. Qed.

(** No reward of a reachable reservoir is below the sentinel -1. *)
Lemma reachable_floor (replay : list (row Energy)) :
  reachable state2readable path2readable replay -> floor_ok (-1) replay.
Proof.
  induction 1 as [cap | replay fuel states paths rewards energies it n o _ IH Hrun].
  - apply init_replay_floor.
  - destruct (add_greater_loop_terminates states paths rewards energies it
                (-1) (count_above (-1) rewards) (Z.le_refl _) rewards 0%nat replay
                IH (working_copy_refl rewards) (le_n _))
      as (m & o' & Hall & _ & Hfin).
    unfold _add_greater in Hrun.
    pose proof (add_greater_loop_more_fuel _ _ _ _ _ _
                  (fuel + S (count_above (-1) rewards)) _ _ _ _ (Nat.le_add_r _ _) Hrun)
      as Hrun'.
    rewrite Hall in Hrun' by lia.
    injection Hrun' as _ <-. exact Hfin.
Qed.

(** C10: on every reservoir a [Buffer] can hold, [_add_greater] terminates
    for every candidate list: some number [n] of iterations, at most the
    number of candidates whose reward exceeds the reservoir minimum, ends
    the loop, given any fuel above that number. *)
Theorem add_greater_terminates (states : list State) (paths : list Path)
    (rewards : list Z) (energies : list Energy) (it : Z)
    (replay : list (row Energy)) :
  reachable state2readable path2readable replay ->
  exists n o,
    (n <= candidates_above_min replay rewards)%nat
    /\ forall fuel, (candidates_above_min replay rewards < fuel)%nat ->
         add_greater fuel states paths rewards energies it replay = Some (n, o).
Proof.
  intros Hreach. pose proof (reachable_floor replay Hreach) as Hfloor.
  unfold candidates_above_min.
  destruct (np_min (reward_column replay)) as [mn |] eqn:Emin.
  - destruct (np_min_spec _ _ Emin) as [Hin Hall].
    assert (Hmn : -1 <= mn).
    { apply list_elem_of_fmap in Hin as (r & -> & Hr).
      exact (proj1 (Forall_forall _ _) Hfloor r Hr). }
    assert (Hfl : floor_ok mn replay).
    { apply Forall_forall. intros r Hr.
      apply (proj1 (Forall_forall _ _) Hall).
      apply list_elem_of_fmap. exists r. split; [reflexivity | exact Hr]. }
    destruct (add_greater_loop_terminates states paths rewards energies it
                mn (count_above mn rewards) Hmn rewards 0%nat replay
                Hfl (working_copy_refl rewards) (le_n _))
      as (m & o & Hrun & Hm & _).
    exists m, o. split; [lia |]. intros fuel Hf. apply Hrun. exact Hf.
  - destruct (np_max rewards) as [mx |] eqn:Emax.
    + exists 0%nat, (Py.Raise replay Py.ValueError). split; [lia |].
      intros [| fuel] Hf; [lia |].
      unfold _add_greater. simpl. rewrite Emax, Emin. reflexivity.
    + exists 0%nat, (Py.Raise replay Py.ValueError). split; [lia |].
      intros [| fuel] Hf; [lia |].
      unfold _add_greater. simpl. rewrite Emax. reflexivity.
Qed.

End BufferFacts.

Lemma add_greater_terminates_witness :
  Buffer.reachable Buffer.ex_readable Buffer.ex_readable Buffer.ex_replay
  /\ exists n o,
    (n <= Buffer.candidates_above_min Buffer.ex_replay Buffer.ex_rewards)%nat
    /\ forall fuel,
         (Buffer.candidates_above_min Buffer.ex_replay Buffer.ex_rewards
          < fuel)%nat ->
         Buffer._add_greater Buffer.ex_readable Buffer.ex_readable fuel
           Buffer.ex_states Buffer.ex_paths Buffer.ex_rewards
           Buffer.ex_energies 1 Buffer.ex_replay = Some (n, o).
Proof.
  split.
  - apply Buffer.reachable_init.
  - apply (add_greater_terminates Buffer.ex_readable Buffer.ex_readable
             Buffer.ex_states Buffer.ex_paths Buffer.ex_rewards
             Buffer.ex_energies 1 Buffer.ex_replay).
    apply Buffer.reachable_init.
Defined.

(** The reservoir of capacity 3 fed the rewards 5, 3, 9, 1, 7 keeps 9, 7
    and 5, after three iterations. *)
Example reservoir_keeps_top3 :
  match Buffer._add_greater Buffer.ex_readable Buffer.ex_readable 6
          Buffer.ex_states Buffer.ex_paths Buffer.ex_rewards
          Buffer.ex_energies 1 Buffer.ex_replay with
  | Some (n, Py.Ok replay _) => (n, Buffer.reward_column replay)
  | _ => (0%nat, [])
  end = (3%nat, [9; 7; 5]).
Proof. vm_compute. reflexivity. Qed.

(** A reservoir holding a reward below the sentinel (which no [Buffer]
    reaches) makes the loop run for ever: the consumed candidate, now -1,
    is still above the minimum -2 it has itself put there. *)
Lemma add_greater_loops_below_sentinel (fuel : nat) :
  Buffer._add_greater Buffer.ex_readable Buffer.ex_readable
    fuel [0] [0] [-2] [0] 1 Buffer.low_replay = None.
Proof.
  unfold Buffer._add_greater.
  destruct fuel as [| fuel]; [reflexivity |]. simpl.
  generalize 1%nat. induction fuel as [| fuel IH]; intros n; [reflexivity |].
  simpl. apply IH.
Qed.

(** ** Action sampling: what the calls do to the caller's tensor *)

Section SamplingFacts.

Import Sampling.

Lemma pure_ret {A} (a : A) : pure (mret a).
Proof. intros h. reflexivity. Qed.

Lemma pure_raise {A} (e : Py.exn) : pure (Py.raise e : Py.M store A).
Proof. intros h. reflexivity. Qed.

Lemma pure_bind {A B} (m : Py.M store A) (k : A -> Py.M store B) :
  pure m -> (forall a, pure (k a)) -> pure (m ≫= k).
Proof.
  intros Hm Hk h. py_unfold. specialize (Hm h).
  destruct (m h) as [h' a | h' e]; simpl in *; subst.
  - apply Hk.
  - reflexivity.
Qed.

Lemma pure_getitem {A} (l : list A) (i : nat) : pure (Py.getitem l i).
Proof. intros h. unfold Py.getitem. destruct (l !! i); reflexivity. Qed.

Lemma pure_deref (r : ref) : pure (deref r).
Proof. intros h. unfold deref. py_unfold. destruct (h !! r); reflexivity. Qed.

Lemma pure_gather (rows : tensor) (idxs : list nat) : pure (gather rows idxs).
Proof.
  revert idxs. induction rows as [| row rows IH]; intros [| i idxs]; simpl;
    try apply pure_ret; try apply pure_raise.
  apply pure_bind; [apply pure_getitem | intros x].
  apply pure_bind; [apply IH | intros xs; apply pure_ret].
Qed.

Lemma pure_for_each {A B} (f : A -> Py.M store B) (l : list A) :
  (forall a, pure (f a)) -> pure (Py.for_each f l).
Proof.
  intros Hf. induction l as [| x l IH]; simpl; [apply pure_ret |].
  apply pure_bind; [apply Hf | intros y].
  apply pure_bind; [apply IH | intros ys; apply pure_ret].
Qed.

Lemma deref_ok (h : store) (r : ref) (t : tensor) :
  h !! r = Some t -> deref r h = Py.Ok h t.
Proof. intros H. unfold deref. py_unfold. rewrite H. reflexivity. Qed.

Lemma setitem_mask_ok (h : store) (r : ref) (t : tensor) (m : mask) (v : R) :
  h !! r = Some t -> same_shape t m = true ->
  setitem_mask r m v h = Py.Ok (<[r := masked_fill t m v]> h) tt.
Proof.
  intros Hr Hs. unfold setitem_mask.
  change ((deref r ≫= _) h) with (Py.bind (deref r)
    (fun t => if same_shape t m then assign r (masked_fill t m v)
              else Py.raise Py.IndexError) h).
  unfold Py.bind. rewrite (deref_ok h r t Hr). rewrite Hs. reflexivity.
Qed.

Lemma idiv_ok (h : store) (r : ref) (t : tensor) (c : R) :
  h !! r = Some t -> idiv r c h = Py.Ok (<[r := div_all t c]> h) tt.
Proof.
  intros Hr. unfold idiv.
  change ((deref r ≫= _) h) with (Py.bind (deref r)
    (fun t => assign r (div_all t c)) h).
  unfold Py.bind. rewrite (deref_ok h r t Hr). reflexivity.
Qed.

(** [t[m] = v] writes [v] where the mask is set and keeps the rest. *)
Lemma masked_fill_entry (t : tensor) (m : mask) (v : R) (i j : nat) (b : bool) (x : R) :
  entry t i j = Some x -> entry m i j = Some b ->
  entry (masked_fill t m v) i j = Some (if b then v else x).
Proof.
  unfold entry, masked_fill. intros Ht Hm.
  destruct (t !! i) as [row |] eqn:Er; [| discriminate Ht].
  destruct (m !! i) as [mrow |] eqn:Em; [| discriminate Hm].
  simpl in *.
  rewrite lookup_zip_with. rewrite Er, Em. simpl.
  rewrite lookup_zip_with. rewrite Ht, Hm. reflexivity.
Qed.

Lemma same_shape_div_all (t : tensor) (m : mask) (c : R) :
  same_shape t m = true -> same_shape (div_all t c) m = true.
Proof.
  unfold same_shape, div_all. intros H. apply bool_decide_eq_true in H.
  apply bool_decide_eq_true. rewrite <- H, map_map.
  apply map_ext. intros row. apply length_map.
Qed.

Lemma same_shape_ones_like (t : tensor) (m : mask) :
  same_shape t m = true -> same_shape (ones_like t) m = true.
Proof.
  unfold same_shape, ones_like. intros H. apply bool_decide_eq_true in H.
  apply bool_decide_eq_true. rewrite <- H, map_map.
  apply map_ext. intros row. apply length_map.
Qed.

Context {Action : Type} `{EqDecision Action}.
Variable categorical_sample : tensor -> list nat.
Variable logsoftmax : tensor -> tensor.

Lemma pure_index (action_space : list Action) (a : Action) :
  pure (index action_space a).
Proof.
  intros h. unfold index.
  destruct (list_find _ action_space) as [[i x] |]; reflexivity.
Qed.

(** What follows the writes in [sample_actions] only reads. *)
Lemma pure_sample_tail (action_space : list Action) (logits : ref) :
  pure (lg ← deref logits;
        logprobs ← gather (logsoftmax lg) (categorical_sample lg);
        actions ← Py.for_each (Py.getitem action_space) (categorical_sample lg);
        mret (actions, logprobs)).
Proof.
  apply pure_bind; [apply pure_deref | intros lg].
  apply pure_bind; [apply pure_gather | intros lp].
  apply pure_bind; [| intros acts; apply pure_ret].
  apply pure_for_each. intros i. apply pure_getitem.
Qed.

Lemma pure_logprobs_tail (action_space : list Action) (actions : list Action)
    (logits : ref) :
  pure (action_indices ← Py.for_each (index action_space) actions;
        lg ← deref logits;
        logprobs ← gather (logsoftmax lg) action_indices;
        mret logprobs).
Proof.
  apply pure_bind; [apply pure_for_each; intros a; apply pure_index | intros ai].
  apply pure_bind; [apply pure_deref | intros lg].
  apply pure_bind; [apply pure_gather | intros lp; apply pure_ret].
Qed.

(** [sample_actions] with the policy method: the caller's tensor is divided
    by the temperature, then masked. *)
Lemma sample_actions_policy_store (action_space : list Action) (h : store)
    (r : ref) (po : tensor) (m : mask) (temp loginf : R) :
  h !! r = Some po -> same_shape po m = true ->
  Py.final_state
    (sample_actions categorical_sample logsoftmax action_space r "policy"
       (Some m) temp loginf h)
  = <[r := masked_fill (div_all po temp) m (- loginf)]> h.
Proof.
  intros Hr Hs. unfold sample_actions.
  rewrite (final_state_bind _ _ h h po (deref_ok h r po Hr)). simpl.
  assert (Hlt : (r < length h)%nat) by (eapply lookup_lt_Some; exact Hr).
  rewrite (final_state_bind _ _ h (<[r := div_all po temp]> h) (Some r));
    [| py_unfold; rewrite (idiv_ok h r po temp Hr); reflexivity].
  rewrite (final_state_bind _ _ _ _ tt
             (setitem_mask_ok _ r (div_all po temp) m (- loginf)
                (list_lookup_insert_eq h r _ Hlt)
                (same_shape_div_all po m temp Hs))).
  rewrite pure_sample_tail. rewrite list_insert_insert_eq. reflexivity.
Qed.

(** [sample_actions] with the uniform method works on a new tensor: the
    store grows by one object and the caller's tensor is untouched. *)
Lemma sample_actions_uniform_store (action_space : list Action) (h : store)
    (r : ref) (po : tensor) (m : mask) (temp loginf : R) :
  h !! r = Some po -> same_shape po m = true ->
  Py.final_state
    (sample_actions categorical_sample logsoftmax action_space r "uniform"
       (Some m) temp loginf h)
  = h ++ [masked_fill (ones_like po) m (- loginf)].
Proof.
  intros Hr Hs. unfold sample_actions.
  rewrite (final_state_bind _ _ h h po (deref_ok h r po Hr)). simpl.
  rewrite (final_state_bind _ _ h (h ++ [ones_like po]) (Some (length h)));
    [| py_unfold; reflexivity].
  rewrite (final_state_bind _ _ _ _ tt
             (setitem_mask_ok _ (length h) (ones_like po) m (- loginf)
                (list_lookup_middle h [] (ones_like po) (length h) eq_refl)
                (same_shape_ones_like po m Hs))).
  rewrite pure_sample_tail.
  rewrite insert_app_r_alt by lia. rewrite Nat.sub_diag. reflexivity.
Qed.

(** [get_logprobs]: the caller's tensor is masked. *)
Lemma get_logprobs_store (action_space : list Action) (h : store)
    (r : ref) (po : tensor) (m : mask) (actions : list Action) (loginf : R) :
  h !! r = Some po -> same_shape po m = true ->
  Py.final_state
    (get_logprobs logsoftmax action_space r actions (Some m) loginf h)
  = <[r := masked_fill po m (- loginf)]> h.
Proof.
  intros Hr Hs. unfold get_logprobs.
  rewrite (final_state_bind _ _ h h po (deref_ok h r po Hr)).
  rewrite (final_state_bind _ _ _ _ tt
             (setitem_mask_ok h r po m (- loginf) Hr Hs)).
  rewrite pure_logprobs_tail. reflexivity.
Qed.

(** The same calls without a mask. *)
Lemma sample_actions_policy_store_no_mask (action_space : list Action)
    (h : store) (r : ref) (po : tensor) (temp loginf : R) :
  h !! r = Some po ->
  Py.final_state
    (sample_actions categorical_sample logsoftmax action_space r "policy"
       None temp loginf h)
  = <[r := div_all po temp]> h.
Proof.
  intros Hr. unfold sample_actions.
  rewrite (final_state_bind _ _ h h po (deref_ok h r po Hr)). simpl.
  rewrite (final_state_bind _ _ h (<[r := div_all po temp]> h) (Some r));
    [| py_unfold; rewrite (idiv_ok h r po temp Hr); reflexivity].
  rewrite (final_state_bind _ _ (<[r := div_all po temp]> h)
             (<[r := div_all po temp]> h) tt eq_refl).
  apply pure_sample_tail.
Qed.

Lemma sample_actions_uniform_store_no_mask (action_space : list Action)
    (h : store) (r : ref) (po : tensor) (temp loginf : R) :
  h !! r = Some po ->
  Py.final_state
    (sample_actions categorical_sample logsoftmax action_space r "uniform"
       None temp loginf h)
  = h ++ [ones_like po].
Proof.
  intros Hr. unfold sample_actions.
  rewrite (final_state_bind _ _ h h po (deref_ok h r po Hr)). simpl.
  rewrite (final_state_bind _ _ h (h ++ [ones_like po]) (Some (length h)));
    [| py_unfold; reflexivity].
  rewrite (final_state_bind _ _ (h ++ [ones_like po]) (h ++ [ones_like po]) tt
             eq_refl).
  apply pure_sample_tail.
Qed.

Lemma get_logprobs_store_no_mask (action_space : list Action) (h : store)
    (r : ref) (po : tensor) (actions : list Action) (loginf : R) :
  h !! r = Some po ->
  Py.final_state
    (get_logprobs logsoftmax action_space r actions None loginf h) = h.
Proof.
  intros Hr. unfold get_logprobs.
  rewrite (final_state_bind _ _ h h po (deref_ok h r po Hr)).
  rewrite (final_state_bind _ _ h h tt eq_refl).
  apply pure_logprobs_tail.
Qed.

(** C9 (as amended): [sample_actions] under the policy method leaves the
    caller's tensor divided by the temperature, whether or not a mask is
    given, and [get_logprobs] leaves it as it was; with a mask, both then
    overwrite its masked entries with [-loginf]. Under the uniform method
    [sample_actions] leaves the caller's tensor as it was, with or without
    a mask. *)
Theorem policy_outputs_after_call (action_space : list Action) (h : store)
    (r : ref) (po : tensor) (mo : option mask) (actions : list Action)
    (temp loginf : R) :
  h !! r = Some po ->
  (forall m, mo = Some m -> same_shape po m = true) ->
  Py.final_state
    (sample_actions categorical_sample logsoftmax action_space r "policy"
       mo temp loginf h) !! r
  = Some (match mo with
          | Some m => masked_fill (div_all po temp) m (- loginf)
          | None => div_all po temp
          end)
  /\ Py.final_state
      (get_logprobs logsoftmax action_space r actions mo loginf h) !! r
    = Some (match mo with
            | Some m => masked_fill po m (- loginf)
            | None => po
            end)
  /\ Py.final_state
      (sample_actions categorical_sample logsoftmax action_space r "uniform"
         mo temp loginf h) !! r
    = Some po.
Proof.
  intros Hr Hshape.
  assert (Hlt : (r < length h)%nat) by (eapply lookup_lt_Some; exact Hr).
  destruct mo as [m |].
  - pose proof (Hshape m eq_refl) as Hs.
    rewrite (sample_actions_policy_store _ _ _ _ _ _ _ Hr Hs).
    rewrite (get_logprobs_store _ _ _ _ _ _ _ Hr Hs).
    rewrite (sample_actions_uniform_store _ _ _ _ _ _ _ Hr Hs).
    repeat split.
    + apply list_lookup_insert_eq. exact Hlt.
    + apply list_lookup_insert_eq. exact Hlt.
    + rewrite lookup_app_l by exact Hlt. exact Hr.
  - rewrite (sample_actions_policy_store_no_mask _ _ _ _ _ _ Hr).
    rewrite (get_logprobs_store_no_mask _ _ _ _ _ _ Hr).
    rewrite (sample_actions_uniform_store_no_mask _ _ _ _ _ _ Hr).
    repeat split.
    + apply list_lookup_insert_eq. exact Hlt.
    + exact Hr.
    + rewrite lookup_app_l by exact Hlt. exact Hr.
Qed.

End SamplingFacts.

Lemma policy_outputs_after_call_witness :
  Py.final_state
    (Sampling.sample_actions Sampling.ex_sample Sampling.ex_logsoftmax
       Sampling.ex_action_space 0 "policy" (Some Sampling.ex_mask) 2 1000
       Sampling.ex_store) !! 0%nat
  = Some (Sampling.masked_fill (Sampling.div_all Sampling.ex_outputs 2)
            Sampling.ex_mask (- 1000))
  /\ Py.final_state
      (Sampling.get_logprobs Sampling.ex_logsoftmax Sampling.ex_action_space 0
         [11%nat] (Some Sampling.ex_mask) 1000 Sampling.ex_store) !! 0%nat
    = Some (Sampling.masked_fill Sampling.ex_outputs Sampling.ex_mask (- 1000))
  /\ Py.final_state
      (Sampling.sample_actions Sampling.ex_sample Sampling.ex_logsoftmax
         Sampling.ex_action_space 0 "uniform" (Some Sampling.ex_mask) 2 1000
         Sampling.ex_store) !! 0%nat
    = Some Sampling.ex_outputs.
Proof.
  apply (policy_outputs_after_call Sampling.ex_sample Sampling.ex_logsoftmax
           Sampling.ex_action_space Sampling.ex_store 0 Sampling.ex_outputs
           (Some Sampling.ex_mask) [11%nat] 2 1000).
  - reflexivity.
  - intros m [= <-]. reflexivity.
Defined.

(** C9 (as stated) fails for [sample_actions] under the uniform method: the
    mask is applied to a tensor of ones made inside the call, and the masked
    entry of the caller's tensor keeps its value, 1, instead of -1000. *)
Lemma sample_actions_uniform_not_in_place :
  ~ (forall (sampling_method : string) (h : Sampling.store) (r : Sampling.ref)
            (po : Sampling.tensor) (m : Sampling.mask) (temp loginf : R)
            (i j : nat),
       sampling_method = "policy"%string \/ sampling_method = "uniform"%string ->
       h !! r = Some po -> Sampling.same_shape po m = true ->
       Sampling.entry m i j = Some true ->
       Py.final_state
         (Sampling.sample_actions Sampling.ex_sample Sampling.ex_logsoftmax
            Sampling.ex_action_space r sampling_method (Some m) temp loginf h)
         !! r ≫= (fun t => Sampling.entry t i j)
       = Some (- loginf)%R).
Proof.
  intros claim.
  specialize (claim "uniform"%string Sampling.ex_store 0%nat Sampling.ex_outputs
                Sampling.ex_mask 2%R 1000%R 0%nat 0%nat
                (or_intror eq_refl) eq_refl eq_refl eq_refl).
  rewrite (sample_actions_uniform_store Sampling.ex_sample Sampling.ex_logsoftmax
             Sampling.ex_action_space Sampling.ex_store 0 Sampling.ex_outputs
             Sampling.ex_mask 2 1000 eq_refl eq_refl) in claim.
  simpl in claim. injection claim as claim. lra.
Qed.

(** ** Ordered dictionaries *)

Section DictFacts.

Import Batch.
Context {V : Type}.
Implicit Types (d other items : list (Z * V)) (k : Z) (v : V).

Lemma dict_mem_true k d : dict_mem k d = true <-> k ∈ keys d.
Proof. unfold dict_mem, keys. apply bool_decide_eq_true. Qed.

Lemma dict_mem_false k d : dict_mem k d = false <-> k ∉ keys d.
Proof. unfold dict_mem, keys. apply bool_decide_eq_false. Qed.

Lemma dict_get_None k d : dict_get k d = None <-> k ∉ keys d.
Proof.
  induction d as [| [k' v'] d IH]; simpl.
  - split; [intros _ H; inversion H | reflexivity].
  - destruct (k' =? k) eqn:E.
    + apply Z.eqb_eq in E. subst. split; [discriminate |].
      intros H. exfalso. apply H. left.
    + apply Z.eqb_neq in E. rewrite IH. unfold keys. simpl.
      rewrite not_elem_of_cons. split; [intros H; split; congruence | intros [_ H]; exact H].
Qed.

Lemma dict_get_Some_mem k d v : dict_get k d = Some v -> dict_mem k d = true.
Proof.
  intros H. destruct (dict_mem k d) eqn:E; [reflexivity |].
  apply dict_mem_false, dict_get_None in E. congruence.
Qed.

Lemma dict_mem_get k d : dict_mem k d = true -> exists v, dict_get k d = Some v.
Proof.
  intros H. destruct (dict_get k d) as [v |] eqn:E; [eauto |].
  apply dict_get_None in E. apply dict_mem_true in H. contradiction.
Qed.

(** A new key goes last. *)
Lemma dict_set_new k v d : k ∉ keys d -> dict_set k v d = d ++ [(k, v)].
Proof.
  induction d as [| [k' v'] d IH]; intros H; simpl; [reflexivity |].
  unfold keys in H. simpl in H. apply not_elem_of_cons in H as [Hne Hd].
  destruct (k' =? k) eqn:E; [apply Z.eqb_eq in E; congruence |].
  rewrite IH by exact Hd. reflexivity.
Qed.

(** A present key keeps its place, and the keys do not change. *)
Lemma dict_set_old k v d :
  k ∈ keys d ->
  exists pre old post,
    d = pre ++ (k, old) :: post /\ dict_get k d = Some old
    /\ dict_set k v d = pre ++ (k, v) :: post.
Proof.
  induction d as [| [k' v'] d IH]; intros H; [inversion H |].
  simpl. destruct (k' =? k) eqn:E.
  - apply Z.eqb_eq in E. subst. exists [], v', d. auto.
  - apply Z.eqb_neq in E. unfold keys in H. simpl in H.
    apply elem_of_cons in H as [-> | H]; [congruence |].
    destruct (IH H) as (pre & old & post & -> & Hg & Hs).
    exists ((k', v') :: pre), old, post. rewrite Hs. auto.
Qed.

Lemma keys_dict_set k v d :
  keys (dict_set k v d) = if dict_mem k d then keys d else keys d ++ [k].
Proof.
  destruct (dict_mem k d) eqn:E.
  - apply dict_mem_true in E.
    destruct (dict_set_old k v d E) as (pre & old & post & -> & _ & ->).
    unfold keys. rewrite !fmap_app. reflexivity.
  - apply dict_mem_false in E. rewrite (dict_set_new k v d E).
    unfold keys. rewrite fmap_app. reflexivity.
Qed.

Lemma dict_get_set_eq k v d : dict_get k (dict_set k v d) = Some v.
Proof.
  induction d as [| [k' v'] d IH]; simpl.
  - rewrite Z.eqb_refl. reflexivity.
  - destruct (k' =? k) eqn:E; simpl.
    + rewrite Z.eqb_refl. reflexivity.
    + rewrite E. exact IH.
Qed.

Lemma dict_get_set_ne k k' v d :
  k <> k' -> dict_get k' (dict_set k v d) = dict_get k' d.
Proof.
  intros Hne. induction d as [| [k0 v0] d IH]; simpl.
  - destruct (k =? k') eqn:E; [apply Z.eqb_eq in E; congruence | reflexivity].
  - destruct (k0 =? k) eqn:E; simpl.
    + apply Z.eqb_eq in E. subst.
      destruct (k =? k') eqn:E'; [apply Z.eqb_eq in E'; congruence | reflexivity].
    + destruct (k0 =? k'); [reflexivity | exact IH].
Qed.

Lemma NoDup_keys_dict_set k v d : NoDup (keys d) -> NoDup (keys (dict_set k v d)).
Proof.
  intros H. rewrite keys_dict_set. destruct (dict_mem k d) eqn:E; [exact H |].
  apply dict_mem_false in E. apply NoDup_app. split; [exact H |].
  split; [| apply NoDup_singleton].
  intros x Hx Hx'. apply list_elem_of_singleton in Hx'. subst. contradiction.
Qed.

Lemma elem_of_values_dict_set k v d (x : V) :
  x ∈ values (dict_set k v d) -> x = v \/ x ∈ values d.
Proof.
  destruct (dict_mem k d) eqn:E.
  - apply dict_mem_true in E.
    destruct (dict_set_old k v d E) as (pre & old & post & -> & _ & ->).
    unfold values. rewrite !fmap_app, !fmap_cons. simpl.
    rewrite !elem_of_app, !elem_of_cons. tauto.
  - apply dict_mem_false in E. rewrite (dict_set_new k v d E).
    unfold values. rewrite fmap_app. simpl.
    rewrite elem_of_app, list_elem_of_singleton. tauto.
Qed.

Lemma elem_of_values_dict_update d other (x : V) :
  x ∈ values (dict_update d other) -> x ∈ values d \/ x ∈ values other.
Proof.
  unfold dict_update. revert d.
  induction other as [| [k v] other IH]; intros d; simpl; [auto |].
  intros H. destruct (IH _ H) as [H' | H'].
  - apply elem_of_values_dict_set in H' as [-> | H'].
    + right. unfold values. simpl. left.
    + left. exact H'.
  - right. unfold values. simpl. right. exact H'.
Qed.

Lemma dict_update_nodup d items :
  NoDup (keys (d ++ items)) -> dict_update d items = d ++ items.
Proof.
  unfold dict_update. revert d.
  induction items as [| [k v] items IH]; intros d H; simpl.
  - rewrite app_nil_r. reflexivity.
  - assert (Hk : k ∉ keys d).
    { unfold keys in *. rewrite fmap_app in H. apply NoDup_app in H as (_ & H & _).
      intros Hin. apply (H k Hin). simpl. left. }
    rewrite (dict_set_new k v d Hk).
    rewrite IH; rewrite <- app_assoc; [reflexivity | exact H].
Qed.

(** A comprehension over items with distinct keys lists them in order. *)
Lemma dict_of_items_nodup items : NoDup (keys items) -> dict_of_items items = items.
Proof. intros H. unfold dict_of_items. apply (dict_update_nodup [] items H). Qed.

End DictFacts.

(** ** The batch: validity *)

Lemma remove_dups_NoDup_id {A} `{EqDecision A} (l : list A) :
  NoDup l -> remove_dups l = l.
Proof.
  induction 1 as [| x l Hx Hl IH]; simpl; [reflexivity |].
  destruct (decide_rel elem_of x l); [contradiction | rewrite IH; reflexivity].
Qed.

Lemma length_remove_dups_le {A} `{EqDecision A} (l : list A) :
  (length (remove_dups l) <= length l)%nat.
Proof.
  induction l as [| x l IH]; simpl; [lia |].
  destruct (decide_rel elem_of x l); simpl; lia.
Qed.

(** [len(np.unique(l)) == len(l)] says [l] has no duplicate. *)
Lemma length_remove_dups_NoDup {A} `{EqDecision A} (l : list A) :
  length (remove_dups l) = length l <-> NoDup l.
Proof.
  split; [| intros H; rewrite remove_dups_NoDup_id by exact H; reflexivity].
  induction l as [| x l IH]; simpl; intros H; [constructor |].
  destruct (decide_rel elem_of x l) as [Hin | Hin]; simpl in H.
  - pose proof (length_remove_dups_le l). lia.
  - constructor; [exact Hin | apply IH; lia].
Qed.

(** Distinct numbers below [n] are at most [n]. *)
Lemma NoDup_bounded_length (l : list nat) (n : nat) :
  NoDup l -> Forall (fun i => (i < n)%nat) l -> (length l <= n)%nat.
Proof.
  intros Hnd Hlt.
  pose proof (submseteq_length l (seq 0 n)) as Hlen.
  rewrite length_seq in Hlen. apply Hlen.
  apply NoDup_submseteq; [exact Hnd |].
  intros i Hi. apply elem_of_seq.
  pose proof (proj1 (Forall_forall _ _) Hlt i Hi) as Hx. simpl in Hx. lia.
Qed.

Section KeySets.

Import Batch.

Lemma set_of_snoc (l : list Z) (k : Z) : set_of (l ++ [k]) = set_of l ∪ {[k]}.
Proof.
  unfold set_of. rewrite list_to_set_app_L. simpl.
  rewrite union_empty_r_L. reflexivity.
Qed.

Lemma set_of_absorb (l : list Z) (k : Z) : k ∈ l -> set_of l ∪ {[k]} = set_of l.
Proof.
  unfold set_of. intros H. apply set_eq. intros x.
  rewrite elem_of_union, elem_of_singleton, !elem_of_list_to_set.
  split; [intros [Hx | ->]; assumption | auto].
Qed.

Lemma set_of_keys_dict_set {V} (k : Z) (v : V) (d : list (Z * V)) :
  set_of (keys (dict_set k v d)) = set_of (keys d) ∪ {[k]}.
Proof.
  rewrite keys_dict_set. destruct (dict_mem k d) eqn:E.
  - apply dict_mem_true in E. symmetry. apply set_of_absorb. exact E.
  - apply set_of_snoc.
Qed.

(** Replacing the row-index list of a trajectory by one that holds a new
    index [n] more adds [n] to the indices of the batch. *)
Lemma concat_values_dict_set (k : Z) (l' : list nat) (d : list (Z * list nat))
    (n : nat) :
  match dict_get k d with
  | Some l => l' ≡ₚ n :: l
  | None => l' = [n]
  end ->
  concat (values (dict_set k l' d)) ≡ₚ n :: concat (values d).
Proof.
  destruct (dict_get k d) as [l |] eqn:E; intros H.
  - assert (Hin : k ∈ keys d) by (apply dict_mem_true; eapply dict_get_Some_mem; exact E).
    destruct (dict_set_old k l' d Hin) as (pre & old & post & -> & Hg & ->).
    assert (old = l) by congruence. subst old.
    unfold values. rewrite !fmap_app, !fmap_cons, !concat_app, !concat_cons. simpl.
    rewrite H. simpl. rewrite <- Permutation_middle. reflexivity.
  - subst l'. apply dict_get_None in E. rewrite (dict_set_new k [n] d E).
    unfold values. rewrite fmap_app, concat_app. simpl.
    rewrite <- Permutation_cons_append. reflexivity.
Qed.

Lemma dict_get_of_not_mem {V} (k : Z) (d : list (Z * V)) :
  negb (dict_mem k d) = true -> dict_get k d = None.
Proof.
  intros H. apply negb_true_iff in H. apply dict_get_None, dict_mem_false. exact H.
Qed.


Lemma set_of_map (f : Z -> Z) (l1 l2 : list Z) :
  set_of l1 = set_of l2 -> set_of (map f l1) = set_of (map f l2).
Proof.
  unfold set_of. intros H. apply set_eq. intros x.
  rewrite !elem_of_list_to_set, !list_elem_of_fmap.
  split; intros (y & -> & Hy); exists y; split; try reflexivity.
  - apply (elem_of_list_to_set (C := gset Z)). rewrite <- H.
    apply elem_of_list_to_set. exact Hy.
  - apply (elem_of_list_to_set (C := gset Z)). rewrite H.
    apply elem_of_list_to_set. exact Hy.
Qed.

Lemma keys_map_shift {V W} (by_ : Z) (g : Z * V -> W) (d : list (Z * V)) :
  keys (map (fun kv => (kv.1 + by_, g kv)) d) = map (fun k => k + by_) (keys d).
Proof.
  unfold keys. induction d as [| [k v] d IH]; simpl; [reflexivity |].
  f_equal. exact IH.
Qed.

Lemma values_map_shift {V} (by_ : Z) (d : list (Z * V)) :
  values (map (fun kv => (kv.1 + by_, kv.2)) d) = values d.
Proof.
  unfold values. induction d as [| [k v] d IH]; simpl; [reflexivity |].
  f_equal. exact IH.
Qed.

Lemma NoDup_map_shift (by_ : Z) (l : list Z) :
  NoDup l -> NoDup (map (fun k => k + by_) l).
Proof.
  intros H.
  assert (Hinj : Inj (=) (=) (fun k : Z => k + by_)) by (intros x y Hxy; lia).
  apply (NoDup_fmap_2 (fun k => k + by_)). exact H.
Qed.

Lemma np_max_is_Some (l : list Z) : l <> [] -> exists m, np_max l = Some m.
Proof. destruct l as [| x t]; [congruence | intros _; eexists; reflexivity]. Qed.

End KeySets.


Lemma seq_S_perm (n : nat) : seq 0 (S n) ≡ₚ n :: seq 0 n.
Proof. rewrite seq_S. simpl. symmetry. apply Permutation_cons_append. Qed.


Section BatchFacts.

Import Batch.
Context {State Action MaskT PolicyT ProxyT RewardT : Type}.
Abbreviation batch := (@Batch.t State Action MaskT PolicyT RewardT).
Implicit Types (b : batch) (e : @Env State).

Lemma wf_empty : wf (empty : batch).
Proof.
  constructor; try reflexivity; try apply NoDup_nil_2.
Qed.

(** What [is_valid] checks. *)
Lemma is_valid_spec b :
  is_valid b = true <->
  length (states b) = size b /\ length (actions b) = size b
  /\ length (done b) = size b /\ length (traj_indices b) = size b
  /\ length (state_indices b) = size b
  /\ set_of (traj_indices b) = set_of (keys (envs b))
  /\ set_of (keys (trajectories b)) = set_of (keys (envs b))
  /\ length (concat (values (trajectories b))) = size b
  /\ NoDup (concat (values (trajectories b))).
Proof.
  unfold is_valid.
  rewrite <- length_remove_dups_NoDup.
  repeat match goal with
  | |- context [(?x =? ?y)%nat] =>
      destruct (Nat.eqb_spec x y); simpl; [| split; [discriminate | intros; intuition congruence]]
  | |- context [bool_decide ?P] =>
      destruct (bool_decide_reflect P); simpl; [| split; [discriminate | intros; intuition congruence]]
  end.
  split; [intros _; intuition congruence | reflexivity].
Qed.

Lemma wf_is_valid b : wf b -> is_valid b = true.
Proof.
  intros [H1 H2 H3 H4 H5 H6 H7 H8 H9 H10]. apply is_valid_spec.
  repeat split; try assumption.
  - rewrite H10. apply length_seq.
  - rewrite H10. apply NoDup_seq.
Qed.

Ltac unfold_add_sample :=
  unfold add_sample, add_env, add_batch_index, add_indices, add_state, getkey;
  py_unfold.

Lemma add_sample_wf (backward train : bool) e (action : Action) (valid : bool)
    (mask : option MaskT) b b' :
  wf b ->
  add_sample backward train (e, action, valid, mask) b = Py.Ok b' tt ->
  wf b'.
Proof.
  intros [H1 H2 H3 H4 H5 H6 H7 H8 H9 H10]. unfold_add_sample.
  intros H. case_steps.
  all: try (constructor; assumption).
  all: constructor; simpl; rewrite ?length_app; simpl; try lia.
  all: try assumption.
  all: try (apply NoDup_keys_dict_set; assumption).
  all: try (rewrite ?set_of_snoc, ?set_of_keys_dict_set, ?H8, ?H9;
            first [reflexivity
                  | apply set_of_absorb, dict_mem_true; assumption]).
  all: change (0%nat :: seq 1 (size b)) with (seq 0 (S (size b)));
    rewrite seq_S_perm, <- H10; apply concat_values_dict_set.
  all: try (rewrite dict_get_of_not_mem by assumption; reflexivity).
  all: match goal with
       | H : dict_get _ _ = Some _ |- _ => rewrite H
       end.
  all: try reflexivity.
  all: symmetry; apply Permutation_cons_append.
Qed.

Variable get_mask_invalid_actions_forward : @Env State -> option MaskT.
Variable get_mask_invalid_actions_backward : @Env State -> option MaskT.
Variable extend_policy : PolicyT -> PolicyT -> PolicyT.
Variable extend_rewards : RewardT -> RewardT -> RewardT.
Abbreviation merge_optional := (merge_optional_data extend_policy extend_rewards).
Abbreviation merge_round := (merge_one extend_policy extend_rewards).
Abbreviation merge_ := (merge extend_policy extend_rewards).

Lemma wf_set_continuous (c : option bool) b : wf b -> wf (set_continuous c b).
Proof. intros [H1 H2 H3 H4 H5 H6 H7 H8 H9 H10]. constructor; assumption. Qed.

(** [add_to_batch] keeps the batch well formed. *)
Lemma add_to_batch_wf (envs_ : list (@Env State)) (actions_ : list Action)
    (valids : list bool) (masks : option (list (option MaskT)))
    (backward train : bool) b b' :
  wf b ->
  add_to_batch get_mask_invalid_actions_forward
    get_mask_invalid_actions_backward envs_ actions_ valids masks backward
    train b = Py.Ok b' tt ->
  wf b'.
Proof.
  intros Hwf. unfold add_to_batch. py_unfold.
  destruct (continuous b) as [c |].
  - apply for_invariant; [| exact Hwf].
    intros [[[e a] v] m] s s'. apply add_sample_wf.
  - destruct (envs_ !! 0%nat) as [e0 |]; simpl; [| discriminate].
    apply for_invariant; [| apply wf_set_continuous; exact Hwf].
    intros [[[e a] v] m] s s'. apply add_sample_wf.
Qed.

(** Every batch built from the empty one by calls of [add_to_batch] that
    returned is well formed, hence valid. *)
Lemma built_wf b :
  built get_mask_invalid_actions_forward get_mask_invalid_actions_backward b ->
  wf b.
Proof.
  induction 1 as [| b b' envs_ actions_ valids masks backward train _ IH Hrun].
  - apply wf_empty.
  - exact (add_to_batch_wf _ _ _ _ _ _ _ _ IH Hrun).
Qed.

(** In every such batch [parents] is a list. *)
Lemma add_sample_parents (backward train : bool) e (action : Action)
    (valid : bool) (mask : option MaskT) b b' :
  (exists ps, parents b = Some ps) ->
  add_sample backward train (e, action, valid, mask) b = Py.Ok b' tt ->
  exists ps, parents b' = Some ps.
Proof.
  intros [ps Hps]. unfold_add_sample.
  intros H. case_steps; simpl; eauto.
Qed.

Lemma built_parents b :
  built get_mask_invalid_actions_forward get_mask_invalid_actions_backward b ->
  exists ps, parents b = Some ps.
Proof.
  induction 1 as [| b b' envs_ actions_ valids masks backward train _ IH Hrun].
  - exists []. reflexivity.
  - revert Hrun. unfold add_to_batch. py_unfold.
    destruct (continuous b) as [c |].
    + apply (for_invariant (fun s => exists ps, parents s = Some ps));
        [| exact IH].
      intros [[[e a] v] m] s s'. apply add_sample_parents.
    + destruct (envs_ !! 0%nat) as [e0 |]; simpl; [| discriminate].
      apply (for_invariant (fun s => exists ps, parents s = Some ps));
        [| exact IH].
      intros [[[e a] v] m] s s'. apply add_sample_parents.
Qed.

Lemma shift_fields_wf (by_ : Z) b : wf b -> wf (shift_fields by_ b).
Proof.
  intros [H1 H2 H3 H4 H5 H6 H7 H8 H9 H10].
  assert (Ht : dict_of_items (map (fun kv => (kv.1 + by_, kv.2)) (trajectories b))
               = map (fun kv => (kv.1 + by_, kv.2)) (trajectories b)).
  { apply dict_of_items_nodup. rewrite keys_map_shift.
    apply NoDup_map_shift. exact H7. }
  assert (He : dict_of_items
                 (map (fun kv => (kv.1 + by_, set_id kv.2 (kv.1 + by_))) (envs b))
               = map (fun kv => (kv.1 + by_, set_id kv.2 (kv.1 + by_))) (envs b)).
  { apply dict_of_items_nodup.
    rewrite (keys_map_shift by_ (fun kv => set_id kv.2 (kv.1 + by_))).
    apply NoDup_map_shift. exact H6. }
  constructor; unfold shift_fields; simpl; rewrite ?Ht, ?He, ?length_map;
    try assumption.
  - rewrite (keys_map_shift by_ (fun kv => set_id kv.2 (kv.1 + by_))).
    apply NoDup_map_shift. exact H6.
  - rewrite (keys_map_shift by_ (fun kv => kv.2)).
    apply NoDup_map_shift. exact H7.
  - rewrite (keys_map_shift by_ (fun kv => set_id kv.2 (kv.1 + by_))).
    apply set_of_map. exact H8.
  - rewrite (keys_map_shift by_ (fun kv => set_id kv.2 (kv.1 + by_))).
    rewrite (keys_map_shift by_ (fun kv => kv.2)).
    apply set_of_map. exact H9.
  - rewrite values_map_shift. exact H10.
Qed.

(** On a well-formed batch the shift goes through. *)
Lemma shift_traj_indices_ok (by_ : Z) b :
  wf b -> _shift_traj_indices by_ b = Py.Ok (shift_fields by_ b) tt.
Proof.
  intros Hwf. unfold _shift_traj_indices. py_unfold.
  rewrite (wf_is_valid b Hwf). simpl.
  rewrite (wf_is_valid _ (shift_fields_wf by_ b Hwf)). reflexivity.
Qed.


Lemma shift_traj_indices_Ok_inv (by_ : Z) b b' :
  _shift_traj_indices by_ b = Py.Ok b' tt -> b' = shift_fields by_ b.
Proof.
  unfold _shift_traj_indices. py_unfold. intros H. case_steps. reflexivity.
Qed.

(** The block that merges the main data always returns; it adds the sizes
    and updates the dictionary of trajectories with that of the incoming
    batch, whose row-index lists it takes as they are. *)
Lemma merge_main_data_spec (batch_ : batch) b :
  exists b1,
    merge_main_data batch_ b = Py.Ok b1 tt
    /\ size b1 = (size b + size batch_)%nat
    /\ trajectories b1 = dict_update (trajectories b) (trajectories batch_)
    /\ rewards b1 = rewards b
    /\ rewards_available b1 = rewards_available b
    /\ masks_invalid_actions_forward b1 = masks_invalid_actions_forward b
    /\ masks_forward_available b1 = masks_forward_available b.
Proof. eexists. split; [reflexivity |]. simpl. auto 10. Qed.

(** The block that merges the optional data, returning or raising, leaves
    the size, the trajectories and every flag as they were. *)
Lemma merge_optional_data_frame (batch_ : batch) b :
  let b' := Py.final_state (merge_optional batch_ b) in
  size b' = size b /\ trajectories b' = trajectories b
  /\ rewards_available b' = rewards_available b
  /\ masks_forward_available b' = masks_forward_available b
  /\ masks_backward_available b' = masks_backward_available b
  /\ parents_available b' = parents_available b
  /\ parents_all_available b' = parents_all_available b.
Proof.
  unfold merge_optional_data, extend_lists, extend_tensors. py_unfold. simpl.
  repeat match goal with
         | |- context [if ?c then _ else _] => destruct c
         | |- context [match ?c with Some _ => _ | None => _ end] => destruct c
         end; simpl; auto 10.
Qed.

(** When the block returns, a cache that is not available on both sides is
    [None] (parents, parents_all, rewards) or, for the forward masks, what
    it was before the merge. *)
Lemma merge_optional_data_Ok (batch_ : batch) b b' :
  merge_optional batch_ b = Py.Ok b' tt ->
  (rewards_available b && rewards_available batch_ = false ->
     rewards b' = None)
  /\ (parents_all_available b && parents_all_available batch_ = false ->
     parents_all b' = None)
  /\ (parents_available b && parents_available batch_ = false ->
     parents b' = None)
  /\ (masks_forward_available b && masks_forward_available batch_ = false ->
     masks_invalid_actions_forward b' = masks_invalid_actions_forward b).
Proof.
  unfold merge_optional_data, extend_lists, extend_tensors. py_unfold.
  intros H. case_steps; repeat split; intros; simpl; congruence.
Qed.

(** A round of [merge] that returns has shifted the incoming batch and run
    both blocks on the shifted batch. *)


Lemma traj_idx_shift_of_Ok_inv b b' (sh : Z) :
  traj_idx_shift_of b = Py.Ok b' sh -> b' = b.
Proof.
  unfold traj_idx_shift_of. py_unfold. intros H. case_steps; reflexivity.
Qed.

Lemma merge_one_Ok_inv (batch_ : batch) b b' :
  merge_round batch_ b = Py.Ok b' tt ->
  exists sh b1,
    merge_main_data (shift_fields sh batch_) b = Py.Ok b1 tt
    /\ merge_optional (shift_fields sh batch_) b1 = Py.Ok b' tt.
Proof.
  unfold merge_one. intros H.
  apply bind_Ok_inv in H as (s1 & sh & Hsh & H).
  apply traj_idx_shift_of_Ok_inv in Hsh. subst s1.
  apply bind_Ok_inv in H as (s2 & [b2 []] & Hcall & H).
  apply call_on_Ok_inv in Hcall as [-> Hshift]. cbn [fst snd] in *.
  apply shift_traj_indices_Ok_inv in Hshift. subst b2.
  apply bind_Ok_inv in H as (b1 & [] & Hmain & H).
  exists sh, b1. split; assumption.
Qed.


Lemma elem_of_merged_rows (ta tb : list (Z * list nat)) (i : nat) :
  i ∈ concat (values (dict_update ta tb)) ->
  i ∈ concat (values ta) \/ i ∈ concat (values tb).
Proof.
  intros H. apply elem_of_concat in H as (l & Hl & Hi).
  apply elem_of_values_dict_update in Hl as [Hl | Hl]; [left | right];
    apply elem_of_concat; exists l; auto.
Qed.

(** A batch whose size is the sum of two positive sizes and whose row
    indices all lie below the larger of the two is not valid. *)
Lemma overlapping_rows_not_valid b (na nb : nat) :
  (0 < na)%nat -> (0 < nb)%nat -> size b = (na + nb)%nat ->
  Forall (fun i => (i < Nat.max na nb)%nat)
         (concat (values (trajectories b))) ->
  is_valid b = false.
Proof.
  intros Ha Hb Hsize Hrows. destruct (is_valid b) eqn:E; [| reflexivity].
  apply is_valid_spec in E as (_ & _ & _ & _ & _ & _ & _ & Hlen & Hnd).
  pose proof (NoDup_bounded_length _ _ Hnd Hrows). lia.
Qed.

Lemma wf_rows_bounded b (i : nat) :
  wf b -> i ∈ concat (values (trajectories b)) -> (i < size b)%nat.
Proof.
  intros Hwf Hi. rewrite (wf_rows b Hwf) in Hi.
  apply elem_of_seq in Hi. lia.
Qed.

Lemma wf_trajectories_nonempty b :
  wf b -> (0 < size b)%nat -> keys (trajectories b) <> [].
Proof.
  intros Hwf Hpos Hnil. pose proof (wf_rows b Hwf) as Hrows.
  unfold keys in Hnil. apply fmap_nil_inv in Hnil. rewrite Hnil in Hrows.
  simpl in Hrows. apply Permutation_length in Hrows.
  rewrite length_seq in Hrows. simpl in Hrows. lia.
Qed.

(** The round of [merge] on two well-formed, non-empty batches: whether it
    returns or raises, it leaves a batch that is not valid. *)
Lemma merge_one_nonempty (A B : batch) :
  wf A -> wf B -> (0 < size A)%nat -> (0 < size B)%nat ->
  is_valid (Py.final_state (merge_round B A)) = false.
Proof.
  intros HA HB HposA HposB. unfold merge_one.
  destruct (np_max_is_Some _ (wf_trajectories_nonempty A HA HposA)) as [m Hm].
  assert (Hsh : traj_idx_shift_of A = Py.Ok A (m + 1)).
  { unfold traj_idx_shift_of. py_unfold.
    destruct (Nat.eqb_spec (size A) 0); [lia |]. rewrite Hm. reflexivity. }
  rewrite (final_state_bind _ _ A A (m + 1) Hsh).
  assert (Hcall : Py.call_on B (_shift_traj_indices (m + 1)) A
                  = Py.Ok A (shift_fields (m + 1) B, tt)).
  { unfold Py.call_on. rewrite (shift_traj_indices_ok (m + 1) B HB). reflexivity. }
  rewrite (final_state_bind _ _ A A _ Hcall). cbn [fst].
  destruct (merge_main_data_spec (shift_fields (m + 1) B) A)
    as (A1 & Hmain & Hsize & Htraj & _).
  rewrite (final_state_bind _ _ A A1 tt Hmain).
  destruct (merge_optional_data_frame (shift_fields (m + 1) B) A1)
    as (Hsize' & Htraj' & _).
  apply (overlapping_rows_not_valid _ (size A) (size B) HposA HposB).
  - rewrite Hsize', Hsize. reflexivity.
  - rewrite Htraj', Htraj. apply Forall_forall. intros i Hi.
    apply elem_of_merged_rows in Hi as [Hi | Hi].
    + pose proof (wf_rows_bounded A i HA Hi). lia.
    + pose proof (wf_rows_bounded _ i (shift_fields_wf (m + 1) B HB) Hi) as Hlt.
      change (size (shift_fields (m + 1) B)) with (size B) in Hlt. lia.
Qed.

(** [merge] on two well-formed, non-empty batches raises, and the batch it
    leaves is not valid. *)
Lemma merge_nonempty (A B : batch) :
  wf A -> wf B -> (0 < size A)%nat -> (0 < size B)%nat ->
  exists A' ex, merge_ [B] A = Py.Raise A' ex /\ is_valid A' = false.
Proof.
  intros HA HB HposA HposB.
  pose proof (merge_one_nonempty A B HA HB HposA HposB) as Hinv.
  unfold merge. simpl. py_unfold.
  destruct (merge_round B A) as [A' [] | A' ex]; simpl in *.
  - exists A', Py.AssertionError. rewrite Hinv. auto.
  - exists A', ex. auto.
Qed.

Variable mask_forward_of : @Env State -> State -> bool -> MaskT.
Variable compute_rewards : batch -> RewardT.

(** A batch that [add_to_batch] returns from a well-formed batch is
    valid. *)
Lemma add_to_batch_valid (envs_ : list (@Env State)) (actions_ : list Action)
    (valids : list bool) (masks : option (list (option MaskT)))
    (backward train : bool) b b' :
  wf b ->
  add_to_batch get_mask_invalid_actions_forward
    get_mask_invalid_actions_backward envs_ actions_ valids masks backward
    train b = Py.Ok b' tt ->
  is_valid b' = true.
Proof.
  intros Hwf Hrun. apply wf_is_valid.
  exact (add_to_batch_wf _ _ _ _ _ _ _ _ Hwf Hrun).
Qed.

(** C1: the batch [merge] leaves is not valid when both batches hold rows.
    The incoming batch's row-index lists are spliced in as they are, so
    index 0 (at least) occurs twice among the row indices. *)
Theorem merge_leaves_invalid_batch (A B : batch) :
  wf A -> wf B -> (0 < size A)%nat -> (0 < size B)%nat ->
  is_valid (Py.final_state (merge_ [B] A)) = false.
Proof.
  intros HA HB HposA HposB.
  destruct (merge_nonempty A B HA HB HposA HposB) as (A' & ex & -> & Hinv).
  exact Hinv.
Qed.

(** C6: [merge] of two batches that both hold rows never returns: its
    closing [assert self.is_valid()] fails (or an earlier statement has
    raised). *)
Theorem merge_nonempty_raises (A B : batch) :
  wf A -> wf B -> (0 < size A)%nat -> (0 < size B)%nat ->
  Py.returned (merge_ [B] A) = false.
Proof.
  intros HA HB HposA HposB.
  destruct (merge_nonempty A B HA HB HposA HposB) as (A' & ex & -> & _).
  reflexivity.
Qed.

(** C7: where the rewards and the forward masks are available in the
    receiving batch only, the merged batch still flags them available; the
    rewards are [None] and the masks are those of the receiving batch
    alone, and both reads return them as they are, without recomputing. *)
Theorem merge_keeps_flags_of_dropped_caches (A B A' : batch) :
  Py.for_ merge_round [B] A = Py.Ok A' tt ->
  rewards_available A = true -> rewards_available B = false ->
  masks_forward_available A = true -> masks_forward_available B = false ->
  Py.final_state (merge_ [B] A) = A'
  /\ rewards_available A' = true /\ rewards A' = None
  /\ get_rewards compute_rewards false A' = Py.Ok A' None
  /\ masks_forward_available A' = true
  /\ masks_invalid_actions_forward A' = masks_invalid_actions_forward A
  /\ get_masks_forward mask_forward_of false A'
     = Py.Ok A' (masks_invalid_actions_forward A).
Proof.
  intros Hloop HrA HrB HmA HmB.
  assert (Hfinal : Py.final_state (merge_ [B] A) = A').
  { unfold merge. py_unfold. rewrite Hloop. destruct (is_valid A'); reflexivity. }
  simpl in Hloop.
  apply (bind_Ok_inv (merge_round B) (fun _ => Py.ret tt)) in Hloop
    as (A2 & [] & Hround & [= ->]).
  apply merge_one_Ok_inv in Hround as (sh & A1 & Hmain & Hopt).
  destruct (merge_main_data_spec (shift_fields sh B) A)
    as (A1' & Hmain' & _ & _ & Hr1 & Hra1 & Hm1 & Hma1).
  assert (A1' = A1) by congruence. subst A1'.
  destruct (merge_optional_data_frame (shift_fields sh B) A1)
    as (_ & _ & Hra & Hma & _).
  rewrite Hopt in Hra, Hma. simpl in Hra, Hma.
  destruct (merge_optional_data_Ok (shift_fields sh B) A1 A' Hopt)
    as (Hrew & _ & _ & Hmask).
  assert (Hra' : rewards_available A' = true) by congruence.
  assert (Hma' : masks_forward_available A' = true) by congruence.
  assert (Hrew' : rewards A' = None).
  { apply Hrew. rewrite Hra1, HrA. simpl. exact HrB. }
  assert (Hmask' : masks_invalid_actions_forward A'
                   = masks_invalid_actions_forward A).
  { rewrite Hmask; [exact Hm1 |]. rewrite Hma1, HmA. simpl. exact HmB. }
  repeat split; try assumption.
  - unfold get_rewards. py_unfold. rewrite Hra'. simpl. rewrite Hrew'. reflexivity.
  - unfold get_masks_forward. py_unfold. rewrite Hma'. simpl. rewrite Hmask'.
    reflexivity.
Qed.

Lemma rows_from_snoc (n : nat) (i : Z) log e :
  rows_from n i (log ++ [e])
  = rows_from n i log
    ++ (if env_id e =? i then [(n + length log)%nat] else []).
Proof.
  revert n. induction log as [| e' log IH]; intros n; simpl.
  - rewrite Nat.add_0_r. destruct (env_id e =? i); reflexivity.
  - rewrite IH. replace (S n + length log)%nat with (n + S (length log))%nat by lia.
    destruct (env_id e' =? i); reflexivity.
Qed.

(** A new row goes to the front of the list of its trajectory. *)
Lemma rows_rev_snoc (i : Z) log e :
  rows_rev i (log ++ [e])
  = if env_id e =? i then length log :: rows_rev i log else rows_rev i log.
Proof.
  unfold rows_rev. rewrite rows_from_snoc. destruct (env_id e =? i).
  - rewrite reverse_app. reflexivity.
  - rewrite app_nil_r. reflexivity.
Qed.

Lemma previous_env_snoc (i : Z) log e :
  previous_env i (log ++ [e])
  = if env_id e =? i then Some e else previous_env i log.
Proof.
  unfold previous_env. rewrite filter_app. simpl.
  rewrite filter_cons, filter_nil.
  destruct (Z.eqb_spec (env_id e) i) as [Heq | Hne].
  - destruct (decide (env_id e = i)); [| contradiction]. apply last_snoc.
  - destruct (decide (env_id e = i)); [contradiction |].
    rewrite app_nil_r. reflexivity.
Qed.

(** The first entry of the list of a trajectory is the row of its latest
    environment. *)
Lemma rows_rev_head (i : Z) log :
  match rows_rev i log with
  | [] => previous_env i log = None
  | j :: _ => exists e', previous_env i log = Some e' /\ log !! j = Some e'
  end.
Proof.
  induction log as [| e log IH] using rev_ind; [reflexivity |].
  rewrite rows_rev_snoc, previous_env_snoc.
  destruct (env_id e =? i).
  - exists e. split; [reflexivity |]. apply list_lookup_middle. reflexivity.
  - destruct (rows_rev i log) as [| j l]; [exact IH |].
    destruct IH as (e' & Hp & Hj). exists e'. split; [exact Hp |].
    apply lookup_app_l_Some. exact Hj.
Qed.

Lemma backward_built_empty : backward_built [] (empty : batch).
Proof. constructor; reflexivity. Qed.

Lemma backward_built_set_continuous (c : option bool) log b :
  backward_built log b -> backward_built log (set_continuous c b).
Proof. intros [H1 H2 H3 H4 H5]. constructor; assumption. Qed.

Lemma backward_trajectories_step (trajs : list (Z * list nat)) log e :
  (forall i, dict_get i trajs
             = match rows_rev i log with [] => None | l => Some l end) ->
  forall i,
    dict_get i (dict_set (env_id e) (length log :: rows_rev (env_id e) log) trajs)
    = match rows_rev i (log ++ [e]) with [] => None | l => Some l end.
Proof.
  intros Htraj i. rewrite rows_rev_snoc.
  destruct (Z.eqb_spec (env_id e) i) as [<- | Hne].
  - apply dict_get_set_eq.
  - rewrite dict_get_set_ne by exact Hne. apply Htraj.
Qed.

Lemma lookup_new_row {A} (l : list A) (x : A) (n : nat) :
  length l = n -> (l ++ [x]) !! n = Some x.
Proof. intros <-. apply list_lookup_middle. reflexivity. Qed.

(** A valid backward tuple on a batch built backward: the call returns,
    the batch stays built backward, and the new row is as follows. *)
Lemma backward_row_added (train : bool) e (action : Action)
    (mask : option MaskT) log b :
  backward_built log b ->
  stored train e true = true ->
  exists b',
    add_sample true train (e, action, true, mask) b = Py.Ok b' tt
    /\ backward_built (log ++ [e]) b'
    /\ dict_get (env_id e) (trajectories b')
       = Some (size b :: rows_rev (env_id e) log)
    /\ match previous_env (env_id e) log with
       | None =>
           states b' !! size b = Some (env_state e)
           /\ done b' !! size b = Some true
       | Some e_prev =>
           states b' !! size b = Some (env_state e_prev)
           /\ done b' !! size b = Some (env_done e)
       end.
Proof.
  intros [Hsize Hstates Hdone Hparents Htraj] Hstored.
  unfold stored in Hstored. rewrite andb_true_r in Hstored.
  apply negb_true_iff in Hstored.
  pose proof (Htraj (env_id e)) as Hmine.
  pose proof (rows_rev_head (env_id e) log) as Hhead.
  pose proof (backward_trajectories_step _ log e Htraj) as Hstep.
  unfold_add_sample. rewrite Hstored. simpl.
  destruct (dict_mem (env_id e) (trajectories b)) eqn:Emem.
  - apply dict_mem_get in Emem as [l Hl]. rewrite Hl in Hmine.
    destruct (rows_rev (env_id e) log) as [| j l'] eqn:Erows; [discriminate |].
    injection Hmine as ->. destruct Hhead as (e_prev & Hprev & Hj).
    rewrite Hprev.
    assert (Hpj : (map env_state log ++ [env_state e]) !! j
                  = Some (env_state e_prev)).
    { apply lookup_app_l_Some. rewrite list_lookup_fmap, Hj. reflexivity. }
    destruct (dict_mem (env_id e) (envs b)); simpl;
      rewrite ?(dict_get_Some_mem _ _ _ Hl); simpl; rewrite Hl; simpl;
      rewrite Hparents; simpl; rewrite dict_get_set_eq; simpl;
      rewrite Hpj; simpl.
    all: eexists; split; [reflexivity |]; simpl.
    all: split; [constructor; simpl; rewrite ?length_app; simpl; try lia |].
    all: try (rewrite map_app; reflexivity).
    all: try (rewrite Hsize; exact Hstep).
    all: rewrite dict_get_set_eq, Hsize.
    all: rewrite !lookup_new_row by assumption; auto.
  - apply dict_mem_false, dict_get_None in Emem. rewrite Emem in Hmine.
    destruct (rows_rev (env_id e) log) as [| j l'] eqn:Erows; [| discriminate].
    rewrite Hhead.
    destruct (dict_mem (env_id e) (envs b)); simpl;
      rewrite ?(proj2 (dict_mem_false _ _) (proj1 (dict_get_None _ _) Emem));
      simpl; rewrite Hparents; simpl; rewrite dict_get_set_eq; simpl.
    all: eexists; split; [reflexivity |]; simpl.
    all: split; [constructor; simpl; rewrite ?length_app; simpl; try lia |].
    all: try (rewrite map_app; reflexivity).
    all: try (rewrite Hsize; exact Hstep).
    all: rewrite dict_get_set_eq, Hsize.
    all: rewrite !lookup_new_row by assumption; auto.
Qed.

(** The first row of a trajectory, in any batch whose [parents] is a
    list: the call returns, the row stores the state of the environment
    and [done = True], whatever the environment's own flag. *)
Lemma backward_first_row (train : bool) e (action : Action)
    (mask : option MaskT) b ps :
  parents b = Some ps ->
  stored train e true = true ->
  dict_get (env_id e) (trajectories b) = None ->
  exists b',
    add_sample true train (e, action, true, mask) b = Py.Ok b' tt
    /\ dict_get (env_id e) (trajectories b') = Some [size b]
    /\ states b' = states b ++ [env_state e]
    /\ done b' = done b ++ [true]
    /\ parents b' = Some (ps ++ [env_state e])
    /\ size b' = S (size b).
Proof.
  intros Hparents Hstored Hnew.
  unfold stored in Hstored. rewrite andb_true_r in Hstored.
  apply negb_true_iff in Hstored.
  pose proof (proj2 (dict_mem_false _ _) (proj1 (dict_get_None _ _) Hnew))
    as Hmem.
  unfold_add_sample. rewrite Hstored. simpl.
  destruct (dict_mem (env_id e) (envs b)); simpl; rewrite Hmem; simpl;
    rewrite Hparents; simpl; rewrite dict_get_set_eq; simpl.
  all: eexists; split; [reflexivity |]; simpl.
  all: rewrite dict_get_set_eq; auto.
Qed.

(** A later row of a trajectory whose list begins with row [j], in any
    batch whose [parents] is a list: the index of the new row goes to the
    front of the list, and the state stored is entry [j] of [parents], as
    the call has extended it; without such an entry the call raises
    [IndexError] after it has changed the trajectory. *)
Lemma backward_later_row (train : bool) e (action : Action)
    (mask : option MaskT) b ps (j : nat) (l : list nat) :
  parents b = Some ps ->
  stored train e true = true ->
  dict_get (env_id e) (trajectories b) = Some (j :: l) ->
  dict_get (env_id e)
    (trajectories
       (Py.final_state (add_sample true train (e, action, true, mask) b)))
  = Some (size b :: j :: l)
  /\ match (ps ++ [env_state e]) !! j with
     | Some p =>
         exists b',
           add_sample true train (e, action, true, mask) b = Py.Ok b' tt
           /\ states b' = states b ++ [p]
           /\ done b' = done b ++ [env_done e]
     | None =>
         exists b',
           add_sample true train (e, action, true, mask) b
           = Py.Raise b' Py.IndexError
           /\ states b' = states b
           /\ traj_indices b' = traj_indices b ++ [env_id e]
           /\ size b' = size b
     end.
Proof.
  intros Hparents Hstored Hold.
  unfold stored in Hstored. rewrite andb_true_r in Hstored.
  apply negb_true_iff in Hstored.
  pose proof (dict_get_Some_mem _ _ _ Hold) as Hmem.
  unfold_add_sample. rewrite Hstored. simpl.
  destruct (dict_mem (env_id e) (envs b)); simpl; rewrite Hmem; simpl;
    rewrite Hold; simpl; rewrite Hparents; simpl;
    rewrite dict_get_set_eq; simpl;
    destruct ((ps ++ [env_state e]) !! j) as [p |]; simpl.
  all: rewrite dict_get_set_eq.
  all: split; [reflexivity |].
  all: eexists; split; [reflexivity |]; simpl; auto.
Qed.

(** C4: backward rows added after forward rows. In a well-formed batch
    that holds forward rows only (its [parents] is empty), two valid
    backward tuples of a new trajectory are added in turn, the
    environment holding one state at the first and another at the
    second. The first row stores the state of the environment and
    [done = True], and the index of the second row goes to the front of
    the list of the trajectory, as specified. The state stored with the
    second row is not the previous state in the trajectory, the one the
    environment had at the first row: after one forward row it is the
    state the environment has now; after two or more the call raises
    [IndexError] and leaves a batch that is not valid. *)
Theorem backward_rows_after_forward_rows (train : bool) e1 e2
    (a1 a2 : Action) (m1 m2 : option MaskT) b0 :
  wf b0 -> parents b0 = Some [] -> (0 < size b0)%nat ->
  dict_get (env_id e1) (trajectories b0) = None ->
  env_id e2 = env_id e1 ->
  stored train e1 true = true -> stored train e2 true = true ->
  env_state e2 <> env_state e1 ->
  exists b1,
    add_sample true train (e1, a1, true, m1) b0 = Py.Ok b1 tt
    /\ states b1 !! size b0 = Some (env_state e1)
    /\ done b1 !! size b0 = Some true
    /\ dict_get (env_id e1)
         (trajectories
            (Py.final_state (add_sample true train (e2, a2, true, m2) b1)))
       = Some [S (size b0); size b0]
    /\ match add_sample true train (e2, a2, true, m2) b1 with
       | Py.Ok b2 _ =>
           size b0 = 1%nat
           /\ states b2 !! S (size b0) = Some (env_state e2)
           /\ states b2 !! S (size b0) <> Some (env_state e1)
           /\ done b2 !! S (size b0) = Some (env_done e2)
       | Py.Raise b2 ex =>
           (2 <= size b0)%nat /\ ex = Py.IndexError /\ is_valid b2 = false
       end.
Proof.
  intros Hwf Hparents Hpos Hnew Hid Hs1 Hs2 Hne.
  destruct (backward_first_row train e1 a1 m1 b0 [] Hparents Hs1 Hnew)
    as (b1 & Hrun1 & Htraj1 & Hst1 & Hd1 & Hp1 & Hsize1).
  pose proof (add_sample_wf _ _ _ _ _ _ _ _ Hwf Hrun1) as Hwf1.
  exists b1. split; [exact Hrun1 |].
  split; [rewrite Hst1; apply lookup_new_row, (wf_states _ Hwf) |].
  split; [rewrite Hd1; apply lookup_new_row, (wf_done _ Hwf) |].
  rewrite <- Hid in Htraj1.
  destruct (backward_later_row train e2 a2 m2 b1 _ (size b0) [] Hp1 Hs2 Htraj1)
    as (Htraj2 & Hrow).
  rewrite Hsize1, Hid in Htraj2. split; [exact Htraj2 |].
  destruct (size b0) as [| [| n]] eqn:En; [lia | |];
    cbn [app lookup list_lookup] in Hrow.
  - destruct Hrow as (b2 & Hrun2 & Hst2 & Hd2). rewrite Hrun2.
    pose proof (wf_states _ Hwf1) as Hl1. pose proof (wf_done _ Hwf1) as Hl2.
    rewrite Hsize1 in Hl1, Hl2.
    split; [reflexivity |]. rewrite Hst2, Hd2.
    rewrite !lookup_new_row by assumption.
    repeat split; congruence.
  - destruct Hrow as (b2 & Hrun2 & Hst2 & Hti2 & Hsize2). rewrite Hrun2.
    split; [lia |]. split; [reflexivity |].
    unfold is_valid.
    rewrite Hst2, Hsize2, (wf_states _ Hwf1), Nat.eqb_refl. simpl.
    destruct (negb (length (actions b2) =? size b1)%nat); [reflexivity |].
    destruct (negb (length (done b2) =? size b1)%nat); [reflexivity |].
    rewrite Hti2, length_app, (wf_traj_indices _ Hwf1). simpl.
    replace (size b1 + 1 =? size b1)%nat with false
      by (symmetry; apply Nat.eqb_neq; lia).
    reflexivity.
Qed.

End BatchFacts.

(** ** Sample batches *)

Lemma one_row_A_wf : Batch.wf BatchEx.one_row_A.
Proof.
  apply (add_to_batch_wf BatchEx.no_mask BatchEx.no_mask
           [BatchEx.mk_env 0 7 true] [1] [true] None false true Batch.empty).
  - apply wf_empty.
  - vm_compute. reflexivity.
Qed.

Lemma one_row_B_wf : Batch.wf BatchEx.one_row_B.
Proof.
  apply (add_to_batch_wf BatchEx.no_mask BatchEx.no_mask
           [BatchEx.mk_env 0 8 true] [1] [true] None false true Batch.empty).
  - apply wf_empty.
  - vm_compute. reflexivity.
Qed.

Lemma merge_leaves_invalid_batch_witness :
  Batch.is_valid
    (Py.final_state
       (Batch.merge BatchEx.ext_unit BatchEx.ext_list [BatchEx.one_row_B]
          BatchEx.one_row_A)) = false.
Proof.
  apply (merge_leaves_invalid_batch BatchEx.ext_unit BatchEx.ext_list
           BatchEx.one_row_A BatchEx.one_row_B).
  - apply one_row_A_wf.
  - apply one_row_B_wf.
  - simpl. lia.
  - simpl. lia.
Defined.

Lemma merge_nonempty_raises_witness :
  Py.returned
    (Batch.merge BatchEx.ext_unit BatchEx.ext_list [BatchEx.one_row_B]
       BatchEx.one_row_A) = false.
Proof.
  apply (merge_nonempty_raises BatchEx.ext_unit BatchEx.ext_list
           BatchEx.one_row_A BatchEx.one_row_B).
  - apply one_row_A_wf.
  - apply one_row_B_wf.
  - simpl. lia.
  - simpl. lia.
Defined.

(** Merging two batches of one row each: the ids are re-numbered 0 and 1,
    both trajectories keep row index 0, and the closing assertion fails. *)
Example merge_one_row_batches :
  match Batch.merge BatchEx.ext_unit BatchEx.ext_list [BatchEx.one_row_B]
          BatchEx.one_row_A with
  | Py.Raise A' ex =>
      (ex, Batch.size A', Batch.trajectories A', Batch.is_valid A')
  | Py.Ok A' _ => (Py.KeyError, 0%nat, [], true)
  end = (Py.AssertionError, 2%nat, [(0, [0%nat]); (1, [0%nat])], false).
Proof. vm_compute. reflexivity. Qed.

Lemma merge_keeps_flags_of_dropped_caches_witness :
  Py.final_state
    (Batch.merge BatchEx.ext_unit BatchEx.ext_list [BatchEx.one_row_B]
       BatchEx.with_caches) = BatchEx.merged_caches
  /\ Batch.rewards_available BatchEx.merged_caches = true
  /\ Batch.rewards BatchEx.merged_caches = None
  /\ Batch.get_rewards BatchEx.zero_rewards false BatchEx.merged_caches
     = Py.Ok BatchEx.merged_caches None
  /\ Batch.masks_forward_available BatchEx.merged_caches = true
  /\ Batch.masks_invalid_actions_forward BatchEx.merged_caches
     = Batch.masks_invalid_actions_forward BatchEx.with_caches
  /\ Batch.get_masks_forward BatchEx.unit_mask false BatchEx.merged_caches
     = Py.Ok BatchEx.merged_caches
         (Batch.masks_invalid_actions_forward BatchEx.with_caches).
Proof.
  apply (merge_keeps_flags_of_dropped_caches BatchEx.ext_unit BatchEx.ext_list
           BatchEx.unit_mask BatchEx.zero_rewards BatchEx.with_caches
           BatchEx.one_row_B BatchEx.merged_caches).
  - vm_compute. reflexivity.
  - reflexivity.
  - reflexivity.
  - reflexivity.
  - reflexivity.
Defined.

(** The merged batch of the example holds two rows and one stale mask. *)
Example merged_caches_sizes :
  Batch.size BatchEx.merged_caches = 2%nat
  /\ Batch.masks_invalid_actions_forward BatchEx.merged_caches = [Some tt]
  /\ Batch.rewards BatchEx.with_caches = Some [0].
Proof. vm_compute. auto. Qed.

Lemma back_one_built : Batch.backward_built [BatchEx.back_env1] BatchEx.back_one.
Proof.
  destruct (backward_row_added (MaskT := unit) (PolicyT := unit)
              (RewardT := list Z) true BatchEx.back_env1 9 None []
              (Batch.set_continuous (Some false) Batch.empty)
              (backward_built_set_continuous _ _ _ backward_built_empty)
              eq_refl)
    as (b' & Hrun & Hbuilt & _).
  vm_compute in Hrun. injection Hrun as <-. exact Hbuilt.
Qed.

Lemma forward_one_wf : Batch.wf BatchEx.forward_one.
Proof.
  apply (add_to_batch_wf BatchEx.no_mask BatchEx.no_mask
           [BatchEx.mk_env 5 50 false] [1] [true] None false true Batch.empty).
  - apply wf_empty.
  - vm_compute. reflexivity.
Qed.

Lemma backward_rows_after_forward_rows_witness :
  exists b1,
    Batch.add_sample true true (BatchEx.back_env1, 9, true, None)
      BatchEx.forward_one = Py.Ok b1 tt
    /\ Batch.states b1 !! 1%nat = Some 71
    /\ Batch.done b1 !! 1%nat = Some true
    /\ Batch.dict_get 7
         (Batch.trajectories
            (Py.final_state
               (Batch.add_sample true true (BatchEx.back_env2, 3, true, None)
                  b1)))
       = Some [2%nat; 1%nat]
    /\ match Batch.add_sample true true (BatchEx.back_env2, 3, true, None) b1
       with
       | Py.Ok b2 _ =>
           1%nat = 1%nat
           /\ Batch.states b2 !! 2%nat = Some 72
           /\ Batch.states b2 !! 2%nat <> Some 71
           /\ Batch.done b2 !! 2%nat = Some false
       | Py.Raise b2 ex =>
           (2 <= 1)%nat /\ ex = Py.IndexError /\ Batch.is_valid b2 = false
       end.
Proof.
  apply (backward_rows_after_forward_rows (MaskT := unit) (PolicyT := unit)
           (RewardT := list Z) true BatchEx.back_env1 BatchEx.back_env2 9 3
           None None BatchEx.forward_one).
  - apply forward_one_wf.
  - reflexivity.
  - simpl. lia.
  - reflexivity.
  - reflexivity.
  - reflexivity.
  - reflexivity.
  - discriminate.
Defined.

(** The same on pure backward sampling, where the second row does store
    the previous state, 71. *)
Example add_backward_row_built_backward :
  exists b',
    Batch.add_sample true true (BatchEx.back_env2, 3, true, None)
      BatchEx.back_one = Py.Ok b' tt
    /\ Batch.dict_get 7 (Batch.trajectories b') = Some [1%nat; 0%nat]
    /\ Batch.states b' !! 1%nat = Some 71
    /\ Batch.done b' !! 1%nat = Some false.
Proof.
  destruct (backward_row_added (MaskT := unit) (PolicyT := unit)
              (RewardT := list Z) true BatchEx.back_env2 3 None
              [BatchEx.back_env1] BatchEx.back_one back_one_built eq_refl)
    as (b' & Hrun & _ & Htraj & Hrow).
  exists b'. split; [exact Hrun |]. split; [exact Htraj |]. exact Hrow.
Qed.

(** The batch of three rows this leaves: the second backward row of
    trajectory 7 is at the front of the list of the trajectory, whose
    previous row holds state 71, but the state stored with it is 72, the
    state of the environment after the step. *)
Lemma backward_row_after_forward_row :
  Batch.dict_get 7 (Batch.trajectories BatchEx.mixed_three)
  = Some [2%nat; 1%nat]
  /\ Batch.states BatchEx.mixed_three !! 1%nat
     = Some (Batch.env_state BatchEx.back_env1)
  /\ Batch.states BatchEx.mixed_three !! 2%nat
     = Some (Batch.env_state BatchEx.back_env2)
  /\ Batch.states BatchEx.mixed_three !! 2%nat
     <> Some (Batch.env_state BatchEx.back_env1).
Proof. vm_compute. repeat split; discriminate. Qed.

(** A backward row for a trajectory that began forward, in a batch of two
    forward rows: [self.parents] has one entry, the look-up at row 1 raises
    [IndexError], and the batch is left half-updated, hence not valid. *)
Example add_backward_to_forward_rows :
  match BatchEx.add [BatchEx.mk_env 1 30 false] [4] [true] true
          (BatchEx.after
             (BatchEx.add [BatchEx.mk_env 0 10 false; BatchEx.mk_env 1 20 false]
                [2; 2] [true; true] false)
             Batch.empty) with
  | Py.Raise b ex => (ex, Batch.is_valid b)
  | Py.Ok b _ => (Py.KeyError, Batch.is_valid b)
  end = (Py.IndexError, false).
Proof. vm_compute. reflexivity. Qed.

(** ** [states2proxy] on a conditional batch *)

Section ProxyFacts.

Import Batch.
Context {State Action MaskT PolicyT ProxyT RewardT : Type}.
Abbreviation cbatch := (@Batch.t State Action MaskT PolicyT RewardT).
Implicit Types (b : cbatch).
Variable statebatch2proxy : @Env State -> list State -> ProxyT.
Variable concat_items : list ProxyT -> list nat -> ProxyT.
Abbreviation round := (states2proxy_round (RewardT := RewardT)
                         (PolicyT := PolicyT) (MaskT := MaskT)
                         (Action := Action) statebatch2proxy).

(** A round of the conditional loop returns only when it skips its
    trajectory: a round that converts states goes on to read [env_ids]. *)
Lemma states2proxy_round_Ok_inv (states_ : list State)
    (traj_indices_ : option (list Z)) (traj_idx : Z)
    (acc acc' : list ProxyT * list (list nat)) b b' :
  round states_ traj_indices_ traj_idx acc b = Py.Ok b' acc' ->
  b' = b /\ acc' = acc.
Proof.
  unfold states2proxy_round, get_states_of_trajectory, getkey. py_unfold.
  intros H. case_steps; auto.
Qed.

Lemma states2proxy_loop_Ok_inv (states_ : list State)
    (traj_indices_ : option (list Z)) (ks : list Z)
    (acc acc' : list ProxyT * list (list nat)) b b' :
  Py.for_acc (round states_ traj_indices_) ks acc b = Py.Ok b' acc' ->
  b' = b /\ acc' = acc.
Proof.
  revert acc b. induction ks as [| k ks IH]; intros acc b H; simpl in H.
  - injection H as <- <-. auto.
  - unfold Py.bind in H.
    destruct (round states_ traj_indices_ k acc b) as [b1 acc1 | b1 ex] eqn:E;
      [| discriminate].
    apply states2proxy_round_Ok_inv in E as [-> ->]. apply IH. exact H.
Qed.

(** C8: on a conditional batch [states2proxy], called with its default
    arguments, never returns: either a round of its loop raises, or every
    round skips and [torch.cat] is handed an empty list. *)
Theorem states2proxy_conditional_raises b :
  conditional b = Some true ->
  Py.returned (states2proxy statebatch2proxy concat_items None None b) = false.
Proof.
  intros Hc. unfold states2proxy. py_unfold. rewrite Hc. simpl.
  destruct (Py.for_acc _ _ _ b) as [b' acc | b' ex] eqn:E; [| reflexivity].
  apply states2proxy_loop_Ok_inv in E as [-> ->]. reflexivity.
Qed.

(** On a valid conditional batch that holds rows, the first round of the
    loop already fails on the unbound name. *)
Lemma states2proxy_valid_conditional_NameError b :
  is_valid b = true -> (0 < size b)%nat -> conditional b = Some true ->
  states2proxy statebatch2proxy concat_items None None b
  = Py.Raise b (Py.NameError "env_ids").
Proof.
  intros Hv Hpos Hc.
  apply is_valid_spec in Hv as (Hs & _ & _ & Hti & _ & Hids & Htids & _ & _).
  assert (Hfrom_ti : forall i, i ∈ traj_indices b -> i ∈ keys (trajectories b)).
  { intros i Hi. apply (elem_of_list_to_set (C := gset Z)).
    fold (set_of (keys (trajectories b))). rewrite Htids, <- Hids.
    apply elem_of_list_to_set. exact Hi. }
  assert (Hto_ti : forall k, k ∈ keys (trajectories b) -> k ∈ traj_indices b).
  { intros k Hk. apply (elem_of_list_to_set (C := gset Z)).
    fold (set_of (traj_indices b)). rewrite Hids, <- Htids.
    apply elem_of_list_to_set. exact Hk. }
  assert (Hto_envs : forall k, k ∈ keys (trajectories b) -> k ∈ keys (envs b)).
  { intros k Hk. apply (elem_of_list_to_set (C := gset Z)).
    fold (set_of (keys (envs b))). rewrite <- Htids.
    apply elem_of_list_to_set. exact Hk. }
  destruct (keys (trajectories b)) as [| k ks] eqn:Ek.
  - exfalso. destruct (traj_indices b) as [| i ti];
      [simpl in Hti; lia |].
    specialize (Hfrom_ti i ltac:(left)). inversion Hfrom_ti.
  - assert (Hkt : k ∈ traj_indices b) by (apply Hto_ti; left).
    destruct (dict_mem_get k (envs b)) as [e He].
    { apply dict_mem_true, Hto_envs. left. }
    unfold states2proxy. py_unfold. rewrite Hc, Ek. simpl.
    unfold Py.bind, states2proxy_round, get_states_of_trajectory, getkey.
    py_unfold. rewrite (bool_decide_eq_true_2 _ Hkt). simpl.
    rewrite He. simpl. rewrite Hs, Hti, Nat.eqb_refl. reflexivity.
Qed.

End ProxyFacts.

Lemma states2proxy_conditional_raises_witness :
  Py.returned
    (Batch.states2proxy BatchEx.proxy_rows BatchEx.concat_rows None None
       BatchEx.conditional_one_row) = false.
Proof.
  apply (states2proxy_conditional_raises BatchEx.proxy_rows BatchEx.concat_rows
           BatchEx.conditional_one_row).
  reflexivity.
Defined.

(** On the one-row conditional batch the loop converts the states of
    trajectory 0 and then fails on the unbound name. *)
Example states2proxy_one_row :
  Batch.states2proxy BatchEx.proxy_rows BatchEx.concat_rows None None
    BatchEx.conditional_one_row
  = Py.Raise BatchEx.conditional_one_row (Py.NameError "env_ids").
Proof. vm_compute. reflexivity. Qed.

(** ** Reward shaping: floor, order and the other round trip *)

Section RewardMore.

Import Reward.
Open Scope R_scope.

(** X1: a finite reward is never below [min_reward]; with the positive
    floor the constructor asserts, it is strictly positive. *)
Theorem proxy2reward_floor (e : env) (v r : R) :
  proxy2reward e v = Value r ->
  min_reward e <= r /\ (0 < min_reward e -> 0 < r).
Proof.
  unfold proxy2reward, proxy2reward_of.
  destruct (shaped_of e (Value v)) as [s | | | |]; simpl; try discriminate.
  - intros [= <-]. pose proof (Rmax_r s (min_reward e)).
    split; [assumption | lra].
  - intros [= <-]. split; [lra | auto].
Qed.

Lemma exp_le_mono (x y : R) : x <= y -> exp x <= exp y.
Proof.
  intros [Hlt | ->]; [left; apply exp_increasing; exact Hlt | right; reflexivity].
Qed.

(** *** The operations keep the order *)

Lemma fl_mono (a b : R) : a <= b -> ole (fl a) (fl b).
Proof.
  intros Hab. pose proof float_bounds as (H0 & H1 & H2 & H3 & H4).
  unfold fl.
  destruct (Rle_dec overflow_at a), (Rle_dec overflow_at b); simpl; try lra;
    destruct (Rle_dec a (- overflow_at)), (Rle_dec b (- overflow_at));
    simpl; try lra; auto;
    try (destruct (Rle_dec (Rabs b) underflow_at); simpl; auto; fail);
    destruct (Rle_dec (Rabs a) underflow_at) as [Ha | Ha],
             (Rle_dec (Rabs b) underflow_at) as [Hb | Hb];
    simpl; try lra;
    revert Ha Hb; unfold Rabs;
    destruct (Rcase_abs a), (Rcase_abs b); intros; lra.
Qed.

Lemma ole_fl_PosInf (a : R) : ole (fl a) PosInf.
Proof.
  unfold fl.
  destruct (Rle_dec overflow_at a); simpl; auto.
  destruct (Rle_dec a (- overflow_at)); simpl; auto.
  destruct (Rle_dec (Rabs a) underflow_at); simpl; auto.
Qed.

Lemma ole_NegInf_fl (a : R) : ole NegInf (fl a).
Proof.
  unfold fl.
  destruct (Rle_dec overflow_at a); simpl; auto.
  destruct (Rle_dec a (- overflow_at)); simpl; auto.
  destruct (Rle_dec (Rabs a) underflow_at); simpl; auto.
Qed.

Lemma ole_0_fl (a : R) : 0 < a -> ole (Value 0) (fl a).
Proof.
  intros Ha. destruct (fl_pos a Ha) as [E | [E | E]]; rewrite E; simpl; lra.
Qed.

Lemma np_scale_anti (c : R) (x y : outcome) :
  c < 0 -> ole x y -> ole (np_scale c y) (np_scale c x).
Proof.
  intros Hc.
  destruct x as [a | | | |], y as [b | | | |]; simpl; try tauto; intros Hxy;
    repeat (match goal with
            | |- context [Rlt_dec ?p ?q] => destruct (Rlt_dec p q); try lra
            end); simpl;
    first [ apply fl_mono; nra | apply ole_fl_PosInf | apply ole_NegInf_fl
          | exact I | lra ].
Qed.

Lemma np_div_mono (c : R) (x y : outcome) :
  0 < c -> ole x y -> ole (np_div x c) (np_div y c).
Proof.
  intros Hc.
  destruct x as [a | | | |], y as [b | | | |]; simpl; try tauto; intros Hxy;
    repeat (match goal with
            | |- context [Req_dec_T ?p ?q] => destruct (Req_dec_T p q); try lra
            | |- context [Rlt_dec ?p ?q] => destruct (Rlt_dec p q); try lra
            end); simpl;
    first [ apply fl_mono; apply Rmult_le_compat_r;
            [left; apply Rinv_0_lt_compat; exact Hc | exact Hxy]
          | apply ole_fl_PosInf | apply ole_NegInf_fl | exact I | lra ].
Qed.

Lemma np_power_mono (y : R) (x1 x2 : outcome) :
  0 < y -> ole (Value 0) x1 -> ole x1 x2 ->
  ole (np_power x1 y) (np_power x2 y).
Proof.
  intros Hy.
  destruct x1 as [a | | | |], x2 as [b | | | |]; simpl; try tauto;
    intros H0 H12;
    repeat (match goal with
            | |- context [Rlt_dec ?p ?q] => destruct (Rlt_dec p q); try lra
            | |- context [Req_dec_T ?p ?q] => destruct (Req_dec_T p q); try lra
            end); simpl;
    first [ apply fl_mono; apply Rle_Rpower_l; lra
          | apply ole_0_fl; unfold Rpower; apply exp_pos
          | apply ole_fl_PosInf | exact I | lra ].
Qed.

Lemma np_exp_mono (x y : outcome) : ole x y -> ole (np_exp x) (np_exp y).
Proof.
  destruct x as [a | | | |], y as [b | | | |]; simpl; try tauto; intros Hxy;
    first [ apply fl_mono, exp_le_mono, Hxy | apply ole_0_fl, exp_pos
          | apply ole_fl_PosInf | exact I | lra ].
Qed.

Lemma np_clip_min_mono (lo : R) (x y : outcome) :
  ole x y -> ole (np_clip_min x lo) (np_clip_min y lo).
Proof.
  destruct x as [a | | | |], y as [b | | | |]; simpl; try tauto; intros Hxy;
    first [ apply Rle_max_compat_r; exact Hxy | apply Rmax_r | exact I | lra ].
Qed.

Lemma ole_to_Value (x : outcome) (lo r1 : R) (y : outcome) :
  ole (np_clip_min y lo) (np_clip_min x lo) -> np_clip_min x lo = Value r1 ->
  exists r2, np_clip_min y lo = Value r2 /\ r2 <= r1.
Proof.
  intros Hle Hx. rewrite Hx in Hle.
  destruct y as [b | | | |]; simpl in *; try tauto; eauto.
Qed.

(** X3: the reward does not increase with the proxy value, infinities
    included: of two energies, the higher one gets a reward that is at
    most that of the lower one, and that is finite whenever that of the
    lower one is. In the power form the energies are negative. *)
Theorem proxy2reward_antitone (e : env) (v1 v2 : R) :
  0 < reward_norm e -> 0 < reward_beta e -> denorm_proxy e = false ->
  (reward_func e = "power"%string /\ v2 < 0)
  \/ reward_func e = "boltzmann"%string ->
  v1 <= v2 ->
  ole (proxy2reward e v2) (proxy2reward e v1)
  /\ forall r1, proxy2reward e v1 = Value r1 ->
       exists r2, proxy2reward e v2 = Value r2 /\ r2 <= r1.
Proof.
  intros Hnorm Hbeta Hd Hform Hle.
  assert (Hole : ole (proxy2reward e v2) (proxy2reward e v1)).
  { unfold proxy2reward, proxy2reward_of.
    change (shaped_of e (Value v1)) with (shaped e v1).
    change (shaped_of e (Value v2)) with (shaped e v2).
    apply np_clip_min_mono.
    rewrite !(shaped_no_denorm e _ Hd).
    destruct Hform as [[Hf Hneg] | Hf]; rewrite Hf; simpl String.eqb; cbv iota.
    - apply np_power_mono; [exact Hbeta | |].
      + replace (Value 0) with (np_div (Value 0) (reward_norm e)).
        * apply np_div_mono; [exact Hnorm |].
          unfold np_scale. apply ole_0_fl. lra.
        * rewrite np_div_nonzero by lra.
          replace (0 / reward_norm e) with 0 by (field; lra).
          apply fl_in_range, in_range_0.
      + apply np_div_mono; [exact Hnorm |].
        apply np_scale_anti; [lra | exact Hle].
    - apply np_exp_mono, np_scale_anti; [lra | exact Hle]. }
  split; [exact Hole |].
  intros r1 H1. unfold proxy2reward, proxy2reward_of in *.
  eapply ole_to_Value; eassumption.
Qed.


Lemma ln_le_mono (x y : R) : 0 < x -> x <= y -> ln x <= ln y.
Proof.
  intros Hx [Hlt | ->]; [left; apply ln_increasing; assumption | lra].
Qed.

Lemma ln_3_bounds : 1 <= ln 3 <= 2.
Proof.
  split.
  - apply Rle_trans with (ln (exp 1)); [rewrite ln_exp; lra |].
    apply ln_le_mono; [apply exp_pos | apply exp_le_3].
  - apply Rle_trans with (ln (exp 2)); [| rewrite ln_exp; lra].
    apply ln_le_mono; [lra |]. pose proof (exp_ineq1_le 2). lra.
Qed.

(** Beyond the range this round trip is lost as well: in the power form
    with [reward_beta = 1/1000] the reward 9 has the proxy value [-inf],
    whose reward is [inf]. *)
Example reward_round_trip_overflows :
  reward2proxy {| min_reward := 1 / 100000000; reward_beta := / 1000;
                  reward_norm := 1; reward_func := "power";
                  energies_stats := None; denorm_proxy := false |} 9
  = NegInf
  /\ proxy2reward_of
       {| min_reward := 1 / 100000000; reward_beta := / 1000;
          reward_norm := 1; reward_func := "power";
          energies_stats := None; denorm_proxy := false |} NegInf
     = PosInf.
Proof.
  pose proof ln_3_bounds as H3. pose proof ln_9 as H9. split.
  - unfold reward2proxy, reward2proxy_of. simpl String.eqb. cbv iota.
    simpl reward_norm. simpl reward_beta.
    rewrite (np_log_pos 9) by lra. rewrite (np_log_pos 1) by lra.
    rewrite ln_1. unfold np_scale. replace (/ 1000 * 0) with 0 by lra.
    rewrite (fl_in_range 0 in_range_0). unfold np_add.
    replace (ln 9 + 0) with (ln 9) by lra.
    rewrite (fl_in_range (ln 9)) by (apply in_range_small; lra).
    rewrite np_div_nonzero by lra.
    replace (ln 9 / / 1000) with (1000 * ln 9) by (field; lra).
    rewrite (fl_in_range (1000 * ln 9)) by (apply in_range_small; lra).
    unfold np_exp, fl.
    destruct (Rle_dec overflow_at (exp (1000 * ln 9))) as [_ | Hn];
      [reflexivity |].
    contradiction Hn.
    pose proof exp_2000_overflows.
    pose proof (exp_le_mono 2000 (1000 * ln 9) ltac:(lra)). lra.
  - unfold proxy2reward_of, shaped_of, denorm. simpl.
    destruct (Rlt_dec 0 (-1)); [lra |].
    destruct (Rlt_dec (-1) 0); [| lra].
    simpl. destruct (Rlt_dec 1 0); [lra |].
    simpl. destruct (Rlt_dec 0 (/ 1000)); [reflexivity | lra].
Qed.

End RewardMore.

Lemma proxy2reward_floor_witness :
  (1 / 100000000 <= 2 /\ (0 < 1 / 100000000 -> 0 < 2))%R.
Proof.
  apply (proxy2reward_floor Reward.default_env (-2) 2).
  apply (proxy2reward_unclipped _ _ _ (shaped_default 2 ltac:(lra))).
  simpl. lra.
Defined.


Lemma proxy2reward_antitone_witness :
  Reward.ole (Reward.proxy2reward Reward.default_env (-2))
             (Reward.proxy2reward Reward.default_env (-3))
  /\ forall r1, Reward.proxy2reward Reward.default_env (-3) = Reward.Value r1 ->
       exists r2, Reward.proxy2reward Reward.default_env (-2) = Reward.Value r2
                  /\ (r2 <= r1)%R.
Proof.
  apply (proxy2reward_antitone Reward.default_env (-3) (-2)).
  - simpl. lra.
  - simpl. lra.
  - reflexivity.
  - left. split; [reflexivity | lra].
  - lra.
Defined.

(** ** The replay reservoir: what a call keeps *)

Section BufferMore.

Import Buffer.

Lemma np_argmin_lookup (l : list Z) (m : Z) :
  np_min l = Some m -> l !! np_argmin l = Some m.
Proof.
  intros H. unfold np_argmin. rewrite H.
  apply index_of_lookup. apply (np_min_spec l m H).
Qed.

Lemma insert_Permutation {A} (l : list A) (i : nat) (x v : A) :
  l !! i = Some x -> <[i := v]> l ≡ₚ v :: delete i l.
Proof.
  intros H. rewrite insert_take_drop by (eapply lookup_lt_Some; exact H).
  rewrite delete_take_drop. symmetry. apply Permutation_middle.
Qed.

(** Taking a consumed candidate out of the working copy. *)
Lemma working_copy_take (rewards_new U : list Z) (k idx : nat) (mx : Z) :
  rewards_new ≡ₚ replicate k (-1) ++ U ->
  rewards_new !! idx = Some mx -> mx <> -1 ->
  exists U2,
    U ≡ₚ mx :: U2
    /\ <[idx := -1]> rewards_new ≡ₚ replicate (S k) (-1) ++ U2.
Proof.
  intros Hperm Hidx Hne.
  assert (Hin : mx ∈ U).
  { assert (Hin : mx ∈ rewards_new) by (eapply list_elem_of_lookup_2; exact Hidx).
    rewrite Hperm in Hin. apply elem_of_app in Hin as [Hin | Hin]; [| exact Hin].
    apply elem_of_replicate_inv in Hin. contradiction. }
  apply elem_of_Permutation in Hin as [U2 HU]. exists U2. split; [exact HU |].
  rewrite (insert_Permutation _ _ mx (-1) Hidx). simpl. constructor.
  apply (Permutation_cons_inv (a := mx)).
  rewrite <- (delete_Permutation _ _ _ Hidx), Hperm, HU.
  symmetry. apply Permutation_middle.
Qed.

Context {State Path Energy : Type}.
Variable state2readable : State -> string.
Variable path2readable : Path -> string.

Abbreviation loop' := (add_greater_loop state2readable path2readable).

(** The loop of [_add_greater], when it returns: the rewards [T] held by
    the reservoir, the discarded ones [D] and the candidates not yet
    consumed [U] end up as the reservoir and a rest that no kept reward is
    below. *)
Lemma add_greater_loop_top (states : list State) (paths : list Path)
    (rewards : list Z) (energies : list Energy) (it : Z) (T : list Z)
    (fuel : nat) :
  forall (rewards_new : list Z) (n : nat) (replay : list (row Energy))
         (m : nat) (replay' : list (row Energy)) (U D : list Z) (k : nat),
    loop' fuel states paths rewards energies it rewards_new n replay
      = Some (m, Py.Ok replay' tt) ->
    floor_ok (-1) replay ->
    working_copy rewards_new rewards ->
    rewards_new ≡ₚ replicate k (-1) ++ U ->
    T ≡ₚ reward_column replay ++ D ++ U ->
    Forall (fun d => Forall (fun y => d <= y) (reward_column replay)) D ->
    length replay' = length replay
    /\ exists rest,
         T ≡ₚ reward_column replay' ++ rest
         /\ Forall (fun x => Forall (fun y => x <= y) (reward_column replay'))
              rest.
Proof.
  induction fuel as [| fuel IH];
    intros rewards_new n replay m replay' U D k Hrun Hfloor Hwc HU HT HD;
    [discriminate |].
  simpl in Hrun.
  destruct (np_max rewards_new) as [mx |] eqn:Emax; [| discriminate].
  destruct (np_min (reward_column replay)) as [mn |] eqn:Emin; [| discriminate].
  destruct (np_max_spec _ _ Emax) as [_ Hmax].
  destruct (np_min_spec _ _ Emin) as [Hmn_in Hmin].
  assert (Hmn : -1 <= mn).
  { apply list_elem_of_fmap in Hmn_in as (r & -> & Hr).
    exact (proj1 (Forall_forall _ _) Hfloor r Hr). }
  destruct (mx >? mn) eqn:Egt.
  - apply Z.gtb_lt in Egt.
    pose proof (np_argmax_lookup _ _ Emax) as Hidx.
    destruct (states !! np_argmax rewards_new) as [s |]; [| discriminate].
    destruct (paths !! np_argmax rewards_new) as [p |]; [| discriminate].
    destruct (rewards !! np_argmax rewards_new) as [r |] eqn:Er; [| discriminate].
    destruct (energies !! np_argmax rewards_new) as [en |]; [| discriminate].
    assert (Hr : mx = r).
    { destruct (working_copy_lookup _ _ _ _ _ Hwc Hidx Er) as [-> | ->];
        [reflexivity | lia]. }
    subst r.
    destruct (working_copy_take _ _ k _ mx HU Hidx ltac:(lia)) as (U2 & HU2 & Hrn2).
    pose proof (np_argmin_lookup _ _ Emin) as Hargmin.
    set (new_row := {| r_state := Some (state2readable s);
                       r_path := Some (path2readable p);
                       r_reward := mx; r_energy := Some en;
                       r_iter := Some it |}) in *.
    assert (Hcol : reward_column
                     (<[np_argmin (reward_column replay) := new_row]> replay)
                   = <[np_argmin (reward_column replay) := mx]>
                       (reward_column replay)).
    { unfold reward_column. apply (list_fmap_insert r_reward). }
    destruct (IH _ _ _ _ _ U2 (mn :: D) (S k) Hrun) as (Hlen & rest & Hrest & Hle).
    + apply Forall_insert; [exact Hfloor | simpl; lia].
    + apply working_copy_consume. exact Hwc.
    + exact Hrn2.
    + rewrite Hcol, (insert_Permutation _ _ mn mx Hargmin).
      rewrite HT, HU2, (delete_Permutation _ _ _ Hargmin) at 1.
      simpl. rewrite <- !Permutation_middle. apply perm_swap.
    + rewrite Hcol.
      assert (Hins : forall d, Forall (fun y => d <= y) (reward_column replay) ->
                d <= mx ->
                Forall (fun y => d <= y)
                  (<[np_argmin (reward_column replay) := mx]> (reward_column replay))).
      { intros d Hd Hdm. apply Forall_insert; assumption. }
      constructor.
      * apply Hins; [exact Hmin | lia].
      * eapply Forall_impl; [exact HD |]. intros d Hd. simpl in Hd.
        apply Hins; [exact Hd |].
        pose proof (proj1 (Forall_forall _ _) Hd mn Hmn_in). simpl in *. lia.
    + rewrite length_insert in Hlen. split; [exact Hlen |].
      exists rest. split; assumption.
  - injection Hrun as <- <-. split; [reflexivity |].
    exists (D ++ U). split; [exact HT |].
    assert (Hle : mx <= mn).
    { destruct (Z.gtb_spec mx mn); [discriminate | lia]. }
    apply Forall_app. split; [exact HD |].
    apply Forall_forall. intros x Hx.
    assert (Hxn : x ∈ rewards_new).
    { rewrite HU. apply elem_of_app. right. exact Hx. }
    pose proof (proj1 (Forall_forall _ _) Hmax x Hxn) as Hxm. simpl in Hxm.
    eapply Forall_impl; [exact Hmin |]. intros y Hy. simpl in Hy. lia.
Qed.

(** The loop of [_add_greater], however it ends: the reservoir keeps its
    length and every lower bound of its rewards. *)
Lemma add_greater_loop_bound (states : list State) (paths : list Path)
    (rewards : list Z) (energies : list Energy) (it : Z) (d : Z)
    (fuel : nat) :
  forall (rewards_new : list Z) (n : nat) (replay : list (row Energy))
         (m : nat) (o : Py.outcome (list (row Energy)) unit),
    loop' fuel states paths rewards energies it rewards_new n replay
      = Some (m, o) ->
    floor_ok (-1) replay ->
    working_copy rewards_new rewards ->
    Forall (fun y => d <= y) (reward_column replay) ->
    length (Py.final_state o) = length replay
    /\ floor_ok (-1) (Py.final_state o)
    /\ Forall (fun y => d <= y) (reward_column (Py.final_state o)).
Proof.
  induction fuel as [| fuel IH];
    intros rewards_new n replay m o Hrun Hfloor Hwc Hd; [discriminate |].
  simpl in Hrun.
  destruct (np_max rewards_new) as [mx |] eqn:Emax;
    [| injection Hrun as <- <-; auto].
  destruct (np_min (reward_column replay)) as [mn |] eqn:Emin;
    [| injection Hrun as <- <-; auto].
  destruct (np_min_spec _ _ Emin) as [Hmn_in Hmin].
  assert (Hmn : -1 <= mn).
  { apply list_elem_of_fmap in Hmn_in as (r & -> & Hr).
    exact (proj1 (Forall_forall _ _) Hfloor r Hr). }
  destruct (mx >? mn) eqn:Egt; [| injection Hrun as <- <-; auto].
  apply Z.gtb_lt in Egt.
  pose proof (np_argmax_lookup _ _ Emax) as Hidx.
  destruct (states !! np_argmax rewards_new) as [s |];
    [| injection Hrun as <- <-; auto].
  destruct (paths !! np_argmax rewards_new) as [p |];
    [| injection Hrun as <- <-; auto].
  destruct (rewards !! np_argmax rewards_new) as [r |] eqn:Er;
    [| injection Hrun as <- <-; auto].
  destruct (energies !! np_argmax rewards_new) as [en |];
    [| injection Hrun as <- <-; auto].
  assert (Hr : mx = r).
  { destruct (working_copy_lookup _ _ _ _ _ Hwc Hidx Er) as [-> | ->];
      [reflexivity | lia]. }
  subst r.
  destruct (IH _ _ _ _ _ Hrun) as (Hlen & Hfl & Hbound).
  - apply Forall_insert; [exact Hfloor | simpl; lia].
  - apply working_copy_consume. exact Hwc.
  - unfold reward_column. rewrite (list_fmap_insert r_reward). simpl.
    apply Forall_insert; [exact Hd |].
    pose proof (proj1 (Forall_forall _ _) Hd mn Hmn_in). simpl in *. lia.
  - rewrite length_insert in Hlen. auto.
Qed.

(** X5: however [_add_greater] ends, by returning or by an exception raised
    part-way, the reservoir keeps its number of rows and no reward in it is
    below a bound that held for all of them before the call. *)
Theorem add_greater_never_lowers (states : list State) (paths : list Path)
    (rewards : list Z) (energies : list Energy) (it : Z)
    (replay : list (row Energy)) (fuel n : nat)
    (o : Py.outcome (list (row Energy)) unit) (d : Z) :
  floor_ok (-1) replay ->
  Forall (fun y => d <= y) (reward_column replay) ->
  _add_greater state2readable path2readable fuel states paths rewards
    energies it replay = Some (n, o) ->
  length (Py.final_state o) = length replay
  /\ Forall (fun y => d <= y) (reward_column (Py.final_state o)).
Proof.
  intros Hfloor Hd Hrun. unfold _add_greater in Hrun.
  destruct (add_greater_loop_bound states paths rewards energies it d fuel
              rewards 0%nat replay n o Hrun Hfloor (working_copy_refl rewards) Hd)
    as (Hlen & _ & Hbound).
  split; assumption.
Qed.

End BufferMore.

(** A call whose [energies] are one short: the candidate of reward 7 is
    reached second, and the [IndexError] leaves a reservoir of three rows,
    none below -1. *)
Lemma add_greater_never_lowers_witness :
  exists o : Py.outcome (list (Buffer.row Z)) unit,
    (length (Py.final_state o) = length Buffer.ex_replay
     /\ Forall (fun y => -1 <= y) (Buffer.reward_column (Py.final_state o)))
    /\ Py.returned o = false.
Proof.
  eexists. split.
  - apply (add_greater_never_lowers Buffer.ex_readable Buffer.ex_readable
             Buffer.ex_states Buffer.ex_paths Buffer.ex_rewards
             [-5; -3; -9; -1] 1 Buffer.ex_replay 6 1 _ (-1)).
    + apply Forall_replicate. simpl. lia.
    + apply Forall_fmap, Forall_replicate. simpl. lia.
    + reflexivity.
  - reflexivity.
Defined.


(** ** The reservoir with float rewards *)

Section FloatBufferFacts.

Import FloatBuffer.

(** *** Numbers behave as in the integer model *)

Lemma foldr_maximum_lift (x : Z) (t : list Z) :
  foldr maximum (Num x) (map Num t) = Num (foldr Z.max x t).
Proof. induction t as [| a t IH]; simpl; [| rewrite IH]; reflexivity. Qed.

Lemma foldr_minimum_lift (x : Z) (t : list Z) :
  foldr minimum (Num x) (map Num t) = Num (foldr Z.min x t).
Proof. induction t as [| a t IH]; simpl; [| rewrite IH]; reflexivity. Qed.

Lemma np_max_lift (l : list Z) :
  np_max (map Num l) = option_map Num (Buffer.np_max l).
Proof. destruct l; simpl; [| rewrite foldr_maximum_lift]; reflexivity. Qed.

Lemma np_min_lift (l : list Z) :
  np_min (map Num l) = option_map Num (Buffer.np_min l).
Proof. destruct l; simpl; [| rewrite foldr_minimum_lift]; reflexivity. Qed.

Lemma index_of_lift (m : Z) (l : list Z) :
  index_of (Num m) (map Num l) = Buffer.index_of m l.
Proof.
  induction l as [| x l IH]; simpl; [reflexivity |].
  destruct (x =? m); [reflexivity | rewrite IH; reflexivity].
Qed.

Lemma np_argmax_lift (l : list Z) :
  np_argmax (map Num l) = Buffer.np_argmax l.
Proof.
  unfold np_argmax, Buffer.np_argmax. rewrite np_max_lift.
  destruct (Buffer.np_max l); simpl; [apply index_of_lift | reflexivity].
Qed.

Lemma argmin_lift (l : list Z) : argmin (map Num l) = Buffer.np_argmin l.
Proof.
  unfold argmin, Buffer.np_argmin. rewrite np_min_lift.
  destruct (Buffer.np_min l); simpl; [apply index_of_lift | reflexivity].
Qed.

(** *** One nan among the candidates *)

Lemma foldr_maximum_nan (x : reward) (t : list reward) :
  x = NaN \/ NaN ∈ t -> foldr maximum x t = NaN.
Proof.
  induction t as [| a t IH]; simpl.
  - intros [-> | H]; [reflexivity | inversion H].
  - intros H. destruct a as [z |]; [| reflexivity].
    rewrite IH; [reflexivity |].
    destruct H as [H | H]; [left; exact H |].
    apply elem_of_cons in H as [H | H]; [discriminate | right; exact H].
Qed.

Lemma np_max_nan (l : list reward) : NaN ∈ l -> np_max l = Some NaN.
Proof.
  destruct l as [| x t]; [inversion 1 |]. intros H. simpl.
  rewrite foldr_maximum_nan; [reflexivity |].
  apply elem_of_cons in H as [H | H]; auto.
Qed.

Lemma not_all_numbers (l : list reward) :
  forallb is_num l = false -> NaN ∈ l.
Proof.
  induction l as [| x l IH]; simpl; [discriminate |].
  destruct x as [z |]; simpl; [| intros _; left].
  intros H. right. apply IH. exact H.
Qed.

Lemma all_numbers (l : list reward) :
  forallb is_num l = true -> map Num (map number_of l) = l.
Proof.
  induction l as [| x l IH]; simpl; [reflexivity |].
  destruct x as [z |]; simpl; [| discriminate].
  intros H. rewrite IH by exact H. reflexivity.
Qed.

Context {State Path Energy : Type}.
Variable state2readable : State -> string.
Variable path2readable : Path -> string.

Abbreviation floop := (add_greater_loop state2readable path2readable).
Abbreviation zloop := (Buffer.add_greater_loop state2readable path2readable).

Lemma reward_column_lift (rz : list (Buffer.row Energy)) :
  reward_column (map lift_row rz) = map Num (Buffer.reward_column rz).
Proof.
  unfold reward_column, Buffer.reward_column. rewrite !map_map. reflexivity.
Qed.

(** On numbers the loop is the loop of the integer model. *)
Lemma add_greater_loop_lift (states : list State) (paths : list Path)
    (rewards : list Z) (energies : list Energy) (it : Z) (fuel : nat) :
  forall (rewards_new : list Z) (n : nat) (rz : list (Buffer.row Energy)),
    floop fuel states paths (map Num rewards) energies it
      (map Num rewards_new) n (map lift_row rz)
    = option_map lift_result
        (zloop fuel states paths rewards energies it rewards_new n rz).
Proof.
  induction fuel as [| fuel IH]; intros rewards_new n rz; simpl;
    [reflexivity |].
  rewrite np_max_lift.
  destruct (Buffer.np_max rewards_new) as [mx |]; simpl; [| reflexivity].
  rewrite reward_column_lift, np_min_lift.
  destruct (Buffer.np_min (Buffer.reward_column rz)) as [mn |]; simpl;
    [| reflexivity].
  destruct (mx >? mn); [| reflexivity].
  rewrite np_argmax_lift, argmin_lift.
  change (map Num rewards) with (Num <$> rewards).
  rewrite list_lookup_fmap.
  destruct (states !! Buffer.np_argmax rewards_new) as [s |]; [| reflexivity].
  destruct (paths !! Buffer.np_argmax rewards_new) as [p |]; [| reflexivity].
  destruct (rewards !! Buffer.np_argmax rewards_new) as [r |]; simpl;
    [| reflexivity].
  destruct (energies !! Buffer.np_argmax rewards_new) as [en |];
    [| reflexivity].
  change (map Num rewards_new) with (Num <$> rewards_new).
  change (map lift_row rz) with (lift_row <$> rz).
  rewrite <- (list_fmap_insert Num rewards_new).
  set (new_row := {| Buffer.r_state := Some (state2readable s);
                     Buffer.r_path := Some (path2readable p);
                     Buffer.r_reward := r; Buffer.r_energy := Some en;
                     Buffer.r_iter := Some it |}).
  change {| r_state := Some (state2readable s);
            r_path := Some (path2readable p);
            r_reward := Num r; r_energy := Some en; r_iter := Some it |}
    with (lift_row new_row).
  rewrite <- (list_fmap_insert lift_row rz).
  apply IH.
Qed.

(** With a nan among the candidates the loop ends at its first test and
    the reservoir stays as it was. *)
Lemma add_greater_nan (states : list State) (paths : list Path)
    (rewards : list reward) (energies : list Energy) (it : Z)
    (replay : list (row Energy)) (fuel n : nat)
    (o : Py.outcome (list (row Energy)) unit) :
  forallb is_num rewards = false ->
  _add_greater state2readable path2readable fuel states paths rewards
    energies it replay = Some (n, o) ->
  n = 0%nat /\ Py.final_state o = replay.
Proof.
  intros Hnan. unfold _add_greater.
  destruct fuel as [| fuel]; simpl; [discriminate |].
  rewrite (np_max_nan _ (not_all_numbers _ Hnan)).
  destruct (np_min (reward_column replay)) as [mn |]; simpl;
    intros [= <- <-]; auto.
Qed.

Lemma floor_ok_lower (mn : Z) (replay : list (row Energy)) :
  floor_ok mn replay ->
  map lift_row (map lower_row replay) = replay
  /\ Buffer.floor_ok mn (map lower_row replay).
Proof.
  unfold floor_ok, Buffer.floor_ok.
  induction 1 as [| r replay Hr _ [IH1 IH2]]; simpl;
    [split; [reflexivity | constructor] |].
  destruct r as [st pa [z |] en i]; simpl in Hr; [| contradiction].
  rewrite IH1. split; [reflexivity |]. constructor; [exact Hr | exact IH2].
Qed.

Lemma le_lift (col rest : list Z) :
  Forall (fun x => Forall (fun y => x <= y) col) rest ->
  Forall (fun x => Forall (fun y => le x y) (map Num col)) (map Num rest).
Proof.
  intros H. apply Forall_fmap. eapply Forall_impl; [exact H |].
  intros x Hx. simpl. apply Forall_fmap. exact Hx.
Qed.

(** X4: when [_add_greater] returns on a reservoir that holds numbers,
    none below -1, the reservoir has kept its length. If no candidate
    reward is nan it holds the highest rewards among those it held and
    the candidates: the rewards left out are at most every reward kept.
    If a candidate reward is nan the reservoir is as it was, whatever the
    other candidates. *)
Theorem add_greater_keeps_top (states : list State) (paths : list Path)
    (rewards : list reward) (energies : list Energy) (it : Z)
    (replay replay' : list (row Energy)) (fuel n : nat) :
  floor_ok (-1) replay ->
  _add_greater state2readable path2readable fuel states paths rewards
    energies it replay = Some (n, Py.Ok replay' tt) ->
  length replay' = length replay
  /\ (forallb is_num rewards = true ->
      exists rest,
        reward_column replay ++ rewards ≡ₚ reward_column replay' ++ rest
        /\ Forall (fun x => Forall (fun y => le x y) (reward_column replay'))
             rest)
  /\ (forallb is_num rewards = false -> replay' = replay).
Proof.
  intros Hfloor Hrun.
  destruct (forallb is_num rewards) eqn:Enum.
  - destruct (floor_ok_lower _ _ Hfloor) as [Hrep HfloorZ].
    pose proof (all_numbers _ Enum) as Hrw.
    unfold _add_greater in Hrun. rewrite <- Hrep, <- Hrw in Hrun.
    rewrite add_greater_loop_lift in Hrun.
    destruct (zloop fuel states paths (map number_of rewards) energies it
                (map number_of rewards) 0%nat (map lower_row replay))
      as [[m [rz' [] | rz' ex]] |] eqn:Erun; try discriminate.
    injection Hrun as <- <-.
    destruct (add_greater_loop_top state2readable path2readable states paths
                (map number_of rewards) energies it
                (Buffer.reward_column (map lower_row replay)
                 ++ map number_of rewards) fuel
                (map number_of rewards) 0%nat (map lower_row replay) m rz'
                (map number_of rewards) [] 0%nat Erun HfloorZ
                (working_copy_refl _) (Permutation_refl _)
                (Permutation_refl _) (Forall_nil_2 _))
      as (Hlen & rest & Hperm & Hrest).
    rewrite length_map in Hlen. rewrite length_map.
    split; [exact Hlen |]. split; [| discriminate].
    intros _. exists (map Num rest). rewrite reward_column_lift.
    split; [| apply le_lift; exact Hrest].
    rewrite <- Hrep at 1. rewrite reward_column_lift, <- Hrw at 1.
    rewrite <- !map_app. apply Permutation_map. exact Hperm.
  - destruct (add_greater_nan _ _ _ _ _ _ _ _ _ Enum Hrun) as [_ Heq].
    simpl in Heq. subst replay'.
    split; [reflexivity |]. split; [discriminate | reflexivity].
Qed.

Abbreviation add' := (add state2readable path2readable).
Abbreviation offered' := (offered state2readable path2readable).

Lemma counted_snoc (calls : list (list reward)) (rewards : list reward) :
  counted (calls ++ [rewards])
  = counted calls ++ (if forallb is_num rewards then rewards else []).
Proof.
  unfold counted. rewrite filter_app, concat_app. f_equal.
  rewrite filter_cons, filter_nil.
  destruct (forallb is_num rewards) eqn:E.
  - destruct (decide (true = true)); [| contradiction].
    simpl. apply app_nil_r.
  - destruct (decide (false = true)); [discriminate | reflexivity].
Qed.

(** What every buffer reached from [__init__] satisfies: the reservoir
    holds numbers, and in the integer model these are [replay_capacity]
    rows, none below the sentinel, the highest of the rewards counted. *)
Lemma offered_inv (calls : list (list reward)) (b : t Energy) :
  offered' calls b ->
  exists (rz : list (Buffer.row Energy)) (seen : list Z),
    replay b = map lift_row rz
    /\ counted calls = map Num seen
    /\ length rz = replay_capacity b
    /\ Buffer.floor_ok (-1) rz
    /\ exists rest,
         replicate (replay_capacity b) (-1) ++ seen
         ≡ₚ Buffer.reward_column rz ++ rest
         /\ Forall (fun x => Forall (fun y => x <= y) (Buffer.reward_column rz))
              rest.
Proof.
  induction 1 as [cap
                 | calls b b' fuel states paths rewards energies it crit _ IH Hadd
                 | calls b b' fuel states paths rewards energies it _ IH Hadd].
  - exists (Buffer.init_replay cap), []. simpl.
    split.
    { unfold init_replay, Buffer.init_replay.
      change (map ?f ?l) with (f <$> l). rewrite fmap_replicate. reflexivity. }
    split; [reflexivity |].
    split; [apply length_replicate |].
    split; [apply Forall_replicate; simpl; lia |].
    exists []. split; [| constructor].
    unfold Buffer.init_replay, Buffer.reward_column. rewrite !app_nil_r.
    change (map ?f ?l) with (f <$> l). rewrite fmap_replicate. reflexivity.
  - unfold add in Hadd. simpl in Hadd.
    destruct (_ && _); [| discriminate].
    injection Hadd as <-. exact IH.
  - destruct IH as (rz & seen & Hrep & Hcount & Hlen & Hfloor & rest & Hperm
                    & Hrest).
    rewrite counted_snoc, Hcount.
    unfold add in Hadd. simpl in Hadd.
    destruct (0 <? replay_capacity b)%nat eqn:Ecap.
    + destruct (_add_greater _ _ _ _ _ _ _ _ _) as [[n [r' [] | r' e]] |] eqn:Erun;
        try discriminate.
      injection Hadd as <-. simpl.
      destruct (forallb is_num rewards) eqn:Enum.
      * pose proof (all_numbers _ Enum) as Hrw.
        unfold _add_greater in Erun. rewrite Hrep, <- Hrw in Erun.
        rewrite add_greater_loop_lift in Erun.
        destruct (zloop fuel states paths (map number_of rewards) energies it
                    (map number_of rewards) 0%nat rz)
          as [[m [rz' [] | rz' ex]] |] eqn:Ez; try discriminate.
        injection Erun as <- <-.
        destruct (add_greater_loop_bound state2readable path2readable states
                    paths (map number_of rewards) energies it (-1) fuel
                    (map number_of rewards) 0%nat rz m _ Ez Hfloor
                    (working_copy_refl _))
          as (Hlen' & Hfloor' & _).
        { eapply Forall_fmap, Forall_impl; [exact Hfloor |]. auto. }
        simpl in Hlen', Hfloor'.
        destruct (add_greater_loop_top state2readable path2readable states
                    paths (map number_of rewards) energies it
                    (replicate (replay_capacity b) (-1) ++ seen
                     ++ map number_of rewards) fuel
                    (map number_of rewards) 0%nat rz m rz'
                    (map number_of rewards) rest 0%nat Ez Hfloor
                    (working_copy_refl _) (Permutation_refl _))
          as (_ & rest' & Hperm' & Hrest').
        { rewrite !app_assoc. rewrite Hperm. reflexivity. }
        { exact Hrest. }
        exists rz', (seen ++ map number_of rewards).
        split; [reflexivity |].
        split; [rewrite map_app, Hrw; reflexivity |].
        split; [congruence |]. split; [exact Hfloor' |].
        exists rest'. split; assumption.
      * destruct (add_greater_nan _ _ _ _ _ _ _ _ _ Enum Erun) as [_ Heq].
        simpl in Heq. subst r'.
        exists rz, seen. rewrite app_nil_r.
        split; [exact Hrep |]. split; [reflexivity |].
        split; [exact Hlen |]. split; [exact Hfloor |].
        exists rest. split; assumption.
    + injection Hadd as <-.
      apply Nat.ltb_ge in Ecap.
      assert (Hnil : rz = []).
      { apply length_zero_iff_nil. lia. }
      destruct (forallb is_num rewards) eqn:Enum.
      * exists rz, (seen ++ map number_of rewards).
        split; [exact Hrep |].
        split; [rewrite map_app, (all_numbers _ Enum); reflexivity |].
        split; [exact Hlen |]. split; [exact Hfloor |].
        exists (rest ++ map number_of rewards). rewrite Hnil in *. simpl in *.
        split; [| apply Forall_forall; intros; constructor].
        rewrite app_assoc, Hperm. reflexivity.
      * exists rz, seen. rewrite app_nil_r.
        split; [exact Hrep |]. split; [reflexivity |].
        split; [exact Hlen |]. split; [exact Hfloor |].
        exists rest. split; assumption.
Qed.

(** X6: a [Buffer] keeps the best rewards it was offered, nan apart.
    After any sequence of returning calls of [add] since [__init__], the
    reservoir has [replay_capacity] rows; the calls made with
    [buffer="replay"] whose candidate rewards held a nan have changed
    nothing, and the rewards of the reservoir are the highest among the
    initial sentinels -1 and the candidate rewards of the other such
    calls: every reward left out is at most every reward kept. *)
Theorem replay_holds_best_offered (calls : list (list reward))
    (b : t Energy) :
  offered state2readable path2readable calls b ->
  length (replay b) = replay_capacity b
  /\ exists rest,
       replicate (replay_capacity b) (Num (-1)) ++ counted calls
       ≡ₚ reward_column (replay b) ++ rest
       /\ Forall (fun x => Forall (fun y => le x y) (reward_column (replay b)))
            rest.
Proof.
  intros H.
  destruct (offered_inv calls b H)
    as (rz & seen & Hrep & Hcount & Hlen & _ & rest & Hperm & Hrest).
  rewrite Hrep, Hcount, reward_column_lift, length_map.
  split; [exact Hlen |].
  exists (map Num rest). split; [| apply le_lift; exact Hrest].
  replace (replicate (replay_capacity b) (Num (-1)))
    with (map Num (replicate (replay_capacity b) (-1)))
    by (change (map ?f ?l) with (f <$> l); apply fmap_replicate).
  rewrite <- !map_app. apply Permutation_map. exact Hperm.
Qed.

End FloatBufferFacts.

Lemma add_greater_keeps_top_witness :
  exists replay' : list (FloatBuffer.row Z),
    length replay' = length FloatBuffer.ex_replay
    /\ (forallb FloatBuffer.is_num FloatBuffer.ex_rewards = true ->
        exists rest,
          FloatBuffer.reward_column FloatBuffer.ex_replay
            ++ FloatBuffer.ex_rewards
          ≡ₚ FloatBuffer.reward_column replay' ++ rest
          /\ Forall
               (fun x => Forall (fun y => FloatBuffer.le x y)
                           (FloatBuffer.reward_column replay'))
               rest)
    /\ (forallb FloatBuffer.is_num FloatBuffer.ex_rewards = false ->
        replay' = FloatBuffer.ex_replay).
Proof.
  eexists.
  apply (add_greater_keeps_top FloatBuffer.ex_readable FloatBuffer.ex_readable
           [50; 30; 90; 10; 70] [0; 0; 0; 0; 0] FloatBuffer.ex_rewards
           [-5; -3; -9; -1; -7] 1 FloatBuffer.ex_replay _ 6 3).
  - apply Forall_replicate. simpl. lia.
  - vm_compute. reflexivity.
Defined.

(** Candidates nan and 5 for a reservoir of three sentinels: the loop
    ends at its first test and 5 is not taken. *)
Example add_greater_nan_candidate :
  FloatBuffer._add_greater FloatBuffer.ex_readable FloatBuffer.ex_readable 3
    [10; 50] [0; 0] [FloatBuffer.NaN; FloatBuffer.Num 5] [0; -5] 1
    FloatBuffer.ex_replay
  = Some (0%nat, Py.Ok FloatBuffer.ex_replay tt).
Proof. vm_compute. reflexivity. Qed.

Lemma replay_holds_best_offered_witness :
  exists b : FloatBuffer.t Z,
    FloatBuffer.ex_buffer3 = Some (Py.Ok b tt)
    /\ FloatBuffer.reward_column (FloatBuffer.replay b)
       = [FloatBuffer.Num 9; FloatBuffer.Num 7; FloatBuffer.Num 8]
    /\ length (FloatBuffer.replay b) = FloatBuffer.replay_capacity b
    /\ exists rest,
         replicate (FloatBuffer.replay_capacity b) (FloatBuffer.Num (-1))
           ++ FloatBuffer.counted
                [FloatBuffer.ex_rewards; FloatBuffer.ex_rewards_nan;
                 [FloatBuffer.Num 8; FloatBuffer.Num 2; FloatBuffer.Num 6]]
         ≡ₚ FloatBuffer.reward_column (FloatBuffer.replay b) ++ rest
         /\ Forall
              (fun x => Forall (fun y => FloatBuffer.le x y)
                          (FloatBuffer.reward_column (FloatBuffer.replay b)))
              rest.
Proof.
  eexists. split; [vm_compute; reflexivity |]. split; [reflexivity |].
  apply (replay_holds_best_offered FloatBuffer.ex_readable
           FloatBuffer.ex_readable).
  eapply FloatBuffer.offered_replay with (fuel := 6%nat) (it := 3)
    (calls := [FloatBuffer.ex_rewards; FloatBuffer.ex_rewards_nan])
    (states := [80; 20; 60]) (paths := [0; 0; 0]) (energies := [-8; -2; -6]).
  - eapply FloatBuffer.offered_replay with (fuel := 6%nat) (it := 2)
      (calls := [FloatBuffer.ex_rewards])
      (states := [80; 20; 60]) (paths := [0; 0; 0])
      (energies := [-8; -2; -6]).
    + eapply FloatBuffer.offered_replay with (fuel := 6%nat) (it := 1)
        (calls := []) (b := FloatBuffer.__init__ 3)
        (states := [50; 30; 90; 10; 70]) (paths := [0; 0; 0; 0; 0])
        (energies := [-5; -3; -9; -1; -7]).
      * apply FloatBuffer.offered_init.
      * vm_compute. reflexivity.
    + vm_compute. reflexivity.
  - vm_compute. reflexivity.
Defined.

(** The rewards counted in these three calls: those of the first and the
    third. *)
Example counted_three_calls :
  FloatBuffer.counted
    [FloatBuffer.ex_rewards; FloatBuffer.ex_rewards_nan;
     [FloatBuffer.Num 8; FloatBuffer.Num 2; FloatBuffer.Num 6]]
  = FloatBuffer.ex_rewards
    ++ [FloatBuffer.Num 8; FloatBuffer.Num 2; FloatBuffer.Num 6].
Proof. reflexivity. Qed.

(** ** Action sampling: what the calls return *)

Section SamplingMore.

Import Sampling.

Lemma deref_Ok_inv (h h' : store) (r : ref) (t : tensor) :
  deref r h = Py.Ok h' t -> h' = h /\ h !! r = Some t.
Proof.
  unfold deref. py_unfold. destruct (h !! r); [| discriminate].
  intros [= <- <-]. auto.
Qed.

Lemma setitem_mask_Ok_inv (h h' : store) (r : ref) (m : mask) (v : R) (u : unit) :
  setitem_mask r m v h = Py.Ok h' u ->
  exists t, h !! r = Some t /\ same_shape t m = true
            /\ h' = <[r := masked_fill t m v]> h.
Proof.
  unfold setitem_mask, deref, assign. py_unfold.
  destruct (h !! r) as [t |]; [| discriminate].
  destruct (same_shape t m) eqn:Es; [| discriminate].
  intros [= <-]. eauto.
Qed.

Lemma idiv_Ok_inv (h h' : store) (r : ref) (c : R) (u : unit) :
  idiv r c h = Py.Ok h' u ->
  exists t, h !! r = Some t /\ h' = <[r := div_all t c]> h.
Proof.
  unfold idiv, deref, assign. py_unfold.
  destruct (h !! r) as [t |]; [| discriminate].
  intros [= <-]. eauto.
Qed.

Lemma zip_with_fill_idem (v : R) (row : list R) (mrow : list bool) :
  zip_with (fun x (b : bool) => if b then v else x)
    (zip_with (fun x (b : bool) => if b then v else x) row mrow) mrow
  = zip_with (fun x (b : bool) => if b then v else x) row mrow.
Proof.
  revert mrow. induction row as [| x row IH]; intros [| b mrow]; simpl; auto.
  rewrite IH. destruct b; reflexivity.
Qed.

(** Masking twice is masking once. *)
Lemma masked_fill_idem (t : tensor) (m : mask) (v : R) :
  masked_fill (masked_fill t m v) m v = masked_fill t m v.
Proof.
  unfold masked_fill. revert m.
  induction t as [| row t IH]; intros [| mrow m]; simpl; auto.
  rewrite IH, zip_with_fill_idem. reflexivity.
Qed.

Lemma zip_with_fill_div (v c : R) (row : list R) (mrow : list bool) :
  zip_with (fun x (b : bool) => if b then v else x)
    (map (fun x => (x / c)%R)
       (zip_with (fun x (b : bool) => if b then v else x) row mrow)) mrow
  = zip_with (fun x (b : bool) => if b then v else x)
      (map (fun x => (x / c)%R) row) mrow.
Proof.
  revert mrow. induction row as [| x row IH]; intros [| b mrow]; simpl; auto.
  rewrite IH. destruct b; reflexivity.
Qed.

(** Dividing a masked tensor and masking again forgets the first mask. *)
Lemma masked_fill_div_all (t : tensor) (m : mask) (v c : R) :
  masked_fill (div_all (masked_fill t m v) c) m v
  = masked_fill (div_all t c) m v.
Proof.
  unfold masked_fill, div_all. revert m.
  induction t as [| row t IH]; intros [| mrow m]; simpl; auto.
  rewrite IH, zip_with_fill_div. reflexivity.
Qed.

Lemma same_shape_masked_fill (t : tensor) (m : mask) (v : R) :
  same_shape t m = true -> same_shape (masked_fill t m v) m = true.
Proof.
  unfold same_shape, masked_fill. intros H. apply bool_decide_eq_true in H.
  apply bool_decide_eq_true. revert m H.
  induction t as [| row t IH]; intros [| mrow m] H; simpl in *;
    try discriminate; auto.
  injection H as Hrow Ht. rewrite (IH m Ht). f_equal.
  rewrite length_zip_with. lia.
Qed.

Lemma length_masked_fill (t : tensor) (m : mask) (v : R) :
  same_shape t m = true -> length (masked_fill t m v) = length t.
Proof.
  unfold same_shape, masked_fill. intros H. apply bool_decide_eq_true in H.
  rewrite length_zip_with.
  assert (Hl : length t = length m).
  { rewrite <- (length_map length t), H. apply length_map. }
  lia.
Qed.

Lemma gather_Ok_inv (rows : tensor) (idxs : list nat) (h h' : store)
    (xs : list R) :
  gather rows idxs h = Py.Ok h' xs ->
  h' = h /\ length idxs = length rows /\ length xs = length rows.
Proof.
  revert idxs h' xs.
  induction rows as [| row rows IH]; intros [| i idxs] h' xs H; simpl in H;
    try discriminate.
  - injection H as <- <-. auto.
  - apply bind_Ok_inv in H as (s1 & x & Hx & H).
    apply bind_Ok_inv in H as (s2 & xs' & Hxs & H).
    injection H as <- <-.
    unfold Py.getitem in Hx. destruct (row !! i); [| discriminate].
    injection Hx as <- <-.
    destruct (IH _ _ _ Hxs) as (-> & Hl1 & Hl2). simpl. auto.
Qed.

Lemma for_each_getitem_Ok_inv {A} (l : list A) (idxs : list nat)
    (h h' : store) (ys : list A) :
  Py.for_each (Py.getitem l) idxs h = Py.Ok h' ys ->
  h' = h /\ Forall2 (fun i y => l !! i = Some y) idxs ys.
Proof.
  revert h' ys. induction idxs as [| i idxs IH]; intros h' ys H; simpl in H.
  - injection H as <- <-. auto.
  - unfold Py.bind, Py.getitem in H.
    destruct (l !! i) as [y |] eqn:Ei; [| discriminate]. simpl in H.
    destruct (Py.for_each _ idxs h) as [s2 ys' | s2 e] eqn:E; [| discriminate].
    injection H as <- <-.
    destruct (IH _ _ eq_refl) as (-> & Hall). auto.
Qed.

Context {Action : Type} `{EqDecision Action}.
Variable categorical_sample : tensor -> list nat.
Variable logsoftmax : tensor -> tensor.

(** In a list without duplicates [index] finds the position an element was
    read from. *)
Lemma index_of_lookup_NoDup (action_space : list Action) (i : nat)
    (a : Action) (h : store) :
  NoDup action_space -> action_space !! i = Some a ->
  index action_space a h = Py.Ok h i.
Proof.
  intros Hnd Hi. unfold index.
  destruct (list_find (fun x => x = a) action_space) as [[j y] |] eqn:Ef.
  - apply list_find_Some in Ef as (Hj & -> & _).
    rewrite (NoDup_lookup _ _ _ _ Hnd Hi Hj). reflexivity.
  - exfalso. apply list_find_None in Ef.
    apply (proj1 (Forall_forall _ _) Ef a); [| reflexivity].
    eapply list_elem_of_lookup_2. exact Hi.
Qed.

Lemma for_each_index_NoDup (action_space : list Action) (idxs : list nat)
    (actions : list Action) (h : store) :
  NoDup action_space ->
  Forall2 (fun i y => action_space !! i = Some y) idxs actions ->
  Py.for_each (index action_space) actions h = Py.Ok h idxs.
Proof.
  intros Hnd Hall. induction Hall as [| i a idxs actions Hi _ IH]; simpl.
  - reflexivity.
  - unfold Py.bind. rewrite (index_of_lookup_NoDup _ _ _ _ Hnd Hi).
    rewrite IH. reflexivity.
Qed.

(** What a returning call of [sample_actions] did: [lg] is the tensor the
    draw was made from, and under the policy method it is what the caller's
    tensor holds afterwards. *)
Lemma sample_actions_Ok_inv (action_space : list Action) (h h' : store)
    (r : ref) (method : string) (mo : option mask) (temp loginf : R)
    (actions : list Action) (logprobs : list R) :
  sample_actions categorical_sample logsoftmax action_space r method mo temp
    loginf h = Py.Ok h' (actions, logprobs) ->
  exists po lg,
    h !! r = Some po
    /\ length lg = length po
    /\ (method = "policy"%string -> h' !! r = Some lg)
    /\ (forall m, mo = Some m ->
          same_shape lg m = true /\ masked_fill lg m (- loginf) = lg)
    /\ length (categorical_sample lg) = length (logsoftmax lg)
    /\ length logprobs = length (logsoftmax lg)
    /\ gather (logsoftmax lg) (categorical_sample lg) h' = Py.Ok h' logprobs
    /\ Forall2 (fun i y => action_space !! i = Some y)
         (categorical_sample lg) actions.
Proof.
  intros H. unfold sample_actions in H.
  apply bind_Ok_inv in H as (s0 & po & Hpo & H).
  apply deref_Ok_inv in Hpo as (-> & Hpo).
  apply bind_Ok_inv in H as (s1 & lo & Hlo & H).
  assert (Hlt : (r < length h)%nat) by (eapply lookup_lt_Some; exact Hpo).
  assert (Hstage : exists l t0, lo = Some l /\ s1 !! l = Some t0
                     /\ length t0 = length po
                     /\ (method = "policy"%string -> l = r)).
  { destruct (String.eqb method "uniform") eqn:Eu.
    - apply String.eqb_eq in Eu. subst method.
      unfold alloc in Hlo. py_unfold. injection Hlo as <- <-.
      exists (length h), (ones_like po). split; [reflexivity |].
      split; [apply list_lookup_middle; reflexivity |].
      split; [apply length_map | discriminate].
    - destruct (String.eqb method "policy") eqn:Ep.
      + apply bind_Ok_inv in Hlo as (s2 & [] & Hdiv & Hlo).
        injection Hlo as <- <-.
        apply idiv_Ok_inv in Hdiv as (t & Ht & ->).
        assert (t = po) by congruence. subst t.
        exists r, (div_all po temp). split; [reflexivity |].
        split; [apply list_lookup_insert_eq; exact Hlt |].
        split; [apply length_map | reflexivity].
      + injection Hlo as <- <-. discriminate H. }
  destruct Hstage as (l & t0 & -> & Hl & Hlen0 & Hpol).
  apply bind_Ok_inv in H as (s2 & [] & Hmask & H).
  assert (Hmasked : exists lg, s2 !! l = Some lg /\ length lg = length po
            /\ (forall m, mo = Some m ->
                  same_shape lg m = true /\ masked_fill lg m (- loginf) = lg)).
  { destruct mo as [m |].
    - apply setitem_mask_Ok_inv in Hmask as (t & Ht & Hs & ->).
      assert (t = t0) by congruence. subst t.
      exists (masked_fill t0 m (- loginf)).
      split; [apply list_lookup_insert_eq; eapply lookup_lt_Some; exact Hl |].
      split; [rewrite length_masked_fill by exact Hs; exact Hlen0 |].
      intros m' [= <-].
      split; [apply same_shape_masked_fill; exact Hs | apply masked_fill_idem].
    - injection Hmask as <-. exists t0.
      split; [exact Hl |]. split; [exact Hlen0 | discriminate]. }
  destruct Hmasked as (lg & Hlg & Hlen & Hm).
  apply bind_Ok_inv in H as (s3 & lg' & Hd & H).
  apply deref_Ok_inv in Hd as (-> & Hd).
  assert (lg' = lg) by congruence. subst lg'.
  apply bind_Ok_inv in H as (s4 & lp & Hg & H).
  apply bind_Ok_inv in H as (s5 & acts & Ha & H).
  injection H as <- <- <-.
  destruct (gather_Ok_inv _ _ _ _ _ Hg) as (-> & Hl1 & Hl2).
  destruct (for_each_getitem_Ok_inv _ _ _ _ _ Ha) as (-> & Hall).
  exists po, lg. repeat split; try assumption.
  - intros Hp. rewrite <- (Hpol Hp). exact Hlg.
  - apply Hm. assumption.
  - apply Hm. assumption.
Qed.

(** X7: what [sample_actions] returns can be recomputed. After a returning
    call under the policy method, with an action space without duplicates,
    [get_logprobs] on the same tensor, mask and the actions just drawn
    returns the log-probabilities [sample_actions] returned, and changes
    nothing. *)
Theorem get_logprobs_replays_sample (action_space : list Action)
    (h h' : store) (r : ref) (mo : option mask) (temp loginf : R)
    (actions : list Action) (logprobs : list R) :
  NoDup action_space ->
  sample_actions categorical_sample logsoftmax action_space r "policy" mo
    temp loginf h = Py.Ok h' (actions, logprobs) ->
  get_logprobs logsoftmax action_space r actions mo loginf h'
  = Py.Ok h' logprobs.
Proof.
  intros Hnd H.
  destruct (sample_actions_Ok_inv _ _ _ _ _ _ _ _ _ _ H)
    as (po & lg & _ & _ & Hr & Hm & _ & _ & Hg & Hall).
  specialize (Hr eq_refl).
  unfold get_logprobs. py_unfold.
  rewrite (deref_ok h' r lg Hr).
  assert (Hmask : match mo with
                  | Some m => setitem_mask r m (- loginf)
                  | None => fun s => Py.Ok s tt
                  end h' = Py.Ok h' tt).
  { destruct mo as [m |]; [| reflexivity].
    destruct (Hm m eq_refl) as (Hs & Hid).
    rewrite (setitem_mask_ok h' r lg m _ Hr Hs), Hid.
    rewrite list_insert_id by exact Hr. reflexivity. }
  rewrite Hmask.
  rewrite (for_each_index_NoDup _ _ _ h' Hnd Hall).
  rewrite (deref_ok h' r lg Hr). rewrite Hg. reflexivity.
Qed.

(** X8: a returning call of [sample_actions], under either method, gives one
    action and one log-probability per row of the policy outputs, and every
    action is an element of the action space. *)
Theorem sample_actions_shape (action_space : list Action) (h h' : store)
    (r : ref) (po : tensor) (method : string) (mo : option mask)
    (temp loginf : R) (actions : list Action) (logprobs : list R) :
  (forall t, length (logsoftmax t) = length t) ->
  h !! r = Some po ->
  sample_actions categorical_sample logsoftmax action_space r method mo temp
    loginf h = Py.Ok h' (actions, logprobs) ->
  length actions = length po
  /\ length logprobs = length po
  /\ Forall (fun a => a ∈ action_space) actions.
Proof.
  intros Hls Hpo H.
  destruct (sample_actions_Ok_inv _ _ _ _ _ _ _ _ _ _ H)
    as (po' & lg & Hpo' & Hlen & _ & _ & Hcs & Hlp & _ & Hall).
  assert (po' = po) by congruence. subst po'.
  rewrite Hls in Hcs, Hlp.
  split; [rewrite <- (Forall2_length _ _ _ Hall); congruence |].
  split; [congruence |].
  clear -Hall. induction Hall as [| i a idxs actions Hi _ IH]; constructor.
  - eapply list_elem_of_lookup_2. exact Hi.
  - exact IH.
Qed.

(** X9: [sample_actions] called with a sampling method other than "uniform"
    and "policy" raises [UnboundLocalError] for its local [logits], and
    leaves every tensor as it was. *)
Theorem sample_actions_unknown_method (action_space : list Action)
    (h : store) (r : ref) (po : tensor) (method : string) (mo : option mask)
    (temp loginf : R) :
  method <> "uniform"%string -> method <> "policy"%string ->
  h !! r = Some po ->
  sample_actions categorical_sample logsoftmax action_space r method mo temp
    loginf h = Py.Raise h (Py.UnboundLocalError "logits").
Proof.
  intros Hu Hp Hr. unfold sample_actions. py_unfold.
  rewrite (deref_ok h r po Hr).
  apply String.eqb_neq in Hu, Hp. rewrite Hu, Hp. reflexivity.
Qed.

(** X10: the two calls differ when repeated on the same tensor. A second
    [get_logprobs] leaves the tensor as the first did; a second
    [sample_actions] under the policy method divides it by the temperature
    once more. *)
Theorem repeated_calls_on_same_tensor (action_space : list Action)
    (h : store) (r : ref) (po : tensor) (m : mask) (actions : list Action)
    (temp loginf : R) :
  h !! r = Some po -> same_shape po m = true ->
  let h1 := Py.final_state
              (get_logprobs logsoftmax action_space r actions (Some m) loginf h) in
  let h2 := Py.final_state
              (sample_actions categorical_sample logsoftmax action_space r
                 "policy" (Some m) temp loginf h) in
  Py.final_state
    (get_logprobs logsoftmax action_space r actions (Some m) loginf h1) = h1
  /\ Py.final_state
       (sample_actions categorical_sample logsoftmax action_space r "policy"
          (Some m) temp loginf h2)
     = <[r := masked_fill (div_all (div_all po temp) temp) m (- loginf)]> h.
Proof.
  intros Hr Hs h1 h2. subst h1 h2.
  assert (Hlt : (r < length h)%nat) by (eapply lookup_lt_Some; exact Hr).
  rewrite (get_logprobs_store logsoftmax action_space h r po m actions loginf Hr Hs).
  rewrite (sample_actions_policy_store categorical_sample logsoftmax
             action_space h r po m temp loginf Hr Hs).
  split.
  - rewrite (get_logprobs_store logsoftmax action_space _ r
               (masked_fill po m (- loginf)) m actions loginf
               (list_lookup_insert_eq h r _ Hlt)
               (same_shape_masked_fill po m _ Hs)).
    rewrite masked_fill_idem, list_insert_insert_eq. reflexivity.
  - rewrite (sample_actions_policy_store categorical_sample logsoftmax
               action_space _ r (masked_fill (div_all po temp) m (- loginf)) m
               temp loginf (list_lookup_insert_eq h r _ Hlt)
               (same_shape_masked_fill _ m _ (same_shape_div_all po m temp Hs))).
    rewrite masked_fill_div_all, list_insert_insert_eq. reflexivity.
Qed.

End SamplingMore.

Lemma get_logprobs_replays_sample_witness :
  exists (h' : Sampling.store) (logprobs : list R),
    Sampling.sample_actions Sampling.ex_sample Sampling.ex_logsoftmax
      Sampling.ex_action_space 0 "policy" (Some Sampling.ex_mask) 2 1000
      Sampling.ex_store = Py.Ok h' ([11%nat], logprobs)
    /\ Sampling.get_logprobs Sampling.ex_logsoftmax Sampling.ex_action_space 0
         [11%nat] (Some Sampling.ex_mask) 1000 h' = Py.Ok h' logprobs.
Proof.
  eexists _, _.
  assert (Hrun : Sampling.sample_actions Sampling.ex_sample
                   Sampling.ex_logsoftmax Sampling.ex_action_space 0 "policy"
                   (Some Sampling.ex_mask) 2 1000 Sampling.ex_store
                 = Py.Ok _ ([11%nat], _)) by (vm_compute; reflexivity).
  split; [exact Hrun |].
  apply (get_logprobs_replays_sample Sampling.ex_sample Sampling.ex_logsoftmax
           Sampling.ex_action_space Sampling.ex_store _ 0
           (Some Sampling.ex_mask) 2 1000 [11%nat] _).
  - apply (bool_decide_unpack _). reflexivity.
  - exact Hrun.
Defined.

Lemma sample_actions_shape_witness :
  exists (h' : Sampling.store) (logprobs : list R),
    Sampling.sample_actions Sampling.ex_sample Sampling.ex_logsoftmax
      Sampling.ex_action_space 0 "uniform" (Some Sampling.ex_mask) 2 1000
      Sampling.ex_store = Py.Ok h' ([11%nat], logprobs)
    /\ length [11%nat] = length Sampling.ex_outputs
    /\ length logprobs = length Sampling.ex_outputs
    /\ Forall (fun a => a ∈ Sampling.ex_action_space) [11%nat].
Proof.
  eexists _, _.
  assert (Hrun : Sampling.sample_actions Sampling.ex_sample
                   Sampling.ex_logsoftmax Sampling.ex_action_space 0 "uniform"
                   (Some Sampling.ex_mask) 2 1000 Sampling.ex_store
                 = Py.Ok _ ([11%nat], _)) by (vm_compute; reflexivity).
  split; [exact Hrun |].
  eapply (sample_actions_shape Sampling.ex_sample Sampling.ex_logsoftmax
           Sampling.ex_action_space Sampling.ex_store _ 0 Sampling.ex_outputs
           "uniform" (Some Sampling.ex_mask) 2 1000 [11%nat] _).
  - intros t. reflexivity.
  - reflexivity.
  - exact Hrun.
Defined.

Lemma sample_actions_unknown_method_witness :
  Sampling.sample_actions Sampling.ex_sample Sampling.ex_logsoftmax
    Sampling.ex_action_space 0 "greedy" (Some Sampling.ex_mask) 2 1000
    Sampling.ex_store
  = Py.Raise Sampling.ex_store (Py.UnboundLocalError "logits").
Proof.
  apply (sample_actions_unknown_method Sampling.ex_sample
           Sampling.ex_logsoftmax Sampling.ex_action_space Sampling.ex_store 0
           Sampling.ex_outputs "greedy" (Some Sampling.ex_mask) 2 1000).
  - discriminate.
  - discriminate.
  - reflexivity.
Defined.

Lemma repeated_calls_on_same_tensor_witness :
  let h1 := Py.final_state
              (Sampling.get_logprobs Sampling.ex_logsoftmax
                 Sampling.ex_action_space 0 [11%nat] (Some Sampling.ex_mask)
                 1000 Sampling.ex_store) in
  let h2 := Py.final_state
              (Sampling.sample_actions Sampling.ex_sample
                 Sampling.ex_logsoftmax Sampling.ex_action_space 0 "policy"
                 (Some Sampling.ex_mask) 2 1000 Sampling.ex_store) in
  Py.final_state
    (Sampling.get_logprobs Sampling.ex_logsoftmax Sampling.ex_action_space 0
       [11%nat] (Some Sampling.ex_mask) 1000 h1) = h1
  /\ Py.final_state
       (Sampling.sample_actions Sampling.ex_sample Sampling.ex_logsoftmax
          Sampling.ex_action_space 0 "policy" (Some Sampling.ex_mask) 2 1000
          h2)
     = <[0%nat := Sampling.masked_fill
                    (Sampling.div_all (Sampling.div_all Sampling.ex_outputs 2) 2)
                    Sampling.ex_mask (- 1000)]> Sampling.ex_store.
Proof.
  apply (repeated_calls_on_same_tensor Sampling.ex_sample
           Sampling.ex_logsoftmax Sampling.ex_action_space Sampling.ex_store 0
           Sampling.ex_outputs Sampling.ex_mask [11%nat] 2 1000).
  - reflexivity.
  - reflexivity.
Defined.

(** ** The batch: rows, owners and reads *)

Ltac open_add_sample :=
  unfold Batch.add_sample, Batch.add_env, Batch.add_batch_index,
    Batch.add_indices, Batch.add_state, Batch.getkey;
  py_unfold.

Lemma bind_Ok_run {S A B} (m : Py.M S A) (k : A -> Py.M S B) (s s' : S)
    (a : A) :
  m s = Py.Ok s' a -> (m ≫= k) s = k a s'.
Proof. intros H. py_unfold. rewrite H. reflexivity. Qed.

(** *** One round of the loop of [add_to_batch] *)

Section BatchRounds.

Import Batch BatchReads.
Context {State Action MaskT PolicyT ProxyT RewardT : Type}.
Abbreviation rbatch := (@Batch.t State Action MaskT PolicyT RewardT).
Implicit Types (b : rbatch) (e : @Env State).





(** No round of the loop, in either mode, writes a cache or its flag. *)
Lemma add_sample_caches (backward train : bool) e (a : Action) (v : bool)
    (m : option MaskT) b b' :
  add_sample backward train (e, a, v, m) b = Py.Ok b' tt ->
  rewards b' = rewards b /\ rewards_available b' = rewards_available b
  /\ states_policy b' = states_policy b.
Proof using Type.
  open_add_sample. intros H. case_steps; auto.
Qed.

(** What a round of the loop that stores a row does to the indices. *)
Lemma add_sample_indices (backward train : bool) e (a : Action) (v : bool)
    (m : option MaskT) b b' :
  add_sample backward train (e, a, v, m) b = Py.Ok b' tt ->
  b' = b
  \/ (traj_indices b' = traj_indices b ++ [env_id e]
      /\ envs b' = (if dict_mem (env_id e) (envs b) then envs b
                    else dict_set (env_id e) e (envs b))
      /\ exists l',
           trajectories b' = dict_set (env_id e) l' (trajectories b)
           /\ forall x, x ∈ l' <->
                x = size b
                \/ x ∈ default [] (dict_get (env_id e) (trajectories b))).
Proof using Type.
  open_add_sample. intros H. case_steps; auto; right.
  all: split; [reflexivity |].
  all: repeat match goal with
       | H : dict_mem _ _ = _ |- _ => rewrite ?H; revert H
       end; intros.
  all: split; [reflexivity |].
  all: eexists; split; [reflexivity |].
  all: repeat match goal with
       | H : dict_get _ _ = Some _ |- _ => rewrite H
       | H : negb (dict_mem _ (trajectories _)) = true |- _ =>
           rewrite (dict_get_of_not_mem _ _ H)
       end; simpl.
  all: intros x; rewrite ?elem_of_cons, ?elem_of_app, ?list_elem_of_singleton,
         ?elem_of_nil.
  all: tauto.
Qed.

Lemma owned_empty : owned (empty : rbatch).
Proof using Type. constructor; simpl; intros; discriminate. Qed.

Lemma owned_set_continuous (c : option bool) b :
  owned b -> owned (set_continuous c b).
Proof using Type. intros [H1 H2 H3]. constructor; assumption. Qed.

Lemma add_sample_owned (backward train : bool) e (a : Action) (v : bool)
    (m : option MaskT) b b' :
  wf b -> owned b ->
  add_sample backward train (e, a, v, m) b = Py.Ok b' tt ->
  owned b'.
Proof using Type.
  intros Hwf [Hrow Hby Henv] Hrun.
  destruct (add_sample_indices _ _ _ _ _ _ _ _ Hrun)
    as [-> | (Hti & Hen & l' & Htr & Hl')]; [constructor; assumption |].
  pose proof (wf_traj_indices b Hwf) as Hlen.
  constructor.
  - intros idx k Hk. rewrite Hti in Hk. rewrite Htr.
    apply lookup_snoc_Some in Hk as [[Hlt Hk] | [Hidx <-]].
    + destruct (Hrow idx k Hk) as (l & Hl & Hin).
      destruct (decide (env_id e = k)) as [<- | Hne].
      * exists l'. rewrite dict_get_set_eq. split; [reflexivity |].
        apply Hl'. right. rewrite Hl. exact Hin.
      * exists l. rewrite dict_get_set_ne by exact Hne. auto.
    + exists l'. rewrite dict_get_set_eq. split; [reflexivity |].
      apply Hl'. left. lia.
  - intros k l idx Hl Hin. rewrite Htr in Hl. rewrite Hti.
    apply lookup_snoc_Some.
    destruct (decide (env_id e = k)) as [<- | Hne].
    + rewrite dict_get_set_eq in Hl. injection Hl as <-.
      apply Hl' in Hin as [-> | Hin]; [right; auto |].
      destruct (dict_get (env_id e) (trajectories b)) as [l0 |] eqn:El0;
        [| simpl in Hin; apply elem_of_nil in Hin; contradiction].
      left. pose proof (Hby _ _ _ El0 Hin) as Hk.
      split; [eapply lookup_lt_Some; exact Hk | exact Hk].
    + rewrite dict_get_set_ne in Hl by exact Hne.
      left. pose proof (Hby _ _ _ Hl Hin) as Hk.
      split; [eapply lookup_lt_Some; exact Hk | exact Hk].
  - intros k e' He'. rewrite Hen in He'.
    destruct (dict_mem (env_id e) (envs b)); [exact (Henv _ _ He') |].
    destruct (decide (env_id e = k)) as [<- | Hne].
    + rewrite dict_get_set_eq in He'. congruence.
    + rewrite dict_get_set_ne in He' by exact Hne. exact (Henv _ _ He').
Qed.

(** A stored tuple added in backward mode to a batch whose [parents] is
    [None]: the round raises after it has filed the trajectory index. *)
Lemma add_sample_backward_no_parents (train : bool) e (a : Action)
    (m : option MaskT) b :
  parents b = None -> stored train e true = true ->
  exists s,
    add_sample true train (e, a, true, m) b
    = Py.Raise s (Py.AttributeError "append")
    /\ size s = size b
    /\ traj_indices s = traj_indices b ++ [env_id e].
Proof using Type.
  unfold stored. intros Hp Hst. rewrite andb_true_r in Hst.
  apply negb_true_iff in Hst.
  open_add_sample. rewrite Hst. simpl.
  destruct (dict_mem (env_id e) (envs b)); simpl;
    (destruct (dict_mem (env_id e) (trajectories b)) eqn:Em; simpl;
     [destruct (dict_mem_get _ _ Em) as (l & ->); simpl |]);
    rewrite Hp; eexists; repeat split; reflexivity.
Qed.

Lemma add_samples_backward_no_parents (train : bool)
    (tuples : list (@Env State * Action * bool * option MaskT)) :
  forall b,
    parents b = None ->
    Exists (fun x => stored train x.1.1.1 x.1.2 = true) tuples ->
    exists s,
      Py.for_ (add_sample true train) tuples b
      = Py.Raise s (Py.AttributeError "append")
      /\ size s = size b
      /\ length (traj_indices s) = S (length (traj_indices b)).
Proof using Type.
  induction tuples as [| [[[e a] v] m] tuples IH]; intros b Hp Hex.
  - apply Exists_nil in Hex. contradiction.
  - cbn [Py.for_]. unfold Py.bind.
    destruct (stored train e v) eqn:Est.
    + assert (v = true) as ->.
      { unfold stored in Est. apply andb_true_iff in Est. tauto. }
      destruct (add_sample_backward_no_parents train e a m b Hp Est)
        as (s & -> & Hs & Hti).
      exists s. rewrite Hti, length_app. simpl.
      repeat split; [exact Hs | lia].
    + apply Exists_cons in Hex as [Hex | Hex]; [simpl in Hex; congruence |].
      assert (Hskip : add_sample true train (e, a, v, m) b = Py.Ok b tt).
      { unfold stored in Est. unfold add_sample. py_unfold.
        destruct (negb train && negb (env_done e)); [reflexivity |].
        simpl in Est. rewrite Est. reflexivity. }
      rewrite Hskip. exact (IH b Hp Hex).
Qed.

(** *** Lists of rows *)

Lemma for_each_getitem_ok {A} (l : list A) (idxs : list nat) (s : rbatch) :
  Forall (fun i => (i < length l)%nat) idxs ->
  Py.for_each (Py.getitem l) idxs s = Py.Ok s (omap (fun i => l !! i) idxs).
Proof using Type.
  induction 1 as [| i idxs Hi _ IH]; [reflexivity |].
  destruct (lookup_lt_is_Some_2 l i Hi) as [x Hx].
  cbn [Py.for_each omap list_omap]. unfold Py.bind at 1. unfold Py.getitem at 1.
  rewrite Hx. unfold Py.ret at 1. unfold Py.bind. rewrite IH. reflexivity.
Qed.

Lemma omap_lookup_seq {A} (pre l : list A) :
  omap (fun i => (pre ++ l) !! i) (seq (length pre) (length l)) = l.
Proof using Type.
  revert pre. induction l as [| x l IH]; intros pre; simpl; [reflexivity |].
  rewrite list_lookup_middle by reflexivity. f_equal.
  specialize (IH (pre ++ [x])). rewrite <- app_assoc in IH. simpl in IH.
  rewrite length_app in IH. simpl in IH.
  rewrite Nat.add_1_r in IH. exact IH.
Qed.

Lemma omap_concat {A B} (f : A -> option B) (ls : list (list A)) :
  concat (map (omap f) ls) = omap f (concat ls).
Proof using Type.
  induction ls as [| l ls IH]; simpl; [reflexivity |].
  rewrite IH. symmetry. apply omap_app.
Qed.

Lemma NoDup_concat_elem {A} (ls : list (list A)) (l : list A) :
  NoDup (concat ls) -> l ∈ ls -> NoDup l.
Proof using Type.
  intros Hnd Hin. apply list_elem_of_split in Hin as (l1 & l2 & ->).
  rewrite concat_app in Hnd. simpl in Hnd.
  apply NoDup_app in Hnd as (_ & _ & Hnd).
  apply NoDup_app in Hnd as (Hnd & _). exact Hnd.
Qed.

Lemma dict_get_elem_of_values {V} (k : Z) (v : V) (d : list (Z * V)) :
  dict_get k d = Some v -> v ∈ values d.
Proof using Type.
  unfold values. induction d as [| [k' v'] d IH]; simpl; [discriminate |].
  destruct (k' =? k).
  - intros [= ->]. left.
  - intros H. right. exact (IH H).
Qed.

Lemma dict_get_elem_of {V} (k : Z) (v : V) (d : list (Z * V)) :
  NoDup (keys d) -> (k, v) ∈ d -> dict_get k d = Some v.
Proof using Type.
  unfold keys. induction d as [| [k' v'] d IH]; intros Hnd Hin; simpl in *.
  - apply elem_of_nil in Hin. contradiction.
  - apply NoDup_cons in Hnd as [Hk' Hnd].
    apply elem_of_cons in Hin as [[= <- <-] | Hin].
    + rewrite Z.eqb_refl. reflexivity.
    + destruct (Z.eqb_spec k' k) as [-> | Hne]; [| exact (IH Hnd Hin)].
      exfalso. apply Hk'. apply list_elem_of_fmap. exists (k, v). auto.
Qed.

Lemma positions_of_elem (ti : list Z) (k : Z) (idx : nat) :
  idx ∈ positions_of ti k <-> ti !! idx = Some k.
Proof using Type.
  unfold positions_of. change (map fst ?l) with (fst <$> l).
  rewrite list_elem_of_fmap. split.
  - intros ([i x] & -> & Hin). apply list_elem_of_filter in Hin as [Hx Hin].
    simpl in Hx. subst x. apply elem_of_lookup_imap in Hin as (j & y & [= -> ->] & Hj).
    exact Hj.
  - intros H. exists (idx, k). split; [reflexivity |].
    apply list_elem_of_filter. split; [reflexivity |].
    apply (elem_of_lookup_imap_2 (fun i x => (i, x))). exact H.
Qed.

Lemma positions_of_NoDup (ti : list Z) (k : Z) : NoDup (positions_of ti k).
Proof using Type.
  unfold positions_of. change (map fst ?l) with (fst <$> l).
  apply (sublist_NoDup _ (fst <$> imap (fun i x => (i, x)) ti)).
  - rewrite fmap_imap.
    rewrite (imap_ext _ (fun j _ => Datatypes.id j)) by reflexivity.
    rewrite (imap_seq_0 ti Datatypes.id), list_fmap_id. apply NoDup_seq.
  - apply fmap_sublist, sublist_filter.
Qed.

(** Filtering the states by their trajectory index reads the states at the
    positions of that index. *)
Lemma states_at_positions (k : Z) (sts : list State) :
  forall (ti : list Z) (pre : list State),
    length sts = length ti ->
    map fst (filter (fun p => p.2 = k) (zip sts ti))
    = omap (fun i => (pre ++ sts) !! i)
        (map fst (filter (fun p => p.2 = k)
                    (imap (fun i x => ((length pre + i)%nat, x)) ti))).
Proof using Type.
  induction sts as [| s sts IH]; intros [| t ti] pre Hlen; simpl in Hlen;
    try discriminate; [reflexivity |].
  cbn [zip_with]. rewrite imap_cons, !filter_cons. cbn [snd].
  assert (Hrest : map fst (filter (fun p => p.2 = k) (zip sts ti))
                  = omap (fun i => (pre ++ s :: sts) !! i)
                      (map fst
                         (filter (fun p => p.2 = k)
                            (imap ((fun i x => ((length pre + i)%nat, x)) ∘ S) ti)))).
  { rewrite (IH ti (pre ++ [s])) by lia.
    rewrite <- app_assoc. cbn [app].
    rewrite (imap_ext (fun i x => ((length (pre ++ [s]) + i)%nat, x))
               ((fun i x => ((length pre + i)%nat, x)) ∘ S)); [reflexivity |].
    intros i x _. simpl. rewrite length_app. simpl. f_equal. lia. }
  destruct (decide (t = k)) as [-> | Hne].
  - cbn [map fst omap list_omap].
    rewrite Nat.add_0_r, list_lookup_middle by reflexivity.
    f_equal. exact Hrest.
  - exact Hrest.
Qed.

Lemma set_of_empty_inv (l : list Z) : set_of l = ∅ -> l = [].
Proof using Type.
  destruct l as [| k l]; [reflexivity |]. intros H. exfalso.
  assert (Hk : k ∈ set_of (k :: l)).
  { unfold set_of. apply elem_of_list_to_set. left. }
  rewrite H in Hk. exact (not_elem_of_empty k Hk).
Qed.

Lemma valid_size_0 b :
  is_valid b = true -> size b = 0%nat ->
  states b = [] /\ actions b = [] /\ done b = [] /\ traj_indices b = []
  /\ state_indices b = [] /\ envs b = [] /\ trajectories b = [].
Proof using Type.
  intros Hvalid H0.
  apply is_valid_spec in Hvalid as (H1 & H2 & H3 & H4 & H5 & H6 & H7 & _).
  rewrite H0 in *.
  apply length_zero_iff_nil in H1, H2, H3, H4, H5.
  rewrite H4 in H6. rewrite <- H6 in H7. symmetry in H6.
  change (set_of []) with (∅ : gset Z) in H6, H7.
  apply set_of_empty_inv in H6, H7. unfold keys in *.
  apply fmap_nil_inv in H6, H7. auto 10.
Qed.

(** *** Shifting the trajectory ids *)

Lemma set_id_own (e : @Env State) : set_id e (env_id e) = e.
Proof using Type. destruct e. reflexivity. Qed.

Lemma set_id_twice (e : @Env State) (i j : Z) :
  set_id (set_id e i) j = set_id e j.
Proof using Type. reflexivity. Qed.

(** The three fields a shift writes, on a well-formed batch. *)
Lemma shift_fields_main (by_ : Z) b :
  wf b ->
  traj_indices (shift_fields by_ b) = map (fun k => k + by_) (traj_indices b)
  /\ trajectories (shift_fields by_ b)
     = map (fun kv => (kv.1 + by_, kv.2)) (trajectories b)
  /\ envs (shift_fields by_ b)
     = map (fun kv => (kv.1 + by_, set_id kv.2 (kv.1 + by_))) (envs b).
Proof using Type.
  intros Hwf. unfold shift_fields. simpl.
  split; [reflexivity |]. split.
  - apply dict_of_items_nodup. rewrite keys_map_shift.
    apply NoDup_map_shift. exact (wf_traj_keys b Hwf).
  - apply dict_of_items_nodup.
    rewrite (keys_map_shift by_ (fun kv => set_id kv.2 (kv.1 + by_))).
    apply NoDup_map_shift. exact (wf_envs_keys b Hwf).
Qed.

Lemma with_main_fields b (ti : list Z) (tr : list (Z * list nat))
    (en : list (Z * @Env State)) :
  ti = traj_indices b -> tr = trajectories b -> en = envs b ->
  set_envs en (set_trajectories tr (set_traj_indices ti b)) = b.
Proof using Type. intros -> -> ->. destruct b. reflexivity. Qed.

Lemma shift_fields_as_setters (by_ : Z) b :
  shift_fields by_ b
  = set_envs (envs (shift_fields by_ b))
      (set_trajectories (trajectories (shift_fields by_ b))
         (set_traj_indices (traj_indices (shift_fields by_ b)) b)).
Proof using Type. reflexivity. Qed.

(** Shifting there and back gives the batch again. *)
Lemma shift_fields_back (by_ : Z) b :
  wf b -> owned b -> shift_fields (- by_) (shift_fields by_ b) = b.
Proof using Type.
  intros Hwf Hown.
  pose proof (shift_fields_wf by_ b Hwf) as Hwf'.
  destruct (shift_fields_main by_ b Hwf) as (H1 & H2 & H3).
  destruct (shift_fields_main (- by_) _ Hwf') as (H1' & H2' & H3').
  rewrite (shift_fields_as_setters (- by_)). rewrite H1', H2', H3'.
  rewrite H1, H2, H3. rewrite (shift_fields_as_setters by_).
  transitivity (set_envs (envs b)
                  (set_trajectories (trajectories b)
                     (set_traj_indices (traj_indices b) b)));
    [| apply with_main_fields; reflexivity].
  assert (Hti : map (fun k => k + - by_) (map (fun k => k + by_) (traj_indices b))
                = traj_indices b).
  { rewrite map_map. rewrite <- (map_id (traj_indices b)) at 2.
    apply map_ext. intros k. lia. }
  assert (Htr : map (fun kv => (kv.1 + - by_, kv.2))
                  (map (fun kv => (kv.1 + by_, kv.2)) (trajectories b))
                = trajectories b).
  { rewrite map_map. rewrite <- (map_id (trajectories b)) at 2.
    apply map_ext. intros [k l]. simpl. f_equal. lia. }
  assert (Hen : map (fun kv => (kv.1 + - by_, set_id kv.2 (kv.1 + - by_)))
                  (map (fun kv => (kv.1 + by_, set_id kv.2 (kv.1 + by_))) (envs b))
                = envs b).
  { rewrite map_map. rewrite <- (map_id (envs b)) at 2.
    apply map_ext_in. intros [k e] Hin. simpl.
    apply list_elem_of_In in Hin.
    pose proof (owned_env b Hown k e
                  (dict_get_elem_of k e _ (wf_envs_keys b Hwf) Hin)) as Hid.
    replace (k + by_ + - by_) with k by lia.
    rewrite set_id_twice, <- Hid, set_id_own. reflexivity. }
  rewrite Hti, Htr, Hen. destruct b. reflexivity.
Qed.

End BatchRounds.

(** *** Forward masks *)

Section ForwardMasks.

Import Batch BatchReads.
Context {State Action MaskT PolicyT ProxyT RewardT : Type}.
Abbreviation rbatch := (@Batch.t State Action MaskT PolicyT RewardT).
Implicit Types (b : rbatch) (e : @Env State).

Variable mask_forward_of : @Env State -> State -> bool -> MaskT.

Abbreviation masks_round :=
  (fun it : nat * Z =>
     let '(idx, traj_idx) := it in
     self ← Py.get;
     state ← Py.getitem (states self) idx;
     done_ ← Py.getitem (done self) idx;
     _ ← Py.getitem (actions self) idx;
     e ← getkey traj_idx (envs self);
     Py.modify (fun b : rbatch =>
       set_masks_invalid_actions_forward
         (masks_invalid_actions_forward b
          ++ [Some (mask_forward_of e state done_)]) b)).

(** The loop of [_compute_masks_forward] over rows that exist and whose
    trajectory has an environment: it returns, with one mask per row. *)
Lemma masks_loop (items : list (nat * Z)) :
  forall b0 : rbatch,
    Forall (fun it => (it.1 < length (states b0))%nat
                      /\ (it.1 < length (done b0))%nat
                      /\ (it.1 < length (actions b0))%nat
                      /\ it.2 ∈ keys (envs b0)) items ->
    exists ms,
      Py.for_ masks_round items b0
      = Py.Ok (set_masks_invalid_actions_forward
                 (masks_invalid_actions_forward b0 ++ ms) b0) tt
      /\ Forall2 (fun it m =>
                    exists e s d,
                      dict_get it.2 (envs b0) = Some e
                      /\ states b0 !! it.1 = Some s
                      /\ done b0 !! it.1 = Some d
                      /\ m = Some (mask_forward_of e s d)) items ms.
Proof using Type.
  induction items as [| [idx k] items IH]; intros b0 Hall.
  - exists []. split; [| constructor].
    cbn [Py.for_]. rewrite app_nil_r. destruct b0. reflexivity.
  - apply Forall_cons in Hall as [(Hs & Hd & Ha & Hk) Hall]. simpl in Hs, Hd, Ha, Hk.
    destruct (lookup_lt_is_Some_2 _ _ Hs) as [s Es].
    destruct (lookup_lt_is_Some_2 _ _ Hd) as [d Ed].
    destruct (lookup_lt_is_Some_2 _ _ Ha) as [a Ea].
    destruct (dict_mem_get k (envs b0) (proj2 (dict_mem_true k (envs b0)) Hk))
      as [e Ee].
    set (b1 := set_masks_invalid_actions_forward
                 (masks_invalid_actions_forward b0
                  ++ [Some (mask_forward_of e s d)]) b0).
    assert (Hround : masks_round (idx, k) b0 = Py.Ok b1 tt).
    { unfold getkey. py_unfold. rewrite Es. simpl. rewrite Ed. simpl.
      rewrite Ea. simpl. rewrite Ee. reflexivity. }
    destruct (IH b1) as (ms & Hloop & Hrel); [exact Hall |].
    exists (Some (mask_forward_of e s d) :: ms). split.
    + cbn [Py.for_]. unfold Py.bind. rewrite Hround, Hloop.
      subst b1. simpl. rewrite <- app_assoc. reflexivity.
    + constructor; [| exact Hrel]. exists e, s, d. auto.
Qed.

(** X18: on a batch that passes [is_valid], [get_masks_forward], when it
    computes the masks, returns one mask per row: that of the environment of the row's
    trajectory for the row's state and done flag. A second call without
    [force_recompute] returns the same masks and changes nothing. *)
Theorem get_masks_forward_per_row (force_recompute : bool) b :
  is_valid b = true ->
  masks_forward_available b = false \/ force_recompute = true ->
  exists b' ms,
    get_masks_forward mask_forward_of force_recompute b = Py.Ok b' ms
    /\ length ms = size b
    /\ (forall (idx : nat) (k : Z),
          traj_indices b !! idx = Some k ->
          exists e s d,
            dict_get k (envs b) = Some e /\ states b !! idx = Some s
            /\ done b !! idx = Some d
            /\ ms !! idx = Some (Some (mask_forward_of e s d)))
    /\ get_masks_forward mask_forward_of false b' = Py.Ok b' ms.
Proof using Type.
  intros Hvalid Hcompute.
  apply is_valid_spec in Hvalid as (Vs & Va & Vd & Vt & _ & Vids & _).
  set (b0 := set_masks_invalid_actions_forward [] b).
  set (items := imap (fun idx traj_idx => (idx, traj_idx)) (traj_indices b)).
  assert (Hall : Forall (fun it => (it.1 < length (states b0))%nat
                          /\ (it.1 < length (done b0))%nat
                          /\ (it.1 < length (actions b0))%nat
                          /\ it.2 ∈ keys (envs b0)) items).
  { apply Forall_forall. intros [idx k] Hin.
    apply list_elem_of_lookup in Hin as (i & Hi). subst items.
    rewrite list_lookup_imap in Hi.
    destruct (traj_indices b !! i) as [k' |] eqn:Ek; [| discriminate].
    injection Hi as <- <-. simpl.
    pose proof (lookup_lt_Some _ _ _ Ek) as Hlt.
    rewrite Vt in Hlt. rewrite Vs, Vd, Va.
    repeat split; try exact Hlt.
    apply (elem_of_list_to_set (C := gset Z)).
    change (k' ∈ set_of (keys (envs b))). rewrite <- Vids.
    apply elem_of_list_to_set. eapply list_elem_of_lookup_2. exact Ek. }
  destruct (masks_loop items b0 Hall) as (ms & Hloop & Hrel).
  set (b' := set_masks_forward_available true
               (set_masks_invalid_actions_forward ms b)).
  assert (Hrun : _compute_masks_forward mask_forward_of b = Py.Ok b' tt).
  { unfold _compute_masks_forward.
    rewrite (bind_Ok_run _ _ b b0 tt) by reflexivity.
    rewrite (bind_Ok_run _ _ b0 b0 b0) by reflexivity.
    change (traj_indices b0) with (traj_indices b). fold items.
    rewrite (bind_Ok_run _ _ _ _ tt Hloop). reflexivity. }
  exists b', ms. split; [| split; [| split]].
  - unfold get_masks_forward. py_unfold.
    assert (Hc : negb (masks_forward_available b) || force_recompute = true).
    { destruct Hcompute as [-> | ->]; [reflexivity | apply orb_true_r]. }
    rewrite Hc, Hrun. reflexivity.
  - rewrite <- (Forall2_length _ _ _ Hrel). subst items.
    rewrite length_imap. exact Vt.
  - intros idx k Hk.
    assert (Hit : items !! idx = Some (idx, k)).
    { subst items. rewrite list_lookup_imap, Hk. reflexivity. }
    destruct (Forall2_lookup_l _ _ _ _ _ Hrel Hit)
      as (m & Hm & e & s & d & He & Hs & Hd & ->).
    exists e, s, d. auto.
  - reflexivity.
Qed.

End ForwardMasks.

(** *** Batches built by [add_to_batch] *)

Section BuiltBatches.

Import Batch BatchReads.
Context {State Action MaskT PolicyT ProxyT RewardT : Type}.
Abbreviation rbatch := (@Batch.t State Action MaskT PolicyT RewardT).
Implicit Types (b : rbatch) (e : @Env State).

Variable get_mask_invalid_actions_forward : @Env State -> option MaskT.
Variable get_mask_invalid_actions_backward : @Env State -> option MaskT.

Abbreviation add_to_batch_ :=
  (add_to_batch (Action := Action) (PolicyT := PolicyT) (RewardT := RewardT)
     get_mask_invalid_actions_forward get_mask_invalid_actions_backward).
Abbreviation built_ :=
  (built (Action := Action) (PolicyT := PolicyT) (RewardT := RewardT)
     get_mask_invalid_actions_forward get_mask_invalid_actions_backward).


Lemma add_to_batch_caches (envs_ : list (@Env State)) (actions_ : list Action)
    (valids : list bool) (masks : option (list (option MaskT)))
    (backward train : bool) b b' :
  add_to_batch_ envs_ actions_ valids masks backward train b = Py.Ok b' tt ->
  rewards b' = rewards b /\ rewards_available b' = rewards_available b
  /\ states_policy b' = states_policy b.
Proof using Type.
  unfold add_to_batch. py_unfold.
  set (P := fun s : rbatch =>
              rewards s = rewards b /\ rewards_available s = rewards_available b
              /\ states_policy s = states_policy b).
  assert (Hstep : forall (x : @Env State * Action * bool * option MaskT) s s',
            P s -> add_sample backward train x s = Py.Ok s' tt -> P s').
  { intros [[[e a] v] m] s s' (H1 & H2 & H3) Hrun.
    destruct (add_sample_caches _ _ _ _ _ _ _ _ Hrun) as (H1' & H2' & H3').
    unfold P. repeat split; congruence. }
  destruct (continuous b) as [c |].
  - apply (for_invariant P _ _ Hstep). unfold P. auto.
  - destruct (envs_ !! 0%nat) as [e0 |]; simpl; [| discriminate].
    apply (for_invariant P _ _ Hstep). unfold P. auto.
Qed.

(** X12: [add_to_batch] called with an empty list of environments on a
    batch that does not know yet whether it is continuous raises
    [IndexError] (from [envs[0]]) and leaves the batch as it was. *)
Theorem add_to_batch_no_envs (actions_ : list Action) (valids : list bool)
    (masks : option (list (option MaskT))) (backward train : bool) b :
  continuous b = None ->
  add_to_batch get_mask_invalid_actions_forward
    get_mask_invalid_actions_backward [] actions_ valids masks backward train b
  = Py.Raise b Py.IndexError.
Proof using Type.
  intros Hc. unfold add_to_batch. py_unfold. rewrite Hc. reflexivity.
Qed.

(** X14: every batch built from the empty one by returning calls of
    [add_to_batch], in any mix of modes, passes [is_valid]. *)
Theorem built_batch_is_valid b :
  built get_mask_invalid_actions_forward get_mask_invalid_actions_backward b ->
  is_valid b = true.
Proof using Type.
  intros H. apply wf_is_valid.
  apply (built_wf get_mask_invalid_actions_forward
           get_mask_invalid_actions_backward). exact H.
Qed.

Lemma add_to_batch_owned (envs_ : list (@Env State)) (actions_ : list Action)
    (valids : list bool) (masks : option (list (option MaskT)))
    (backward train : bool) b b' :
  wf b -> owned b ->
  add_to_batch_ envs_ actions_ valids masks backward train b = Py.Ok b' tt ->
  wf b' /\ owned b'.
Proof using Type.
  intros Hwf Hown. unfold add_to_batch. py_unfold.
  assert (Hstep : forall (x : @Env State * Action * bool * option MaskT)
                          (s s' : rbatch),
            wf s /\ owned s -> add_sample backward train x s = Py.Ok s' tt ->
            wf s' /\ owned s').
  { intros [[[e a] v] m] s s' [H1 H2] Hrun. split.
    - exact (add_sample_wf _ _ _ _ _ _ _ _ H1 Hrun).
    - exact (add_sample_owned _ _ _ _ _ _ _ _ H1 H2 Hrun). }
  destruct (continuous b) as [c |].
  - apply (for_invariant _ _ _ Hstep). auto.
  - destruct (envs_ !! 0%nat) as [e0 |]; simpl; [| discriminate].
    apply (for_invariant _ _ _ Hstep).
    split; [apply wf_set_continuous | apply owned_set_continuous]; assumption.
Qed.

(** Every batch built by [add_to_batch] files each row under its
    trajectory and each environment under its id. *)
Lemma built_owned b :
  built get_mask_invalid_actions_forward get_mask_invalid_actions_backward b ->
  wf b /\ owned b.
Proof using Type.
  induction 1 as [| b b' envs_ actions_ valids masks backward train _ [IH1 IH2] Hrun].
  - split; [apply wf_empty | apply owned_empty].
  - exact (add_to_batch_owned _ _ _ _ _ _ _ _ IH1 IH2 Hrun).
Qed.

(** X15: on a built batch [idx2state_idx] inverts the row-index lists:
    for every row [idx] it returns, without changing the batch, a position
    [p] with [trajectories[traj_indices[idx]][p] == idx]; past the last row
    it raises [IndexError]. *)
Theorem idx2state_idx_inverts_rows b (idx : nat) :
  built_ b ->
  if decide (idx < size b)%nat then
    exists (k : Z) (l : list nat) (p : nat),
      traj_indices b !! idx = Some k
      /\ dict_get k (trajectories b) = Some l
      /\ idx2state_idx idx b = Py.Ok b p
      /\ l !! p = Some idx
  else idx2state_idx idx b = Py.Raise b Py.IndexError.
Proof using Type.
  intros Hb. destruct (built_owned b Hb) as [Hwf [Hrow _ _]].
  pose proof (wf_traj_indices b Hwf) as Hlen.
  unfold idx2state_idx, getkey, list_index. py_unfold.
  destruct (decide (idx < size b)%nat) as [Hlt | Hge].
  - destruct (lookup_lt_is_Some_2 (traj_indices b) idx) as [k Hk]; [lia |].
    destruct (Hrow idx k Hk) as (l & Hl & Hin).
    destruct (list_find (fun y => y = idx) l) as [[p y] |] eqn:Ef.
    + pose proof Ef as Ef'. apply list_find_Some in Ef' as (Hp & -> & _).
      exists k, l, p. rewrite Hk. simpl. rewrite Hl. simpl. rewrite Ef. auto.
    + exfalso. apply list_find_None in Ef.
      exact (proj1 (Forall_forall _ _) Ef idx Hin eq_refl).
  - rewrite lookup_ge_None_2 by lia. reflexivity.
Qed.

(** X16: on a built batch [get_n_trajectories] is the number of distinct
    trajectory ids among the rows. *)
Theorem get_n_trajectories_counts_ids b :
  built_ b ->
  get_n_trajectories b = Py.Ok b (length (remove_dups (traj_indices b))).
Proof using Type.
  intros Hb. destruct (built_owned b Hb) as [Hwf _].
  unfold get_n_trajectories. py_unfold. f_equal.
  rewrite <- (length_fmap fst (trajectories b)).
  apply Permutation_length, NoDup_Permutation.
  - exact (wf_traj_keys b Hwf).
  - apply NoDup_remove_dups.
  - intros k. rewrite elem_of_remove_dups.
    pose proof (wf_ids b Hwf) as H1. pose proof (wf_traj_ids b Hwf) as H2.
    unfold set_of, keys in *.
    rewrite <- (elem_of_list_to_set (C := gset Z) k (traj_indices b)).
    rewrite <- (elem_of_list_to_set (C := gset Z) k ((trajectories b).*1)).
    rewrite H1, H2. reflexivity.
Qed.

(** X17: on a built batch [get_actions_trajectories] returns one list of
    actions per trajectory, each as long as the row-index list of the
    trajectory, and together the lists hold the actions of the batch, each
    row once. *)
Theorem get_actions_trajectories_covers b :
  built_ b ->
  exists acts : list (list Action),
    get_actions_trajectories b = Py.Ok b acts
    /\ map length acts = map length (values (trajectories b))
    /\ concat acts ≡ₚ actions b.
Proof using Type.
  intros Hb. destruct (built_owned b Hb) as [Hwf _].
  assert (Hbound : Forall (Forall (fun i => (i < length (actions b))%nat))
                     (values (trajectories b))).
  { apply Forall_forall. intros l Hl. apply Forall_forall. intros i Hi.
    rewrite (wf_actions b Hwf). apply (wf_rows_bounded b i Hwf).
    apply elem_of_concat. eauto. }
  exists (map (omap (fun i => actions b !! i)) (values (trajectories b))).
  split; [| split].
  - unfold get_actions_trajectories. py_unfold.
    induction Hbound as [| l ls Hl _ IH]; simpl; [reflexivity |].
    unfold Py.bind.
    pose proof (for_each_getitem_ok _ _ b Hl) as Hrow.
    unfold Py.getitem in Hrow. rewrite Hrow.
    rewrite IH. reflexivity.
  - induction Hbound as [| l ls Hl _ IH]; [reflexivity |].
    cbn [map]. f_equal; [| exact IH].
    clear -Hl. induction Hl as [| i l Hi _ IH]; [reflexivity |].
    cbn [omap list_omap].
    destruct (lookup_lt_is_Some_2 (actions b) i Hi) as [x ->].
    cbn [length]. f_equal. exact IH.
  - rewrite omap_concat, (wf_rows b Hwf), <- (wf_actions b Hwf).
    pose proof (omap_lookup_seq [] (actions b)) as Hseq. simpl in Hseq.
    rewrite Hseq. reflexivity.
Qed.

(** X23: on a built batch [get_states_of_trajectory(k)] returns, in row
    order and without changing the batch, the states stored at the rows
    that [trajectories[k]] lists: as many states as the list has rows, and
    the same states up to order (the list of a trajectory sampled backward
    runs from its last row to its first). *)
Theorem get_states_of_trajectory_rows b (k : Z) (l : list nat) :
  built_ b ->
  dict_get k (trajectories b) = Some l ->
  exists sts,
    get_states_of_trajectory k None None b = Py.Ok b sts
    /\ length sts = length l
    /\ sts ≡ₚ omap (fun i => states b !! i) l.
Proof using Type.
  intros Hb Hl. destruct (built_owned b Hb) as [Hwf Hown].
  assert (Hperm : positions_of (traj_indices b) k ≡ₚ l).
  { apply NoDup_Permutation.
    - apply positions_of_NoDup.
    - apply (NoDup_concat_elem (values (trajectories b))).
      + rewrite (wf_rows b Hwf). apply NoDup_seq.
      + exact (dict_get_elem_of_values _ _ _ Hl).
    - intros idx. rewrite positions_of_elem. split.
      + intros Hidx. destruct (owned_row b Hown idx k Hidx) as (l' & Hl' & Hin).
        congruence.
      + intros Hin. exact (owned_by b Hown k l idx Hl Hin). }
  assert (Hsts : map fst (filter (fun p => p.2 = k)
                            (zip (states b) (traj_indices b)))
                 = omap (fun i => states b !! i)
                     (positions_of (traj_indices b) k)).
  { rewrite (states_at_positions k (states b) (traj_indices b) []);
      [reflexivity |].
    rewrite (wf_states b Hwf), (wf_traj_indices b Hwf). reflexivity. }
  eexists. split; [reflexivity |]. cbn [fst snd]. rewrite Hsts.
  split.
  - rewrite <- (Permutation_length Hperm).
    assert (Hbound : Forall (fun i => (i < length (states b))%nat)
                       (positions_of (traj_indices b) k)).
    { apply Forall_forall. intros i Hi. apply positions_of_elem in Hi.
      apply lookup_lt_Some in Hi.
      rewrite (wf_states b Hwf), <- (wf_traj_indices b Hwf). exact Hi. }
    clear -Hbound. induction Hbound as [| i rows Hi _ IH]; [reflexivity |].
    cbn [omap list_omap].
    destruct (lookup_lt_is_Some_2 (states b) i Hi) as [x ->].
    cbn [length]. f_equal. exact IH.
  - rewrite Hperm. reflexivity.
Qed.

(** X19: shifting the trajectory ids of a built batch by [by] and then by
    [-by] returns both times and gives the batch back, environments
    included. *)
Theorem shift_traj_indices_round_trip (by_ : Z) b :
  built_ b ->
  (_shift_traj_indices by_ ;; _shift_traj_indices (- by_)) b = Py.Ok b tt.
Proof using Type.
  intros Hb. destruct (built_owned b Hb) as [Hwf Hown].
  py_unfold.
  rewrite (shift_traj_indices_ok by_ b Hwf).
  rewrite (shift_traj_indices_ok (- by_) _ (shift_fields_wf by_ b Hwf)).
  rewrite (shift_fields_back by_ b Hwf Hown). reflexivity.
Qed.

End BuiltBatches.

(** *** Rounds of [merge] *)

Section MergeRounds.

Import Batch BatchReads.
Context {State Action MaskT PolicyT ProxyT RewardT : Type}.
Abbreviation rbatch := (@Batch.t State Action MaskT PolicyT RewardT).
Implicit Types (b : rbatch) (e : @Env State).

Variable extend_policy : PolicyT -> PolicyT -> PolicyT.
Variable extend_rewards : RewardT -> RewardT -> RewardT.

(** With none of its three list and tensor caches flagged as available,
    the second block of [merge] returns, keeps the main data and leaves
    [parents] at [None]. *)
Lemma merge_optional_data_quiet (batch_ : rbatch) b :
  rewards_available b = false -> parents_available b = false ->
  parents_all_available b = false ->
  exists b',
    merge_optional_data extend_policy extend_rewards batch_ b = Py.Ok b' tt
    /\ size b' = size b /\ states b' = states b /\ actions b' = actions b
    /\ done b' = done b /\ traj_indices b' = traj_indices b
    /\ state_indices b' = state_indices b /\ envs b' = envs b
    /\ trajectories b' = trajectories b /\ parents b' = None
    /\ rewards_available b' = false /\ parents_available b' = false
    /\ parents_all_available b' = false.
Proof using Type.
  intros Hr Hp Hpa. unfold merge_optional_data. py_unfold. simpl.
  rewrite Hr, Hp, Hpa. simpl.
  destruct (masks_forward_available b && masks_forward_available batch_);
    destruct (masks_backward_available b && masks_backward_available batch_);
    simpl; eexists; repeat split; simpl; assumption.
Qed.

(** With the flag of [parents] never raised, every round of [merge] that
    returns leaves [parents] at [None]. *)
Lemma merge_rounds_drop_parents (batches : list rbatch) :
  forall b b',
    Py.for_ (merge_one extend_policy extend_rewards) batches b = Py.Ok b' tt ->
    parents_available b = false ->
    parents_available b' = false /\ (batches <> [] -> parents b' = None).
Proof using Type.
  induction batches as [| x batches IH]; intros b b' Hrun Hflag.
  - injection Hrun as <-. split; [exact Hflag | congruence].
  - cbn [Py.for_] in Hrun. unfold Py.bind in Hrun.
    destruct (merge_one extend_policy extend_rewards x b) as [b1 [] | b1 ex] eqn:E;
      [| discriminate].
    destruct (merge_one_Ok_inv extend_policy extend_rewards x b b1 E)
      as (sh & b0 & Hmain & Hopt).
    assert (Hflag0 : parents_available b0 = false).
    { unfold merge_main_data in Hmain. py_unfold.
      injection Hmain as <-. exact Hflag. }
    pose proof (merge_optional_data_frame extend_policy extend_rewards
                  (shift_fields sh x) b0) as Hframe.
    rewrite Hopt in Hframe. simpl in Hframe.
    destruct Hframe as (_ & _ & _ & _ & _ & Hflag1 & _).
    rewrite Hflag0 in Hflag1.
    destruct (merge_optional_data_Ok extend_policy extend_rewards _ _ _ Hopt)
      as (_ & _ & Hnone & _).
    rewrite Hflag0 in Hnone. specialize (Hnone eq_refl).
    destruct (IH b1 b' Hrun Hflag1) as [Hf Hp].
    split; [exact Hf |]. intros _.
    destruct batches as [| y batches]; [| apply Hp; discriminate].
    injection Hrun as <-. exact Hnone.
Qed.

End MergeRounds.

(** *** [merge] and [add_to_batch] *)

Section MergeAndAdd.

Import Batch BatchReads.
Context {State Action MaskT PolicyT ProxyT RewardT : Type}.
Abbreviation rbatch := (@Batch.t State Action MaskT PolicyT RewardT).
Implicit Types (b : rbatch) (e : @Env State).

Variable get_mask_invalid_actions_forward : @Env State -> option MaskT.
Variable get_mask_invalid_actions_backward : @Env State -> option MaskT.

Abbreviation add_to_batch_ :=
  (add_to_batch (Action := Action) (PolicyT := PolicyT) (RewardT := RewardT)
     get_mask_invalid_actions_forward get_mask_invalid_actions_backward).
Abbreviation built_ :=
  (built (Action := Action) (PolicyT := PolicyT) (RewardT := RewardT)
     get_mask_invalid_actions_forward get_mask_invalid_actions_backward).

Variable extend_policy : PolicyT -> PolicyT -> PolicyT.
Variable extend_rewards : RewardT -> RewardT -> RewardT.

Abbreviation merge' :=
  (merge (State := State) (Action := Action) (MaskT := MaskT) extend_policy
     extend_rewards).

(** X20: [merge] of one built batch into a valid batch without rows (and
    without caches flagged as available) returns, and the main data of the
    result are those of the built batch: same rows, trajectory ids,
    row-index lists and environments. *)
Theorem merge_into_empty (A B : rbatch) :
  is_valid A = true -> size A = 0%nat ->
  rewards_available A = false -> parents_available A = false ->
  parents_all_available A = false ->
  built_ B ->
  exists A',
    merge' [B] A = Py.Ok A' tt
    /\ size A' = size B /\ states A' = states B /\ actions A' = actions B
    /\ done A' = done B /\ traj_indices A' = traj_indices B
    /\ state_indices A' = state_indices B /\ envs A' = envs B
    /\ trajectories A' = trajectories B.
Proof using Type.
  intros HA H0 Hr Hp Hpa HB.
  destruct (built_owned _ _ B HB) as [HwfB HownB].
  destruct (valid_size_0 A HA H0) as (E1 & E2 & E3 & E4 & E5 & E6 & E7).
  assert (Hshift0 : shift_fields 0 B = B).
  { destruct (shift_fields_main 0 B HwfB) as (H1 & H2 & H3).
    rewrite (shift_fields_as_setters 0 B), H1, H2, H3.
    apply with_main_fields.
    - rewrite <- (map_id (traj_indices B)) at 2. apply map_ext. intros k. lia.
    - rewrite <- (map_id (trajectories B)) at 2. apply map_ext.
      intros [k l]. simpl. f_equal. lia.
    - rewrite <- (map_id (envs B)) at 2. apply map_ext_in.
      intros [k e] Hin. simpl. apply list_elem_of_In in Hin.
      pose proof (owned_env B HownB k e
                    (dict_get_elem_of k e _ (wf_envs_keys B HwfB) Hin)) as Hid.
      replace (k + 0) with k by lia.
      rewrite <- Hid, set_id_own. reflexivity. }
  assert (Hsh : traj_idx_shift_of A = Py.Ok A 0).
  { unfold traj_idx_shift_of. py_unfold. rewrite H0. reflexivity. }
  assert (Hcall : Py.call_on B (_shift_traj_indices 0) A = Py.Ok A (B, tt)).
  { unfold Py.call_on. rewrite (shift_traj_indices_ok 0 B HwfB), Hshift0.
    reflexivity. }
  set (A1 := Py.final_state (merge_main_data B A)).
  assert (Hmain : merge_main_data B A = Py.Ok A1 tt) by reflexivity.
  destruct (merge_optional_data_quiet extend_policy extend_rewards B A1 Hr Hp Hpa)
    as (A' & Hopt & F1 & F2 & F3 & F4 & F5 & F6 & F7 & F8 & _).
  assert (Hround : merge_one extend_policy extend_rewards B A = Py.Ok A' tt).
  { unfold merge_one. py_unfold. rewrite Hsh, Hcall. cbn [fst].
    rewrite Hmain. exact Hopt. }
  assert (Hfields : size A' = size B /\ states A' = states B
            /\ actions A' = actions B /\ done A' = done B
            /\ traj_indices A' = traj_indices B
            /\ state_indices A' = state_indices B /\ envs A' = envs B
            /\ trajectories A' = trajectories B).
  { rewrite F1, F2, F3, F4, F5, F6, F7, F8. subst A1. simpl.
    rewrite H0, E1, E2, E3, E4, E5, E6, E7. simpl.
    repeat split; try reflexivity.
    - apply (dict_update_nodup [] (envs B)). exact (wf_envs_keys B HwfB).
    - apply (dict_update_nodup [] (trajectories B)). exact (wf_traj_keys B HwfB). }
  exists A'. split; [| exact Hfields].
  destruct Hfields as (G1 & G2 & G3 & G4 & G5 & G6 & G7 & G8).
  unfold merge. cbn [Py.for_]. py_unfold. rewrite Hround.
  assert (Hvalid : is_valid A' = true).
  { pose proof (proj1 (is_valid_spec B) (wf_is_valid B HwfB)) as Hv.
    apply is_valid_spec. rewrite G1, G2, G3, G4, G5, G6, G7, G8. exact Hv. }
  rewrite Hvalid. reflexivity.
Qed.

(** X21: after a [merge] of at least one batch has returned on a batch
    whose [parents_available] flag is down (no method raises it),
    [parents] is [None], and a call of [add_to_batch] in backward mode that
    has a tuple to store raises [AttributeError]; by then the trajectory
    index of the tuple has been appended, and the batch no longer passes
    [is_valid]. *)
Theorem backward_add_after_merge (batches : list rbatch) (A A' : rbatch)
    (envs_ : list (@Env State)) (actions_ : list Action) (valids : list bool)
    (train : bool) :
  merge' batches A = Py.Ok A' tt -> batches <> [] ->
  parents_available A = false ->
  Exists (fun x => stored train x.1.1 x.2 = true)
    (zip (zip envs_ actions_) valids) ->
  parents A' = None
  /\ exists s,
       add_to_batch_ envs_ actions_ valids None true train A'
       = Py.Raise s (Py.AttributeError "append")
       /\ is_valid s = false.
Proof using Type.
  intros Hmerge Hne Hflag Hex.
  unfold merge in Hmerge.
  apply bind_Ok_inv in Hmerge as (A1 & [] & Hrounds & Hcheck).
  py_unfold. destruct (is_valid A1) eqn:Hvalid; [| discriminate].
  injection Hcheck as <-.
  destruct (merge_rounds_drop_parents extend_policy extend_rewards batches A A1
              Hrounds Hflag) as [_ Hp].
  specialize (Hp Hne). split; [exact Hp |].
  apply is_valid_spec in Hvalid as (_ & _ & _ & Hlen & _).
  set (ms := if train then map get_mask_invalid_actions_backward envs_
             else replicate (length envs_) None).
  assert (Hex4 : Exists (fun x => stored train x.1.1.1 x.1.2 = true)
                   (zip (zip (zip envs_ actions_) valids) ms)).
  { apply Exists_exists in Hex as (x & Hx & Hst).
    apply list_elem_of_lookup in Hx as (i & Hi).
    assert (Hlt : (i < length ms)%nat).
    { apply lookup_lt_Some in Hi. rewrite !length_zip_with in Hi.
      subst ms. destruct train;
        [rewrite length_map | rewrite length_replicate]; lia. }
    destruct (lookup_lt_is_Some_2 ms i Hlt) as [m Hm].
    apply Exists_exists. exists (x, m). split; [| exact Hst].
    apply list_elem_of_lookup. exists i.
    rewrite lookup_zip_with. rewrite Hi. simpl.
    rewrite Hm. reflexivity. }
  assert (Hraise : forall b0 : rbatch,
            parents b0 = None -> size b0 = size A1 ->
            traj_indices b0 = traj_indices A1 ->
            exists s,
              Py.for_ (add_sample true train)
                (zip (zip (zip envs_ actions_) valids) ms) b0
              = Py.Raise s (Py.AttributeError "append")
              /\ is_valid s = false).
  { intros b0 Hp0 Hs0 Ht0.
    destruct (add_samples_backward_no_parents train _ b0 Hp0 Hex4)
      as (s & Hrun & Hsz & Hti).
    exists s. split; [exact Hrun |].
    destruct (is_valid s) eqn:E; [| reflexivity].
    apply is_valid_spec in E as (_ & _ & _ & Hlen' & _).
    rewrite Hti, Hsz, Ht0, Hs0 in Hlen'. lia. }
  unfold add_to_batch. py_unfold.
  destruct (continuous A1) as [c |] eqn:Ec.
  - apply Hraise; auto.
  - destruct envs_ as [| e0 rest].
    + simpl in Hex. apply Exists_nil in Hex. contradiction.
    + simpl. apply Hraise; auto.
Qed.

End MergeAndAdd.

(** *** Caches *)

Section StaleCaches.

Import Batch BatchReads.
Context {State Action MaskT PolicyT ProxyT RewardT : Type}.
Abbreviation rbatch := (@Batch.t State Action MaskT PolicyT RewardT).
Implicit Types (b : rbatch) (e : @Env State).

Variable get_mask_invalid_actions_forward : @Env State -> option MaskT.
Variable get_mask_invalid_actions_backward : @Env State -> option MaskT.

Abbreviation add_to_batch_ :=
  (add_to_batch (Action := Action) (PolicyT := PolicyT) (RewardT := RewardT)
     get_mask_invalid_actions_forward get_mask_invalid_actions_backward).
Abbreviation built_ :=
  (built (Action := Action) (PolicyT := PolicyT) (RewardT := RewardT)
     get_mask_invalid_actions_forward get_mask_invalid_actions_backward).

Variable compute_rewards : rbatch -> RewardT.
Variable statebatch2policy : @Env State -> list State -> PolicyT.
Variable statebatch2proxy : @Env State -> list State -> ProxyT.
Variable concat_items : list ProxyT -> list nat -> ProxyT.
Variable zeros : nat -> @Env State -> PolicyT.

Abbreviation get_states_ :=
  (get_states (MaskT := MaskT) (RewardT := RewardT) statebatch2policy
     statebatch2proxy concat_items zeros).

(** X13: [add_to_batch] invalidates no cache. Rewards and policy-format
    states computed before rows were added are what [get_rewards()] and
    [get_states(policy=True)] return afterwards, without recomputation
    and with the batch left as it is. *)
Theorem add_to_batch_keeps_caches (envs_ : list (@Env State))
    (actions_ : list Action) (valids : list bool)
    (masks : option (list (option MaskT))) (backward train : bool) b b'
    (sp : PolicyT) :
  rewards_available b = true -> states_policy b = Some sp ->
  add_to_batch_ envs_ actions_ valids masks backward train b = Py.Ok b' tt ->
  get_rewards compute_rewards false b' = Py.Ok b' (rewards b)
  /\ get_states_ true false false b' = Py.Ok b' (in_policy sp).
Proof using Type.
  intros Hra Hsp Hrun.
  destruct (add_to_batch_caches _ _ _ _ _ _ _ _ _ _ Hrun) as (Hr & Hf & Hp).
  split.
  - unfold get_rewards. py_unfold. rewrite Hf, Hra. simpl. rewrite Hr.
    reflexivity.
  - unfold get_states. py_unfold. simpl. rewrite Hp, Hsp. reflexivity.
Qed.

End StaleCaches.

Section PolicyStates.

Import Batch BatchReads.
Context {State Action MaskT PolicyT ProxyT RewardT : Type}.
Abbreviation rbatch := (@Batch.t State Action MaskT PolicyT RewardT).
Implicit Types (b : rbatch) (e : @Env State).

Variable statebatch2policy : @Env State -> list State -> PolicyT.
Variable statebatch2proxy : @Env State -> list State -> ProxyT.
Variable concat_items : list ProxyT -> list nat -> ProxyT.
Variable zeros : nat -> @Env State -> PolicyT.

Abbreviation get_states_ :=
  (get_states (MaskT := MaskT) (RewardT := RewardT) statebatch2policy
     statebatch2proxy concat_items zeros).

(** X22: on a conditional batch with rows that passes [is_valid],
    [get_states(policy=True)]
    raises [AttributeError] when it has to compute the tensor: the loop of
    [states2policy] calls the method [statebatchpolicy], which no
    environment has, for the first trajectory. The batch is left as it
    was. *)
Theorem get_states_policy_conditional_raises (force_recompute : bool) b
    (e0 : @Env State) :
  is_valid b = true -> (0 < size b)%nat ->
  conditional b = Some true -> env b = Some e0 ->
  states_policy b = None \/ force_recompute = true ->
  get_states_ true false force_recompute b
  = Py.Raise b (Py.AttributeError "statebatchpolicy").
Proof using Type.
  intros Hvalid Hpos Hc He Hcompute.
  apply is_valid_spec in Hvalid as (_ & _ & _ & _ & _ & Vids & Vtraj & Vlen & _).
  assert (Hs2p : states2policy (MaskT := MaskT) (RewardT := RewardT)
                   statebatch2policy zeros b
                 = Py.Raise b (Py.AttributeError "statebatchpolicy")).
  { unfold states2policy, getkey. py_unfold. rewrite Hc, He.
    destruct (keys (trajectories b)) as [| k ks] eqn:Ek.
    { unfold keys in Ek. apply fmap_nil_inv in Ek. rewrite Ek in Vlen.
      simpl in Vlen. lia. }
    assert (Hk : k ∈ set_of (k :: ks)).
    { apply elem_of_list_to_set. left. }
    assert (Hti : k ∈ traj_indices b).
    { rewrite Vtraj, <- Vids in Hk.
      apply elem_of_list_to_set in Hk. exact Hk. }
    assert (Hen : k ∈ keys (envs b)).
    { rewrite Vtraj in Hk.
      apply elem_of_list_to_set in Hk. exact Hk. }
    destruct (dict_mem_get k (envs b) (proj2 (dict_mem_true k (envs b)) Hen))
      as [e Ee].
    cbn [Py.for_]. unfold Py.bind.
    rewrite (bool_decide_eq_true_2 _ Hti). simpl. rewrite Ee. reflexivity. }
  unfold get_states. py_unfold. simpl.
  destruct Hcompute as [Hn | ->].
  - rewrite Hn, Hs2p. reflexivity.
  - destruct (states_policy b); rewrite Hs2p; reflexivity.
Qed.

End PolicyStates.

(** *** The sample batches *)

Lemma one_row_A_built : Batch.built BatchEx.no_mask BatchEx.no_mask BatchEx.one_row_A.
Proof.
  eapply Batch.built_add with (b := Batch.empty) (envs_ := [BatchEx.mk_env 0 7 true])
    (actions_ := [1]) (valids := [true]) (masks := None) (backward := false)
    (train := true); [apply Batch.built_empty | vm_compute; reflexivity].
Qed.

Lemma one_row_B_built : Batch.built BatchEx.no_mask BatchEx.no_mask BatchEx.one_row_B.
Proof.
  eapply Batch.built_add with (b := Batch.empty) (envs_ := [BatchEx.mk_env 0 8 true])
    (actions_ := [1]) (valids := [true]) (masks := None) (backward := false)
    (train := true); [apply Batch.built_empty | vm_compute; reflexivity].
Qed.

Lemma two_by_two_built :
  Batch.built BatchEx.no_mask BatchEx.no_mask BatchExMore.two_by_two.
Proof.
  eapply Batch.built_add with
    (b := BatchEx.after
            (BatchEx.add [BatchEx.mk_env 0 10 false; BatchEx.mk_env 1 20 false]
               [3; 4] [true; true] false) Batch.empty)
    (envs_ := [BatchEx.mk_env 0 11 true; BatchEx.mk_env 1 21 true])
    (actions_ := [5; 6]) (valids := [true; true]) (masks := None)
    (backward := false) (train := true); [| vm_compute; reflexivity].
  eapply Batch.built_add with (b := Batch.empty)
    (envs_ := [BatchEx.mk_env 0 10 false; BatchEx.mk_env 1 20 false])
    (actions_ := [3; 4]) (valids := [true; true]) (masks := None)
    (backward := false) (train := true); [apply Batch.built_empty | vm_compute; reflexivity].
Qed.


Lemma add_to_batch_no_envs_witness :
  Batch.add_to_batch BatchEx.no_mask BatchEx.no_mask [] [1] [true] None false
    true (Batch.empty : BatchEx.batch)
  = Py.Raise Batch.empty Py.IndexError.
Proof.
  apply (add_to_batch_no_envs BatchEx.no_mask BatchEx.no_mask [1] [true] None
           false true Batch.empty).
  reflexivity.
Defined.

(** The rewards read before a second row was added have one entry, and
    are what [get_rewards()] returns for the batch of two rows. *)
Lemma add_to_batch_keeps_caches_witness :
  exists b' : BatchEx.batch,
    Batch.size b' = 2%nat
    /\ Batch.get_rewards BatchEx.zero_rewards false b' = Py.Ok b' (Some [0])
    /\ BatchReads.get_states BatchExMore.policy_rows BatchEx.proxy_rows
         BatchEx.concat_rows BatchExMore.zeros true false false b'
       = Py.Ok b' (BatchReads.in_policy tt).
Proof.
  set (b' := BatchEx.after
               (Batch.add_to_batch BatchEx.no_mask BatchEx.no_mask
                  [BatchEx.mk_env 1 8 true] [2] [true] None false true)
               BatchExMore.read_once).
  exists b'. split; [vm_compute; reflexivity |].
  assert (Hold : Batch.rewards BatchExMore.read_once = Some [0])
    by (vm_compute; reflexivity).
  rewrite <- Hold.
  apply (add_to_batch_keeps_caches BatchEx.no_mask BatchEx.no_mask
           BatchEx.zero_rewards BatchExMore.policy_rows BatchEx.proxy_rows
           BatchEx.concat_rows BatchExMore.zeros [BatchEx.mk_env 1 8 true]
           [2] [true] None false true BatchExMore.read_once b' tt).
  - vm_compute. reflexivity.
  - vm_compute. reflexivity.
  - vm_compute. reflexivity.
Defined.

Lemma built_batch_is_valid_witness :
  Batch.is_valid BatchExMore.two_by_two = true.
Proof.
  apply (built_batch_is_valid BatchEx.no_mask BatchEx.no_mask).
  exact two_by_two_built.
Defined.

Lemma idx2state_idx_inverts_rows_witness :
  exists (k : Z) (l : list nat) (p : nat),
    Batch.traj_indices BatchExMore.two_by_two !! 3%nat = Some k
    /\ Batch.dict_get k (Batch.trajectories BatchExMore.two_by_two) = Some l
    /\ BatchReads.idx2state_idx 3 BatchExMore.two_by_two
       = Py.Ok BatchExMore.two_by_two p
    /\ l !! p = Some 3%nat.
Proof.
  pose proof (idx2state_idx_inverts_rows BatchEx.no_mask BatchEx.no_mask
                BatchExMore.two_by_two 3 two_by_two_built) as H.
  destruct (decide (3 < Batch.size BatchExMore.two_by_two)%nat) as [_ | Hn].
  - exact H.
  - exfalso. apply Hn. vm_compute. lia.
Defined.

Lemma get_n_trajectories_counts_ids_witness :
  BatchReads.get_n_trajectories BatchExMore.two_by_two
  = Py.Ok BatchExMore.two_by_two
      (length (remove_dups (Batch.traj_indices BatchExMore.two_by_two))).
Proof.
  apply (get_n_trajectories_counts_ids BatchEx.no_mask BatchEx.no_mask).
  exact two_by_two_built.
Defined.

Lemma get_actions_trajectories_covers_witness :
  exists acts : list (list Z),
    BatchReads.get_actions_trajectories BatchExMore.two_by_two
    = Py.Ok BatchExMore.two_by_two acts
    /\ map length acts
       = map length (Batch.values (Batch.trajectories BatchExMore.two_by_two))
    /\ concat acts ≡ₚ Batch.actions BatchExMore.two_by_two.
Proof.
  apply (get_actions_trajectories_covers BatchEx.no_mask BatchEx.no_mask).
  exact two_by_two_built.
Defined.

Lemma get_masks_forward_per_row_witness :
  exists (b' : BatchEx.batch) (ms : list (option unit)),
    Batch.get_masks_forward BatchEx.unit_mask true BatchExMore.two_by_two
    = Py.Ok b' ms
    /\ length ms = 4%nat
    /\ Batch.get_masks_forward BatchEx.unit_mask false b' = Py.Ok b' ms.
Proof.
  destruct (get_masks_forward_per_row BatchEx.unit_mask true
              BatchExMore.two_by_two)
    as (b' & ms & Hrun & Hlen & _ & Hagain).
  - apply (built_batch_is_valid BatchEx.no_mask BatchEx.no_mask).
    exact two_by_two_built.
  - right. reflexivity.
  - exists b', ms. split; [exact Hrun |]. split; [exact Hlen | exact Hagain].
Defined.

Lemma shift_traj_indices_round_trip_witness :
  (Batch._shift_traj_indices 5 ;; Batch._shift_traj_indices (Z.opp 5))
    BatchExMore.two_by_two
  = Py.Ok BatchExMore.two_by_two tt.
Proof.
  exact (shift_traj_indices_round_trip BatchEx.no_mask BatchEx.no_mask 5
           BatchExMore.two_by_two two_by_two_built).
Defined.

Lemma merge_into_empty_witness :
  exists A' : BatchEx.batch,
    Batch.merge BatchEx.ext_unit BatchEx.ext_list [BatchExMore.two_by_two]
      Batch.empty = Py.Ok A' tt
    /\ Batch.states A' = [10; 20; 11; 21]
    /\ Batch.trajectories A' = [(0, [0; 2]%nat); (1, [1; 3]%nat)].
Proof.
  destruct (merge_into_empty BatchEx.no_mask BatchEx.no_mask BatchEx.ext_unit
              BatchEx.ext_list Batch.empty BatchExMore.two_by_two)
    as (A' & Hrun & _ & Hs & _ & _ & _ & _ & _ & Ht).
  - apply wf_is_valid, wf_empty.
  - reflexivity.
  - reflexivity.
  - reflexivity.
  - reflexivity.
  - exact two_by_two_built.
  - exists A'. split; [exact Hrun |]. split; [exact Hs | exact Ht].
Defined.

Lemma backward_add_after_merge_witness :
  exists A' : BatchEx.batch,
    Batch.merge BatchEx.ext_unit BatchEx.ext_list [BatchEx.one_row_B]
      Batch.empty = Py.Ok A' tt
    /\ Batch.parents A' = None
    /\ exists s,
         Batch.add_to_batch BatchEx.no_mask BatchEx.no_mask [BatchEx.back_env1]
           [9] [true] None true true A'
         = Py.Raise s (Py.AttributeError "append")
         /\ Batch.is_valid s = false.
Proof.
  destruct (merge_into_empty BatchEx.no_mask BatchEx.no_mask BatchEx.ext_unit
              BatchEx.ext_list Batch.empty BatchEx.one_row_B
              (wf_is_valid _ wf_empty) eq_refl eq_refl eq_refl eq_refl
              one_row_B_built) as (A' & Hrun & _).
  exists A'. split; [exact Hrun |].
  apply (backward_add_after_merge BatchEx.no_mask BatchEx.no_mask
           BatchEx.ext_unit BatchEx.ext_list [BatchEx.one_row_B] Batch.empty A'
           [BatchEx.back_env1] [9] [true] true Hrun).
  - discriminate.
  - reflexivity.
  - constructor. reflexivity.
Defined.

Lemma get_states_policy_conditional_raises_witness :
  BatchReads.get_states BatchExMore.policy_rows BatchEx.proxy_rows
    BatchEx.concat_rows BatchExMore.zeros true false false
    (BatchExMore.with_env (BatchEx.mk_env 0 0 false) true BatchEx.one_row_A)
  = Py.Raise
      (BatchExMore.with_env (BatchEx.mk_env 0 0 false) true BatchEx.one_row_A)
      (Py.AttributeError "statebatchpolicy").
Proof.
  set (b := BatchExMore.with_env (BatchEx.mk_env 0 0 false) true
              BatchEx.one_row_A).
  assert (Hv : Batch.is_valid b = true) by (vm_compute; reflexivity).
  assert (Hpos : (0 < Batch.size b)%nat) by (vm_compute; lia).
  assert (Hn : Batch.states_policy b = None) by (vm_compute; reflexivity).
  exact (get_states_policy_conditional_raises BatchExMore.policy_rows
           BatchEx.proxy_rows BatchEx.concat_rows BatchExMore.zeros false b
           (BatchEx.mk_env 0 0 false) Hv Hpos eq_refl eq_refl (or_introl Hn)).
Defined.

Lemma get_states_of_trajectory_rows_witness :
  exists sts : list Z,
    Batch.get_states_of_trajectory 1 None None BatchExMore.two_by_two
    = Py.Ok BatchExMore.two_by_two sts
    /\ length sts = length [1%nat; 3%nat]
    /\ sts ≡ₚ omap (fun i => Batch.states BatchExMore.two_by_two !! i)
               [1%nat; 3%nat].
Proof.
  apply (get_states_of_trajectory_rows BatchEx.no_mask BatchEx.no_mask
           BatchExMore.two_by_two 1 [1%nat; 3%nat] two_by_two_built).
  reflexivity.
Defined.
